(** * go-amizone: session orchestration and resilient extraction

    A shallow embedding of the login state machine ([amizone.Client]), the
    CapSolver client ([capsolver.Client]), the session cache
    ([server.SessionCache]) and the marks extractor ([parse.Courses]) of
    go-amizone, followed by the properties its specification states about
    them.

    Conventions of the embedding:
    - a Go [string] is a Rocq [string] (a sequence of bytes);
    - a Go [error] is its message, [nil] is [None];
    - [time.Time] and [time.Duration] are integers counting nanoseconds;
    - everything the code reads from the outside (the portal, the solving
      service, the clock) comes from an explicit environment, and everything
      it does to the outside is appended to a trace of events. *)

From Stdlib Require Import ZArith QArith Lia List Bool Ascii String DecimalString.
From stdpp Require Import base gmap strings.
From Equations Require Import Equations.

Local Open Scope string_scope.
Local Open Scope Z_scope.

(** ** Go's [strings] package, on ASCII text *)

Module Strings.

Definition is_lower (c : ascii) : bool :=
  ((97 <=? nat_of_ascii c) && (nat_of_ascii c <=? 122))%nat.

Definition upper_byte (c : ascii) : ascii :=
  if is_lower c then ascii_of_nat (nat_of_ascii c - 32) else c.

(** [strings.ToUpper]; bytes outside [a-z] are left as they are (Go maps
    non-ASCII runes through the Unicode tables, which is not modelled). *)
Fixpoint ToUpper (s : string) : string :=
  match s with
  | EmptyString => EmptyString
  | String c r => String (upper_byte c) (ToUpper r)
  end.

(** White space as [unicode.IsSpace] sees it below U+0080. *)
Definition is_space (c : ascii) : bool :=
  let n := nat_of_ascii c in
  ((n =? 9) || (n =? 10) || (n =? 11) || (n =? 12) || (n =? 13) || (n =? 32))%nat.

Fixpoint TrimLeftSpace (s : string) : string :=
  match s with
  | EmptyString => EmptyString
  | String c r => if is_space c then TrimLeftSpace r else s
  end.

Fixpoint TrimRightSpace (s : string) : string :=
  match s with
  | EmptyString => EmptyString
  | String c r =>
      match TrimRightSpace r with
      | EmptyString => if is_space c then EmptyString else String c EmptyString
      | r' => String c r'
      end
  end.

(** [strings.TrimSpace] *)
Definition TrimSpace (s : string) : string := TrimRightSpace (TrimLeftSpace s).

(** [strings.HasPrefix] *)
Fixpoint HasPrefix (s p : string) : bool :=
  match p, s with
  | EmptyString, _ => true
  | String _ _, EmptyString => false
  | String a p', String b s' => if Ascii.eqb a b then HasPrefix s' p' else false
  end.

Fixpoint replace_from (old new : string) (skip : nat) (s : string) : string :=
  match s with
  | EmptyString =>
      match skip, old with
      | O, EmptyString => new
      | _, _ => EmptyString
      end
  | String c r =>
      match skip with
      | S k => replace_from old new k r
      | O =>
          if HasPrefix s old then
            new ++ match String.length old with
                   | O => String c (replace_from old new O r)
                   | S k => replace_from old new k r
                   end
          else String c (replace_from old new O r)
      end
  end.

(** [strings.ReplaceAll]: non-overlapping occurrences, left to right. *)
Definition ReplaceAll (s old new : string) : string := replace_from old new O s.

(** [strings.Contains] *)
Fixpoint Contains (s sub : string) : bool :=
  HasPrefix s sub ||
  match s with
  | EmptyString => false
  | String _ r => Contains r sub
  end.

End Strings.

(** ** Go's [time] package *)

Module GoTime.

(** A [time.Time] is the number of nanoseconds since the zero [Time]
    (January 1, year 1, 00:00 UTC), so that the zero value of a struct
    field of type [time.Time] is [0]. *)
Definition Time := Z.
Definition Duration := Z.

Definition Nanosecond : Duration := 1.
Definition Second : Duration := 1000000000.
Definition Minute : Duration := 60 * Second.
Definition Hour : Duration := 60 * Minute.

Definition minDuration : Duration := - 2 ^ 63.
Definition maxDuration : Duration := 2 ^ 63 - 1.

Definition zero : Time := 0.

(** [t.Sub(u)]: the difference, or the largest (smallest) [Duration] when
    it does not fit in an int64. *)
Definition Sub (t u : Time) : Duration :=
  if t - u <? minDuration then minDuration
  else if maxDuration <? t - u then maxDuration
  else t - u.

(** [time.Since(t)] is [time.Now().Sub(t)]. *)
Definition Since (now t : Time) : Duration := Sub now t.

End GoTime.

(** ** Go's [regexp] package: a backtracking matcher

    Go documents its (non-POSIX) matching as leftmost-first: among the
    matches that start leftmost, the one a backtracking search finds first.
    [run] is that search, in continuation-passing style: alternatives are
    tried left to right and a repetition prefers one more iteration. *)

Module Regexp.

Inductive regex : Type :=
| Class (p : ascii -> bool)
| Empty
| Cat (r1 r2 : regex)
| Alt (r1 r2 : regex)
| Star (r : regex)
| Group (n : nat) (r : regex).

Definition Plus (r : regex) : regex := Cat r (Star r).
Definition Quest (r : regex) : regex := Alt r Empty.
Definition Lit (c : ascii) : regex := Class (Ascii.eqb c).

Definition is_digit (c : ascii) : bool :=
  ((48 <=? nat_of_ascii c) && (nat_of_ascii c <=? 57))%nat.

(** [\s] is [[\t\n\f\r ]] in Go's syntax. *)
Definition is_perl_space (c : ascii) : bool :=
  let n := nat_of_ascii c in
  ((n =? 9) || (n =? 10) || (n =? 12) || (n =? 13) || (n =? 32))%nat.

Definition digit : regex := Class is_digit.
Definition space : regex := Class is_perl_space.

Definition captures : Type := list (nat * list ascii).
Definition answer : Type := option (list ascii * captures).

(** The input consumed between two suffixes of one string. *)
Definition consumed (s s' : list ascii) : list ascii :=
  firstn (List.length s - List.length s') s.

Fixpoint run (r : regex) (s : list ascii) (caps : captures)
    (k : list ascii -> captures -> answer) {struct r} : answer :=
  match r with
  | Class p =>
      match s with
      | c :: s' => if p c then k s' caps else None
      | [] => None
      end
  | Empty => k s caps
  | Cat r1 r2 => run r1 s caps (fun s' caps' => run r2 s' caps' k)
  | Alt r1 r2 =>
      match run r1 s caps k with
      | Some a => Some a
      | None => run r2 s caps k
      end
  | Star r1 =>
      (fix iterate (fuel : nat) (s : list ascii) (caps : captures) : answer :=
         match fuel with
         | O => k s caps
         | S fuel' =>
             match run r1 s caps
                     (fun s' caps' =>
                        if (List.length s' <? List.length s)%nat
                        then iterate fuel' s' caps' else None) with
             | Some a => Some a
             | None => k s caps
             end
         end) (List.length s) s caps
  | Group n r1 =>
      run r1 s caps (fun s' caps' => k s' ((n, consumed s s') :: caps'))
  end.

(** The leftmost match: the first start position at which [run] succeeds. *)
Fixpoint find (r : regex) (s : list ascii) : option (list ascii * captures) :=
  match run r s [] (fun s' caps => Some (s', caps)) with
  | Some (s', caps) => Some (consumed s s', caps)
  | None =>
      match s with
      | [] => None
      | _ :: s' => find r s'
      end
  end.

Fixpoint NumSubexp (r : regex) : nat :=
  match r with
  | Class _ | Empty => O
  | Cat r1 r2 | Alt r1 r2 => (NumSubexp r1 + NumSubexp r2)%nat
  | Star r1 => NumSubexp r1
  | Group _ r1 => S (NumSubexp r1)
  end.

Fixpoint capture (n : nat) (caps : captures) : list ascii :=
  match caps with
  | [] => []
  | (m, text) :: rest => if (n =? m)%nat then text else capture n rest
  end.

(** [re.FindStringSubmatch(s)]: the match and the text of each group, or
    [nil] when there is no match. *)
Definition FindStringSubmatch (r : regex) (s : string) : list string :=
  match find r (list_ascii_of_string s) with
  | None => []
  | Some (whole, caps) =>
      string_of_list_ascii whole ::
      List.map (fun n => string_of_list_ascii (capture n caps)) (seq 1 (NumSubexp r))
  end.

(** [re.FindString(s)]: the match, or the empty string. *)
Definition FindString (r : regex) (s : string) : string :=
  match find r (list_ascii_of_string s) with
  | None => EmptyString
  | Some (whole, _) => string_of_list_ascii whole
  end.

End Regexp.

(** ** Go's [strconv] package, for the numerals the extractors read *)

Module Strconv.

Inductive NumError : Type := ErrSyntax | ErrRange.

Definition digit_value (c : ascii) : Z := Z.of_nat (nat_of_ascii c) - 48.

(** The value of a non-empty string of decimal digits. *)
Fixpoint digits_from (acc : Z) (s : string) : option Z :=
  match s with
  | EmptyString => Some acc
  | String c r =>
      if Regexp.is_digit c then digits_from (10 * acc + digit_value c) r else None
  end.

Definition digits (s : string) : option Z :=
  match s with
  | EmptyString => None
  | _ => digits_from 0 s
  end.

(** [strconv.Atoi] on an unsigned decimal numeral; [int] is 64 bits wide. *)
Definition Atoi (s : string) : Z + NumError :=
  match digits s with
  | None => inr ErrSyntax
  | Some n => if n <=? 2 ^ 63 - 1 then inl n else inr ErrRange
  end.

(** The conversion [int32(n)]: the low 32 bits, read as a signed number. *)
Definition int32 (n : Z) : Z := (n + 2 ^ 31) mod 2 ^ 32 - 2 ^ 31.

(** A finite [float32], as the reduced fraction it denotes. *)
Definition float32 : Type := Q.

Definition float32_zero : float32 := 0 # 1.

(** [n / d] divided by [2 ^ e], as a numerator and a denominator. *)
Definition scale (n d e : Z) : Z * Z :=
  if 0 <=? e then (n, d * 2 ^ e) else (n * 2 ^ (- e), d).

(** The integer nearest to [n / d], ties to even. *)
Definition round_half_even (n d : Z) : Z :=
  let q := n / d in
  match 2 * (n mod d) ?= d with
  | Lt => q
  | Gt => q + 1
  | Eq => if Z.even q then q else q + 1
  end.

(** IEEE 754 binary32 rounding (to nearest, ties to even) of the
    non-negative fraction [n / d]: 24 significant bits, the unit in the
    last place never below [2 ^ -149], overflow from [2 ^ 128] on. *)
Definition round32 (n d : Z) : option float32 :=
  if n =? 0 then Some float32_zero
  else
    let e0 := Z.log2 n - Z.log2 d in
    let '(n1, d1) := scale n d e0 in
    let e := if n1 <? d1 then e0 - 1 else e0 in
    let u := Z.max (e - 23) (- 149) in
    let '(n2, d2) := scale n d u in
    let m := round_half_even n2 d2 in
    if 0 <=? u
    then if 2 ^ 128 <=? m * 2 ^ u then None else Some (Qred (m * 2 ^ u # 1))
    else Some (Qred (m # Z.to_pos (2 ^ (- u)))).

(** The decimal numeral [s] as a fraction: digits, optionally followed by
    a point and more digits. *)
Fixpoint split_point (s : string) : string * option string :=
  match s with
  | EmptyString => (EmptyString, None)
  | String c r =>
      if Ascii.eqb c "."%char then (EmptyString, Some r)
      else let '(a, b) := split_point r in (String c a, b)
  end.

Definition decimal (s : string) : option (Z * Z) :=
  match split_point s with
  | (ip, None) => option_map (fun n => (n, 1)) (digits ip)
  | (ip, Some fp) =>
      match digits ip, digits fp with
      | Some i, Some f =>
          let p := 10 ^ Z.of_nat (String.length fp) in Some (i * p + f, p)
      | _, _ => None
      end
  end.

(** [strconv.ParseFloat(s, 32)] followed by the (exact) conversion to
    [float32], on the numerals [\d+(\.\d+)?] that the extractors hand to
    it; Go accepts further forms (signs, exponents, hexadecimal, Inf, NaN),
    which are reported as syntax errors here. *)
Definition ParseFloat32 (s : string) : float32 + NumError :=
  match decimal s with
  | None => inr ErrSyntax
  | Some (n, d) =>
      match round32 n d with
      | Some f => inl f
      | None => inr ErrRange
      end
  end.

(** A decimal constant converted to [float32], as the Go compiler does for
    a constant such as [20.40] in a [float32] field. *)
Definition float32_const (n d : Z) : float32 :=
  match round32 n d with
  | Some f => f
  | None => float32_zero
  end.

End Strconv.

(** ** Package [parse]: the login form and the course list *)

Module Parse.

Import Regexp.

(** *** login_form.go *)

Record LoginFormFields : Type := {
  VerificationToken : string;
  Salt : string;
  SecretNumber : string;
  Signature : string;
  Challenge : string;
  TurnstileSiteKey : string;
  RecaptchaSiteKey : string;
  TurnstileResponse : string;
  RecaptchaToken : string;
  Honeypot : string
}.

Definition nonempty (s : string) : bool :=
  match s with EmptyString => false | _ => true end.

(** [IsValid] checks if the essential fields are present. *)
Definition IsValid (f : LoginFormFields) : bool :=
  nonempty (VerificationToken f) && nonempty (Salt f) &&
  nonempty (SecretNumber f) && nonempty (Signature f) &&
  nonempty (Challenge f).

Definition HasTurnstileToken (f : LoginFormFields) : bool :=
  nonempty (TurnstileResponse f) || nonempty (RecaptchaToken f).

Fixpoint findSubstring_at (i : Z) (s substr : string) : Z :=
  if (String.length substr <=? String.length s)%nat then
    if Strings.HasPrefix s substr then i
    else match s with
         | EmptyString => -1
         | String _ r => findSubstring_at (i + 1) r substr
         end
  else -1.

(** [findSubstring]: the first index [i <= len(s) - len(substr)] at which
    [substr] occurs, or [-1]. *)
Definition findSubstring (s substr : string) : Z := findSubstring_at 0 s substr.

(** An HTML document, as far as the login flow looks into it: the [input]
    elements inside [form#loginform] in document order (name, and the
    [value] attribute when there is one), the text of every [script]
    element, and the verdict of [parse.IsLoggedIn], a function of this
    package that is taken as given. [parses] is false when
    [goquery.NewDocumentFromReader] returns an error. *)
Record Document : Type := {
  parses : bool;
  loginform_inputs : list (string * option string);
  scripts : list string;
  logged_in : bool
}.

Definition IsLoggedIn (body : Document) : bool := logged_in body.

(** [form.Find("input[name='n']").AttrOr("value", "")]: the attribute of
    the first element selected, the default when nothing is selected or
    the attribute is missing. *)
Fixpoint input_value (n : string) (inputs : list (string * option string)) : string :=
  match inputs with
  | [] => EmptyString
  | (n', v) :: rest =>
      if String.eqb n n' then
        match v with Some x => x | None => EmptyString end
      else input_value n rest
  end.

Definition sitekey_marker : string :=
  "sitekey: " ++ String (ascii_of_nat 34) EmptyString.
Definition quote_mark : string := String (ascii_of_nat 34) EmptyString.

Definition string_from (start : Z) (s : string) : string :=
  String.substring (Z.to_nat start) (String.length s - Z.to_nat start) s.

(** One step of the [Each] over the [script] elements; [key] is the site
    key found so far. *)
Definition scan_script (key text : string) : string :=
  if negb (nonempty key) && (0 <? String.length text)%nat then
    let idx := findSubstring text sitekey_marker in
    if 0 <=? idx then
      let start := idx + Z.of_nat (String.length sitekey_marker) in
      let end_ := findSubstring (string_from start text) quote_mark in
      if 0 <? end_ then String.substring (Z.to_nat start) (Z.to_nat end_) text
      else key
    else key
  else key.

Definition ParseLoginFormFromDom (dom : Document) : LoginFormFields :=
  let form := loginform_inputs dom in
  {| VerificationToken := input_value "__RequestVerificationToken" form;
     Salt := input_value "Salt" form;
     SecretNumber := input_value "SecretNumber" form;
     Signature := input_value "Signature" form;
     Challenge := input_value "Challenge" form;
     TurnstileSiteKey := fold_left scan_script (scripts dom) EmptyString;
     RecaptchaSiteKey := EmptyString;
     TurnstileResponse := input_value "cf-turnstile-response" form;
     RecaptchaToken := input_value "RecaptchaToken" form;
     Honeypot := input_value "honeypot" form |}.

(** [ParseLoginForm]: [None] is the error of the HTML parser. *)
Definition ParseLoginForm (body : Document) : option LoginFormFields :=
  if parses body then Some (ParseLoginFormFromDom body) else None.

(** *** courses.go *)

Inductive Error : Type :=
| ErrFailedToParseDOM
| ErrNotLoggedIn
| ErrFailedToParse.

Record Attendance : Type := { ClassesAttended : Z; ClassesHeld : Z }.
Record Marks : Type := { Have : Strconv.float32; Max : Strconv.float32 }.
Record CourseRef : Type := { Name : string; Code : string }.
Record Course : Type := {
  Ref : CourseRef;
  Type_ : string;
  CourseAttendance : Attendance;
  InternalMarks : Marks;
  SyllabusDoc : string
}.

(** The zero values [models.Attendance{}] and [models.Marks{}]. *)
Definition Attendance_zero : Attendance := {| ClassesAttended := 0; ClassesHeld := 0 |}.
Definition Marks_zero : Marks :=
  {| Have := Strconv.float32_zero; Max := Strconv.float32_zero |}.

Definition isNAValue (s : string) : bool :=
  if negb (nonempty s) then true
  else
    let normal := Strings.ToUpper (Strings.TrimSpace s) in
    let normal := Strings.ReplaceAll normal "." "" in
    let normal := Strings.ReplaceAll normal " " "" in
    String.eqb normal "NA" || String.eqb normal "N/A" ||
    String.eqb normal "-" || String.eqb normal "--".

Definition isNonNumericValue (s : string) : bool :=
  let upper := Strings.ToUpper s in
  Strings.Contains upper "NOT PUBLISHED" ||
  Strings.Contains upper "NOT AVAILABLE" ||
  Strings.Contains upper "NOT APPLICABLE" ||
  Strings.Contains upper "VIEW".

(** [\d+(?:\.\d+)?] *)
Definition number : regex :=
  Cat (Plus digit) (Quest (Cat (Lit ".") (Plus digit))).

(** [(\d+)\s*/\s*(\d+)] *)
Definition reAttendance : regex :=
  Cat (Group 1 (Plus digit))
    (Cat (Star space) (Cat (Lit "/") (Cat (Star space) (Group 2 (Plus digit))))).

(** [[\d\.\+]] *)
Definition breakdown_char (c : ascii) : bool :=
  is_digit c || Ascii.eqb c "." || Ascii.eqb c "+".

(** [(\d+(?:\.\d+)?)\[[\d\.\+]+\]/(\d+(?:\.\d+)?)] *)
Definition reNewFormat : regex :=
  Cat (Group 1 number)
    (Cat (Lit "[") (Cat (Plus (Class breakdown_char))
       (Cat (Lit "]") (Cat (Lit "/") (Group 2 number))))).

(** [(\d+(?:\.\d+)?)\s*(?:/|\[)\s*(\d+(?:\.\d+)?)] *)
Definition rePair : regex :=
  Cat (Group 1 number)
    (Cat (Star space) (Cat (Alt (Lit "/") (Lit "["))
       (Cat (Star space) (Group 2 number)))).

(** What the selectors of [Courses] find in one data row: the text of the
    cell with each [data-title] (empty when there is no such cell) and the
    [href] of the syllabus link. *)
Record Row : Type := {
  td_name : string;
  td_code : string;
  td_type : string;
  td_attendance : string;
  td_internals : string;
  syllabus_href : string
}.

(** A courses page, as far as [Courses] and [isCoursesPage] look into it;
    the tables are those of the normalised page. [IsLoggedInDOM] is taken
    as given: its verdict comes with the document. *)
Record CoursesDocument : Type := {
  dom_parses : bool;
  IsLoggedInDOM : bool;
  active_breadcrumb : string;
  code_cells : nat;
  attendance_cells : nat;
  primary_tables : nat;
  primary_rows : list Row;
  secondary_rows : list Row
}.

Definition isCoursesPage (dom : CoursesDocument) : bool :=
  String.eqb (active_breadcrumb dom) "My Courses" ||
  (negb (code_cells dom =? 0)%nat && negb (attendance_cells dom =? 0)%nat).

Section Extract.

(** [CleanString], a helper of this package, is taken as given. *)
Variable CleanString : string -> string.

Definition parseAttendance (raw : string) : Attendance :=
  let cleanRaw := CleanString raw in
  if isNAValue cleanRaw then Attendance_zero
  else
    match FindStringSubmatch reAttendance cleanRaw with
    | _ :: m1 :: m2 :: _ =>
        match Strconv.Atoi m1, Strconv.Atoi m2 with
        | inl attended, inl total =>
            {| ClassesAttended := Strconv.int32 attended;
               ClassesHeld := Strconv.int32 total |}
        | _, _ => Attendance_zero
        end
    | _ => Attendance_zero
    end.

Definition marks_of (have max : string) : Marks :=
  match Strconv.ParseFloat32 have, Strconv.ParseFloat32 max with
  | inl h, inl m => {| Have := h; Max := m |}
  | _, _ => Marks_zero
  end.

Definition parseInternalMarks (raw : string) : Marks :=
  let cleanRaw := CleanString raw in
  if isNAValue cleanRaw || isNonNumericValue cleanRaw then Marks_zero
  else
    match FindStringSubmatch reNewFormat cleanRaw with
    | _ :: have :: max :: _ => marks_of have max
    | _ =>
        match FindStringSubmatch rePair cleanRaw with
        | _ :: have :: max :: _ => marks_of have max
        | _ =>
            let gotStr := FindString number cleanRaw in
            if negb (nonempty gotStr) then Marks_zero
            else
              match Strconv.ParseFloat32 gotStr with
              | inl got => {| Have := got; Max := Strconv.float32_zero |}
              | inr _ => Marks_zero
              end
        end
    end.

Definition parseRow (row : Row) : Course :=
  {| Ref := {| Name := CleanString (td_name row);
               Code := CleanString (td_code row) |};
     Type_ := CleanString (td_type row);
     CourseAttendance := parseAttendance (td_attendance row);
     InternalMarks := parseInternalMarks (td_internals row);
     SyllabusDoc := syllabus_href row |}.

(** [Courses] parses the Amizone courses page. *)
Definition Courses (dom : CoursesDocument) : list Course + Error :=
  if negb (dom_parses dom) then inr ErrFailedToParseDOM
  else if negb (IsLoggedInDOM dom) then inr ErrNotLoggedIn
  else if negb (isCoursesPage dom) then inr ErrFailedToParse
  else if negb (primary_tables dom =? 1)%nat then inr ErrFailedToParse
  else if (List.length (primary_rows dom) =? 0)%nat then inr ErrFailedToParse
  else inl (List.map parseRow (primary_rows dom ++ secondary_rows dom)).

End Extract.

End Parse.

(** ** Package [capsolver]: the wire types *)

Module Capsolver.

Inductive TaskType : Type :=
| TaskTypeTurnstileProxyLess
| TaskTypeTurnstile
| TaskTypeRecaptchaV2ProxyLess
| TaskTypeRecaptchaV2.

Record ProxyInfo : Type := {
  ProxyType : string;
  ProxyAddress : string;
  ProxyLogin : string;
  ProxyPassword : string
}.

(** The two task payloads, [TurnstileTask] and [RecaptchaV2Task]; a
    [TurnstileTask] built by [SolveTurnstile] leaves [Metadata] and [Proxy]
    unset. *)
Record TaskPayload : Type := {
  Type_ : TaskType;
  WebsiteURL : string;
  WebsiteKey : string;
  Proxy : option ProxyInfo
}.

Inductive Task : Type :=
| TurnstileTask (t : TaskPayload)
| RecaptchaV2Task (t : TaskPayload).

Record CreateTaskResponse : Type := {
  create_ErrorID : Z;
  create_ErrorCode : string;
  create_ErrorDescription : string;
  TaskID : string
}.

Record GetTaskResultResponse : Type := {
  ErrorID : Z;
  ErrorCode : string;
  ErrorDescription : string;
  Status : string;
  SolutionToken : string
}.

(** What can come back from [httpClient.Post] and the decoding that
    follows it: a transport error, an unreadable body, a body that is not
    the expected JSON, or a decoded response. *)
Inductive Reply (A : Type) : Type :=
| PostError (msg : string)
| ReadError (msg : string)
| UnmarshalError (msg : string)
| Decoded (r : A).
Arguments PostError {A} msg.
Arguments ReadError {A} msg.
Arguments UnmarshalError {A} msg.
Arguments Decoded {A} r.

(** A [capsolver.Client]; its [httpClient] is the environment. *)
Record Client : Type := {
  apiKey : string;
  proxy : option ProxyInfo
}.

Definition NewClient (key : string) : Client := {| apiKey := key; proxy := None |}.

End Capsolver.

(** ** The world around the program *)

Module Runtime.

Import GoTime.

Inductive Mutex : Type :=
| MuLogin      (* Client.muLogin *)
| CacheMu.     (* SessionCache.mu *)

(** [url.Values] with one value per key, as [Set] leaves it. *)
Abbreviation Values := (gmap string string).

Record Request : Type := {
  Method : string;
  Endpoint : string;           (* relative to BaseURL *)
  Form : option Values      (* the form sent as the body, if any *)
}.

Inductive Event : Type :=
| Lock (m : Mutex)
| Unlock (m : Mutex)
| RLock (m : Mutex)
| RUnlock (m : Mutex)
| PortalDo (req : Request)                  (* httpClient.Do on the portal *)
| Sleep (d : Duration)                      (* time.Sleep *)
| PostCreateTask (key : string) (task : Capsolver.Task)
| PostGetTaskResult (key : string) (taskID : string)
| NewTLSClient.                             (* tlsclient.NewHTTPClient *)

(** The response to a portal request, as far as the client looks at it. *)
Record Response : Type := {
  URLPath : string;            (* response.Request.URL.Path, after redirects *)
  StatusCode : Z;
  Body : Parse.Document;
  BodyReadable : bool          (* io.ReadAll(response.Body) succeeds *)
}.

(** One round trip to the portal: how long it took, what [Do] returned,
    and what [internal.IsLoggedIn] (a function taken as given) says about
    the cookie jar afterwards. *)
Record Exchange : Type := {
  took : N;
  outcome : string + Response;    (* the error of [Do], or the response *)
  cookies : bool
}.

(** The environment answers every question the program asks. A request to
    the portal is identified by the number of requests made before it, any
    other question by the number of events that precede it. *)
Record Env : Type := {
  portal : nat -> Request -> Exchange;
  createTask_reply : nat -> Capsolver.Task -> N * Capsolver.Reply Capsolver.CreateTaskResponse;
  getTaskResult_reply : nat -> string -> N * Capsolver.Reply Capsolver.GetTaskResultResponse;
  (** how many times in a row a [select] with both the ticker and the
      timeout ready takes the ticker before it takes the timeout *)
  ticker_wins : nat -> nat;
  tls_client : nat -> option string;        (* the error of NewHTTPClient *)
  (** [http.NewRequest] accepts this method and URL *)
  request_ok : string -> string -> bool;
  CAPSOLVER_API_KEY : string                (* os.Getenv *)
}.

Record World : Type := {
  now : Time;
  trace : list Event
}.

Definition emit (ev : Event) (w : World) : World :=
  {| now := now w; trace := trace w ++ [ev] |}.

Definition pass (d : Duration) (w : World) : World :=
  {| now := now w + d; trace := trace w |}.

(** The index of the next question. *)
Definition tick (w : World) : nat := List.length (trace w).

(** The portal requests of a trace, in order. *)
Fixpoint requests (t : list Event) : list Request :=
  match t with
  | [] => []
  | PortalDo r :: t' => r :: requests t'
  | _ :: t' => requests t'
  end.

(** Network traffic of any kind. *)
Definition is_network (ev : Event) : bool :=
  match ev with
  | PortalDo _ | PostCreateTask _ _ | PostGetTaskResult _ _ => true
  | _ => false
  end.

End Runtime.

(** ** Package [capsolver]: the client *)

Module CapsolverClient.

Import GoTime Capsolver Runtime.

Definition pollTimeout : Duration := 120 * Second.
Definition pollInterval : Duration := 2 * Second.
Definition backoff : Duration := Second * 2.

Definition capsolver_error (code desc : string) : string :=
  "capsolver error " ++ code ++ ": " ++ desc.

Section WithEnv.

Variable E : Env.

(** [createTask] creates a new task on CapSolver. *)
Definition createTask (c : Client) (task : Task) (w : World) : (string * option string) * World :=
  let '(d, reply) := createTask_reply E (tick w) task in
  let w := pass (Z.of_N d) (emit (PostCreateTask (apiKey c) task) w) in
  match reply with
  | PostError e => (("", Some ("failed to send request: " ++ e)), w)
  | ReadError e => (("", Some ("failed to read response: " ++ e)), w)
  | UnmarshalError e => (("", Some ("failed to unmarshal response: " ++ e)), w)
  | Decoded result =>
      if negb (create_ErrorID result =? 0) then
        (("", Some (capsolver_error (create_ErrorCode result) (create_ErrorDescription result))), w)
      else if String.eqb (TaskID result) "" then
        (("", Some "no task ID returned"), w)
      else ((TaskID result, None), w)
  end.

(** *** The polling loop of [waitForTaskResult]

    The loop is a [select] over two timers made when it starts:
    [time.After(120s)] and a ticker of period 2s. Time is counted from
    that moment ([e] below). Tick number [k] fires at [k * 2s]; the
    ticker's channel holds one tick, and further ticks that fire while
    it is full are dropped, so a tick is waiting exactly when some tick
    fired after the last one was received: [seen] is the number of the
    last tick that had fired by then. The timeout is ready from 120s on.

    A [select] with one ready case takes it; with none it sleeps until
    the first timer fires; with both (or when both fire at the same
    instant) Go chooses at random, and [patience] says how many such
    choices go to the ticker before one goes to the timeout. *)

Inductive Wakeup : Type :=
| TimedOut (e : Duration)
| Ticked (e : Duration) (contested : nat).

Definition select (patience : nat) (e : Duration) (seen : Z) (contested : nat) : Wakeup :=
  let fired := e / pollInterval in
  let contest e' :=
    if (patience <=? contested)%nat then TimedOut e' else Ticked e' (S contested) in
  match seen <? fired, pollTimeout <=? e with
  | true, true => contest e
  | true, false => Ticked e contested
  | false, true => TimedOut e
  | false, false =>
      let next := (fired + 1) * pollInterval in
      match next ?= pollTimeout with
      | Lt => Ticked next contested
      | Gt => TimedOut pollTimeout
      | Eq => contest pollTimeout
      end
  end.

Definition at_time (t : Time) (w : World) : World :=
  {| now := t; trace := trace w |}.

Inductive Verdict : Type :=
| KeepWaiting
| Return (token : string) (err : option string).

(** The body of [case <-ticker.C]. *)
Definition poll (c : Client) (taskID : string) (w : World) : Verdict * World :=
  let '(d, reply) := getTaskResult_reply E (tick w) taskID in
  let w := pass (Z.of_N d) (emit (PostGetTaskResult (apiKey c) taskID) w) in
  match reply with
  | PostError _ | ReadError _ | UnmarshalError _ => (KeepWaiting, w)
  | Decoded result =>
      if negb (ErrorID result =? 0) then
        (Return "" (Some (capsolver_error (ErrorCode result) (ErrorDescription result))), w)
      else if String.eqb (Status result) "ready" then
        if String.eqb (SolutionToken result) "" then
          (Return "" (Some "no token in solution"), w)
        else (Return (SolutionToken result) None, w)
      else (KeepWaiting, w)
  end.

(** What is left of the loop: polls that can still happen before the
    timeout is ready, and contested choices the ticker can still win. *)
Definition polls_left (e : Duration) (seen : Z) : Z :=
  if e <? pollTimeout
  then 2 * (pollTimeout / pollInterval - e / pollInterval)
       + (if seen <? e / pollInterval then 1 else 0)
  else 0.

Definition budget (patience : nat) (e : Duration) (seen : Z) (contested : nat) : nat :=
  (Z.to_nat (polls_left e seen) + (patience - contested))%nat.

Equations? waitLoop (c : Client) (taskID : string) (t0 : Time) (patience : nat)
    (seen : Z) (contested : nat) (w : World) : (string * option string) * World
    by wf (budget patience (now w - t0) seen contested) lt :=
  waitLoop c taskID t0 patience seen contested w
    with Equations.Prop.Logic.inspect (select patience (now w - t0) seen contested) := {
    | exist _ (TimedOut e) _ =>
        (("", Some "timeout waiting for captcha solution"), at_time (t0 + e) w)
    | exist _ (Ticked e contested') Hsel
        with Equations.Prop.Logic.inspect (poll c taskID (at_time (t0 + e) w)) := {
        | exist _ (Return token err, w') _ => ((token, err), w')
        | exist _ (KeepWaiting, w') Hpoll =>
            waitLoop c taskID t0 patience (e / pollInterval) contested' w' } }.
Proof.
  (* a poll does not set the clock back *)
  assert (Hnow : t0 + e <= now w').
  { assert (Hle : forall w0, now w0 <= now (snd (poll c taskID w0))).
    { intros w0. unfold poll.
      destruct (getTaskResult_reply E (tick w0) taskID) as [d reply].
      destruct reply as [| | |r]; simpl; try lia.
      destruct (negb (ErrorID r =? 0)); simpl; [lia|].
      destruct (String.eqb (Status r) "ready"); simpl; [|lia].
      destruct (String.eqb (SolutionToken r) ""); simpl; lia. }
    specialize (Hle (at_time (t0 + e) w)). rewrite Hpoll in Hle. exact Hle. }
  (* and a tick taken uses up the budget *)
  revert Hsel Hnow. generalize (now w - t0) as e0. generalize (now w') as t'.
  intros t' e0 Hsel Hnow.
  assert (Hle : e <= t' - t0) by lia. revert Hsel Hle. generalize (t' - t0) as e''.
  clear. intros e'' Hsel Hle.
  unfold select, budget, polls_left, pollTimeout, pollInterval, Second in *.
  change (120 * 1000000000 / (2 * 1000000000)) with 60.
  change (120 * 1000000000) with 120000000000 in *.
  change (2 * 1000000000) with 2000000000 in *.
  destruct (Z.ltb_spec seen (e0 / 2000000000)) as [Hs|Hs];
    destruct (Z.leb_spec 120000000000 e0) as [Ht|Ht].
  - destruct (Nat.leb_spec patience contested); [discriminate|].
    injection Hsel as <- <-.
    destruct (Z.ltb_spec e0 120000000000); [lia|].
    destruct (Z.ltb_spec e'' 120000000000); lia.
  - injection Hsel as <- <-.
    destruct (Z.ltb_spec e0 120000000000); [|lia].
    destruct (Z.ltb_spec e'' 120000000000); [|Z.to_euclidean_division_equations; lia].
    destruct (Z.ltb_spec (e0 / 2000000000) (e'' / 2000000000));
      Z.to_euclidean_division_equations; lia.
  - discriminate.
  - destruct (Z.compare_spec ((e0 / 2000000000 + 1) * 2000000000) 120000000000) as [Hc|Hc|Hc];
      [|injection Hsel as <- <-|discriminate].
    + destruct (Nat.leb_spec patience contested); [discriminate|].
      injection Hsel as <- <-.
      destruct (Z.ltb_spec e0 120000000000); [|lia].
      destruct (Z.ltb_spec e'' 120000000000); [lia|].
      Z.to_euclidean_division_equations; lia.
    + destruct (Z.ltb_spec e0 120000000000); [|lia].
      destruct (Z.ltb_spec e'' 120000000000); [|Z.to_euclidean_division_equations; lia].
      destruct (Z.ltb_spec ((e0 / 2000000000 + 1) * 2000000000 / 2000000000) (e'' / 2000000000));
        Z.to_euclidean_division_equations; lia.
Qed.

(** [waitForTaskResult] polls CapSolver until the task is complete. *)
Definition waitForTaskResult (c : Client) (taskID : string) (w : World)
    : (string * option string) * World :=
  waitLoop c taskID (now w) (ticker_wins E (tick w)) 0 0 w.

(** The loop shared by [SolveTurnstile] and [SolveRecaptchaV2], which
    differ in the task they build and in the text that wraps an error:
    [for i := 0; i < 3; i++], with [remaining] iterations to go. *)
Fixpoint solveLoop (c : Client) (task : Task) (wrapCreate wrapWait : string)
    (remaining i : nat) (lastErr : option string) (w : World)
    : (string * option string) * World :=
  match remaining with
  | O => (("", lastErr), w)
  | S remaining' =>
      let w := if (0 <? i)%nat then pass backoff (emit (Sleep backoff) w) else w in
      let '((taskID, err), w) := createTask c task w in
      match err with
      | Some e =>
          solveLoop c task wrapCreate wrapWait remaining' (S i) (Some (wrapCreate ++ e)) w
      | None =>
          let '((token, err), w) := waitForTaskResult c taskID w in
          match err with
          | Some e =>
              solveLoop c task wrapCreate wrapWait remaining' (S i) (Some (wrapWait ++ e)) w
          | None => ((token, None), w)
          end
      end
  end.

(** [SolveTurnstile] solves a Cloudflare Turnstile challenge. *)
Definition SolveTurnstile (c : Client) (websiteURL websiteKey : string) (w : World)
    : (string * option string) * World :=
  solveLoop c
    (TurnstileTask {| Type_ := TaskTypeTurnstileProxyLess;
                      WebsiteURL := websiteURL;
                      WebsiteKey := websiteKey;
                      Proxy := None |})
    "failed to create turnstile task: " "failed to get turnstile solution: "
    3 0 None w.

(** [SolveRecaptchaV2] solves a reCAPTCHA v2 challenge. *)
Definition SolveRecaptchaV2 (c : Client) (websiteURL websiteKey : string) (w : World)
    : (string * option string) * World :=
  solveLoop c
    (RecaptchaV2Task {| Type_ := match proxy c with
                                 | Some _ => TaskTypeRecaptchaV2
                                 | None => TaskTypeRecaptchaV2ProxyLess
                                 end;
                        WebsiteURL := websiteURL;
                        WebsiteKey := websiteKey;
                        Proxy := proxy c |})
    "failed to create recaptcha task: " "failed to get recaptcha solution: "
    3 0 None w.

End WithEnv.

End CapsolverClient.

(** ** Package [amizone]: the client and its login state machine *)

Module Amizone.

Import GoTime Runtime.

(** Endpoints *)
Definition loginRequestEndpoint : string := "/".
Definition attendancePageEndpoint : string := "/Home".
Definition examScheduleEndpoint : string := "/Examination/ExamSchedule".
Definition currentCoursesEndpoint : string := "/Academics/MyCourses".
Definition coursesEndpoint : string := currentCoursesEndpoint ++ "/CourseListSemWise".
Definition profileEndpoint : string := "/IDCard".
Definition macBaseEndpoint : string := "/RegisterForWifi/mac".
Definition currentExaminationResultEndpoint : string := "/Examination/Examination".
Definition examinationResultEndpoint : string :=
  currentExaminationResultEndpoint ++ "/ExaminationListSemWise".
Definition getWifiMacsEndpoint : string := macBaseEndpoint ++ "/MacRegistration".
Definition registerWifiMacsEndpoint : string := macBaseEndpoint ++ "/MacRegistrationSave".
Definition facultyBaseEndpoint : string := "/FacultyFeeback/FacultyFeedback".

Definition verificationTokenName : string := "__RequestVerificationToken".

Definition MethodGet : string := "GET".
Definition MethodPost : string := "POST".
Definition StatusOK : Z := 200.

(** Errors *)
Definition ErrBadClient : string := "the http client passed must have a cookie jar, or be nil".
Definition ErrFailedToVisitPage : string := "failed to visit page".
Definition ErrFailedToFetchPage : string := "failed to fetch page".
Definition ErrFailedToReadResponse : string := "failed to read response body".
Definition ErrFailedLogin : string := "failed to login".
Definition ErrInvalidCredentials : string := ErrFailedLogin ++ ": invalid credentials".
Definition ErrInternalFailure : string := "internal failure".
Definition ErrFailedToComposeRequest : string := ErrInternalFailure ++ ": failed to compose request".
Definition ErrFailedToParsePage : string := ErrInternalFailure ++ ": failed to parse page".
Definition ErrInvalidMac : string := "invalid MAC address passed".
Definition ErrNon200StatusCode : string :=
  "received non-200 status code from amizone - is it down?".
Definition ErrLoginThrottled : string := "login throttled".

Record Credentials : Type := { Username : string; Password : string }.

(** [cred == (Credentials{})] *)
Definition is_empty (cred : Credentials) : bool :=
  String.eqb (Username cred) "" && String.eqb (Password cred) "".

(** Modelled from the spec: [internal.IsLoggedIn], which tells whether
    "the transport's cookie jar still presents portal-recognized session
    cookies". A cookie jar is what this function sees of it. *)
Record CookieJar : Type := { session_cookies : bool }.

(** An [*http.Client]: its [Jar], which is [nil] or a cookie jar. *)
Record HTTPClient : Type := { Jar : option CookieJar }.

Definition IsLoggedIn (h : HTTPClient) : bool :=
  match Jar h with
  | Some jar => session_cookies jar
  | None => false
  end.

Record Client : Type := {
  httpClient : HTTPClient;
  credentials : Credentials;
  capsolverClient : option Capsolver.Client;
  (* muLogin *)
  lastAttempt : Time;
  lastLoginSuccess : Time;
  didLogin : bool
}.

Definition set_httpClient (h : HTTPClient) (a : Client) : Client :=
  {| httpClient := h; credentials := credentials a;
     capsolverClient := capsolverClient a; lastAttempt := lastAttempt a;
     lastLoginSuccess := lastLoginSuccess a; didLogin := didLogin a |}.

Definition set_capsolverClient (c : Capsolver.Client) (a : Client) : Client :=
  {| httpClient := httpClient a; credentials := credentials a;
     capsolverClient := Some c; lastAttempt := lastAttempt a;
     lastLoginSuccess := lastLoginSuccess a; didLogin := didLogin a |}.

Definition set_lastAttempt (t : Time) (a : Client) : Client :=
  {| httpClient := httpClient a; credentials := credentials a;
     capsolverClient := capsolverClient a; lastAttempt := t;
     lastLoginSuccess := lastLoginSuccess a; didLogin := didLogin a |}.

Definition set_lastLoginSuccess (t : Time) (a : Client) : Client :=
  {| httpClient := httpClient a; credentials := credentials a;
     capsolverClient := capsolverClient a; lastAttempt := lastAttempt a;
     lastLoginSuccess := t; didLogin := didLogin a |}.

Definition set_didLogin (b : bool) (a : Client) : Client :=
  {| httpClient := httpClient a; credentials := credentials a;
     capsolverClient := capsolverClient a; lastAttempt := lastAttempt a;
     lastLoginSuccess := lastLoginSuccess a; didLogin := b |}.

(** The cookies an exchange leaves in the jar, when there is a jar. *)
Definition store_cookies (x : Exchange) (h : HTTPClient) : HTTPClient :=
  {| Jar := option_map (fun _ => {| session_cookies := cookies x |}) (Jar h) |}.

Definition format_int (n : Z) : string := NilZero.string_of_int (Z.to_int n).

Section WithEnv.

Variable E : Env.

(** [internal.AmizoneDomain], the host name of the portal. *)
Variable AmizoneDomain : string.

Definition BaseURL : string := "https://" ++ AmizoneDomain.

(** [DidLogin] returns true if the client ever successfully logged in. *)
Definition DidLogin (a : Client) (w : World) : bool * World :=
  (didLogin a, emit (Unlock MuLogin) (emit (Lock MuLogin) w)).

(** The part of [doRequest] that composes the request, sends it and
    reads the response. The result is the response, or the error; the
    one place where the code returns both (a body that cannot be read)
    is an error here, as every caller treats it. *)
Definition send (a : Client) (method endpoint : string) (body : option Values)
    (w : World) : (Response + string) * Client * World :=
  if negb (request_ok E method (BaseURL ++ endpoint)) then
    (inr ErrFailedToComposeRequest, a, w)
  else
    let req := {| Method := method; Endpoint := endpoint; Form := body |} in
    let x := portal E (List.length (requests (trace w))) req in
    let w := pass (Z.of_N (took x)) (emit (PortalDo req) w) in
    let a := set_httpClient (store_cookies x (httpClient a)) a in
    match outcome x with
    | inl err => (inr (ErrFailedToVisitPage ++ ": " ++ err), a, w)
    | inr response =>
        if negb (StatusCode response =? StatusOK) then
          (inr (ErrNon200StatusCode ++ ": " ++ format_int (StatusCode response)), a, w)
        else if negb (BodyReadable response) then
          (inr ErrFailedToReadResponse, a, w)
        else (inl response, a, w)
    end.

(** [doRequest(false, method, endpoint, body)], the way [login] calls it. *)
Definition doRequest_noLogin (a : Client) (method endpoint : string)
    (body : option Values) (w : World) : (Response + string) * Client * World :=
  if is_empty (credentials a) then
    (inr (ErrFailedLogin ++ ": invalid credentials"), a, w)
  else send a method endpoint body w.

Definition loginRequestData (a : Client) (loginForm : Parse.LoginFormFields) : Values :=
  let data : Values := ∅ in
  let data := <[verificationTokenName := Parse.VerificationToken loginForm]> data in
  let data := <["_UserName" := Username (credentials a)]> data in
  let data := <["_Password" := Password (credentials a)]> data in
  let data := <["_QString" := ""]> data in
  let data := <["honeypot" := ""]> data in
  let data := if Parse.nonempty (Parse.Salt loginForm)
              then <["Salt" := Parse.Salt loginForm]> data else data in
  let data := if Parse.nonempty (Parse.SecretNumber loginForm)
              then <["SecretNumber" := Parse.SecretNumber loginForm]> data else data in
  let data := if Parse.nonempty (Parse.Signature loginForm)
              then <["Signature" := Parse.Signature loginForm]> data else data in
  if Parse.nonempty (Parse.Challenge loginForm)
  then <["Challenge" := Parse.Challenge loginForm]> data else data.

(** "Solve CAPTCHA if CapSolver is configured": the form with the
    solution merged in, or the error of the solver. *)
Definition solveCaptcha (a : Client) (loginForm : Parse.LoginFormFields)
    (data : Values) (w : World) : (Values + string) * World :=
  match capsolverClient a with
  | Some solver =>
      if Parse.nonempty (Parse.TurnstileSiteKey loginForm) then
        let '((turnstileToken, err), w) :=
          CapsolverClient.SolveTurnstile E solver BaseURL
            (Parse.TurnstileSiteKey loginForm) w in
        match err with
        | Some e =>
            (inr (ErrFailedLogin ++ ": failed to solve Turnstile CAPTCHA: " ++ e), w)
        | None =>
            let data := <["RecaptchaToken" := turnstileToken]> data in
            let data := <["_QString" := "test"]> data in
            let data := <["cf-turnstile-response" := turnstileToken]> data in
            (inl data, w)
        end
      else (inl data, w)
  | None => (inl data, w)
  end.

(** [login], between [a.muLogin.Lock()] and the deferred [Unlock]. *)
Definition login_locked (force : bool) (a : Client) (w : World)
    : option string * Client * World :=
  if negb force && IsLoggedIn (httpClient a)
     && (Since (now w) (lastLoginSuccess a) <? Hour)
  then (None, set_didLogin true a, w)
  else if negb force && (Since (now w) (lastAttempt a) <? Minute * 2)
  then if didLogin a then (None, a, w) else (Some ErrLoginThrottled, a, w)
  else
    let a := set_lastAttempt (now w) a in
    let '(response, a, w) := doRequest_noLogin a MethodGet "/" None w in
    match response with
    | inr err => (Some (ErrFailedLogin ++ ": " ++ err), a, w)
    | inl response =>
        match Parse.ParseLoginForm (Body response) with
        | None => (Some (ErrFailedLogin ++ ": " ++ ErrFailedToParsePage), a, w)
        | Some loginForm =>
            if negb (Parse.nonempty (Parse.VerificationToken loginForm)) then
              (Some (ErrFailedLogin ++ ": " ++ ErrFailedToParsePage), a, w)
            else
              let '(solved, w) := solveCaptcha a loginForm (loginRequestData a loginForm) w in
              match solved with
              | inr err => (Some err, a, w)
              | inl data =>
                  let '(loginResponse, a, w) :=
                    doRequest_noLogin a MethodPost loginRequestEndpoint (Some data) w in
                  match loginResponse with
                  | inr err => (Some (ErrFailedLogin ++ ": " ++ err), a, w)
                  | inl loginResponse =>
                      if String.eqb (URLPath loginResponse) loginRequestEndpoint then
                        (Some ErrInvalidCredentials, a, w)
                      else if negb (Parse.IsLoggedIn (Body loginResponse)) then
                        (Some ErrFailedLogin, a, w)
                      else if negb (IsLoggedIn (httpClient a)) then
                        (Some ErrFailedLogin, a, w)
                      else
                        (None, set_lastLoginSuccess (now w) (set_didLogin true a), w)
                  end
              end
        end
    end.

(** [login] attempts to log in to Amizone. If [force] is false, it will
    attempt to reuse existing sessions if they appear valid and were
    established within the last hour. *)
Definition login (force : bool) (a : Client) (w : World)
    : option string * Client * World :=
  let '(err, a, w) := login_locked force a (emit (Lock MuLogin) w) in
  (err, a, emit (Unlock MuLogin) w).

(** The reader of a request body after the request was sent: empty. *)
Definition drained (body : option Values) : option Values :=
  option_map (fun _ => ∅) body.

(** [doRequest]. Its one recursive call passes [tryLogin = false], for
    which the function is [doRequest_noLogin]; the call reuses the body
    reader that the first request has read to its end. *)
Definition doRequest (tryLogin : bool) (a : Client) (method endpoint : string)
    (body : option Values) (w : World) : (Response + string) * Client * World :=
  if is_empty (credentials a) then
    (inr (ErrFailedLogin ++ ": invalid credentials"), a, w)
  else
    let '(logged, w) := if tryLogin then DidLogin a w else (true, w) in
    let '(err, tryLogin, a, w) :=
      if tryLogin && negb logged then
        let '(err, a, w) := login false a w in (err, false, a, w)
      else (None, tryLogin, a, w) in
    match err with
    | Some e => (inr e, a, w)
    | None =>
        let '(response, a, w) := send a method endpoint body w in
        match response with
        | inr e => (inr e, a, w)
        | inl response =>
            if tryLogin && negb (is_empty (credentials a))
               && negb (Parse.IsLoggedIn (Body response)) then
              let '(err, a, w) := login true a w in
              match err with
              | Some _ => (inr ErrFailedLogin, a, w)
              | None => doRequest_noLogin a method endpoint (drained body) w
              end
            else (inl response, a, w)
        end
    end.

(** *** Constructors *)

Definition newClient (h : HTTPClient) (cred : Credentials) : Client :=
  {| httpClient := h; credentials := cred; capsolverClient := None;
     lastAttempt := GoTime.zero; lastLoginSuccess := GoTime.zero;
     didLogin := false |}.

(** Modelled from the spec: a jar fresh from [cookiejar.New] holds no
    cookies, so it presents no session cookies. *)
Definition fresh_jar : CookieJar := {| session_cookies := false |}.

(** [NewClient]: the client (or [nil]) and the error. *)
Definition NewClient (cred : Credentials) (httpClient : option HTTPClient) (w : World)
    : (option Client * option string) * World :=
  let httpClient :=
    match httpClient with
    | None => {| Jar := Some fresh_jar |}
    | Some h => h
    end in
  match Jar httpClient with
  | None => ((None, Some ErrBadClient), w)
  | Some _ =>
      let client := newClient httpClient cred in
      if is_empty cred then ((Some client, None), w)
      else
        let '(err, client, w) := login false client w in
        ((Some client, err), w)
  end.

Inductive ClientOption : Type :=
| WithTLSClient
| WithCapSolver (apiKey : string).

Definition apply_option (opt : ClientOption) (c : Client) (w : World)
    : option string * Client * World :=
  match opt with
  | WithTLSClient =>
      let failure := tls_client E (tick w) in
      let w := emit NewTLSClient w in
      match failure with
      | Some err => (Some ("failed to create TLS client: " ++ err), c, w)
      | None => (None, set_httpClient {| Jar := Some fresh_jar |} c, w)
      end
  | WithCapSolver apiKey =>
      if String.eqb apiKey "" then (Some "CapSolver API key cannot be empty", c, w)
      else (None, set_capsolverClient (Capsolver.NewClient apiKey) c, w)
  end.

Fixpoint apply_options (opts : list ClientOption) (c : Client) (w : World)
    : option string * Client * World :=
  match opts with
  | [] => (None, c, w)
  | opt :: opts' =>
      let '(err, c, w) := apply_option opt c w in
      match err with
      | Some e => (Some ("failed to apply client option: " ++ e), c, w)
      | None => apply_options opts' c w
      end
  end.

(** [NewClientWithOptions] creates a new client with functional options. *)
Definition NewClientWithOptions (cred : Credentials) (opts : list ClientOption)
    (w : World) : (option Client * option string) * World :=
  let client := newClient {| Jar := Some fresh_jar |} cred in
  let '(err, client, w) := apply_options opts client w in
  match err with
  | Some e => ((None, Some e), w)
  | None =>
      match Jar (httpClient client) with
      | None => ((None, Some ErrBadClient), w)
      | Some _ =>
          if is_empty cred then ((Some client, None), w)
          else
            let '(err, client, w) := login false client w in
            ((Some client, err), w)
      end
  end.

(** *** The operations, up to the page they fetch

    Each of the operations below makes one [doRequest(true, ...)]
    (after validating its arguments, if it has any to validate) and
    returns at once when that fails. It is modelled up to this point:
    its result is the error it returns, or the response that it goes on
    to parse. [RegisterWifiMac], which makes a second request, comes
    after them, in full; [SubmitFacultyFeedbackHack] sends one request
    for every faculty from goroutines of their own and has no place in
    this model of one thread. *)

Definition fetch (a : Client) (method endpoint : string) (body : option Values)
    (wrap : string -> string) (w : World) : (Response + string) * Client * World :=
  let '(response, a, w) := doRequest true a method endpoint body w in
  match response with
  | inr err => (inr (wrap err), a, w)
  | inl response => (inl response, a, w)
  end.

Definition failedToFetch (err : string) : string := ErrFailedToFetchPage ++ ": " ++ err.

Definition sem (semesterRef : string) : Values := {[ "sem" := semesterRef ]}.

Definition GetAttendance (a : Client) :=
  fetch a MethodGet attendancePageEndpoint None failedToFetch.

Definition GetCurrentExaminationResult (a : Client) :=
  fetch a MethodGet currentExaminationResultEndpoint None failedToFetch.

Definition GetExaminationResult (semesterRef : string) (a : Client) :=
  fetch a MethodPost examinationResultEndpoint (Some (sem semesterRef)) failedToFetch.

(** [start] and [end_] are the two dates, formatted. *)
Definition GetClassSchedule (start end_ : string) (a : Client) :=
  fetch a MethodGet
    ("/Calendar/home/GetDiaryEvents?start=" ++ start ++ "&end=" ++ end_)
    None failedToFetch.

Definition GetExamSchedule (a : Client) :=
  fetch a MethodGet examScheduleEndpoint None (fun _ => ErrFailedToVisitPage).

Definition GetSemesters (a : Client) :=
  fetch a MethodGet currentCoursesEndpoint None (fun _ => ErrFailedToVisitPage).

Definition GetCourses (semesterRef : string) (a : Client) :=
  fetch a MethodPost coursesEndpoint (Some (sem semesterRef)) failedToFetch.

Definition GetCurrentCourses (a : Client) :=
  fetch a MethodGet currentCoursesEndpoint None failedToFetch.

Definition GetUserProfile (a : Client) :=
  fetch a MethodGet profileEndpoint None failedToFetch.

Definition GetWiFiMacInformation (a : Client) :=
  fetch a MethodGet getWifiMacsEndpoint None failedToFetch.

(** [valid] is the verdict of [validator.ValidateHardwareAddr]; [mac] is
    the address as [marshaller.Mac] writes it. *)
Definition RemoveWifiMac (valid : bool) (mac : string) (a : Client) (w : World)
    : (Response + string) * Client * World :=
  if negb valid then (inr ErrInvalidMac, a, w)
  else
    fetch a MethodGet
      (macBaseEndpoint ++ "/Mac1RegistrationDelete?Amizone_Id="
         ++ Username (credentials a) ++ "&username=" ++ mac
         ++ "&X-Requested-With=XMLHttpRequest")
      None failedToFetch w.

Inductive Operation : Type :=
| OpGetAttendance
| OpGetCurrentExaminationResult
| OpGetExaminationResult (semesterRef : string)
| OpGetClassSchedule (start end_ : string)
| OpGetExamSchedule
| OpGetSemesters
| OpGetCourses (semesterRef : string)
| OpGetCurrentCourses
| OpGetUserProfile
| OpGetWiFiMacInformation
| OpRemoveWifiMac (valid : bool) (mac : string).

Definition perform (op : Operation) (a : Client) (w : World)
    : (Response + string) * Client * World :=
  match op with
  | OpGetAttendance => GetAttendance a w
  | OpGetCurrentExaminationResult => GetCurrentExaminationResult a w
  | OpGetExaminationResult ref => GetExaminationResult ref a w
  | OpGetClassSchedule start end_ => GetClassSchedule start end_ a w
  | OpGetExamSchedule => GetExamSchedule a w
  | OpGetSemesters => GetSemesters a w
  | OpGetCourses ref => GetCourses ref a w
  | OpGetCurrentCourses => GetCurrentCourses a w
  | OpGetUserProfile => GetUserProfile a w
  | OpGetWiFiMacInformation => GetWiFiMacInformation a w
  | OpRemoveWifiMac valid mac => RemoveWifiMac valid mac a w
  end.

(** The operation gets as far as its [doRequest]. *)
Definition reaches_doRequest (op : Operation) : bool :=
  match op with
  | OpRemoveWifiMac valid _ => valid
  | _ => true
  end.

(** *** [RegisterWifiMac], in full *)

Definition ErrNoMacSlots : string := "no free wifi mac slots".
Definition ErrFailedToRegisterMac : string := "failed to register mac address".

(** What [parse.WifiMacInfo] makes of a page, as far as [RegisterWifiMac]
    looks at it: the registered addresses, each as [marshaller.Mac]
    writes it, and the answers of the methods [IsRegistered],
    [HasFreeSlot] and [GetRequestVerificationToken], which are taken as
    given. *)
Record WifiMacInfo : Type := {
  RegisteredAddresses : list string;
  IsRegistered : string -> bool;
  HasFreeSlot : bool;
  GetRequestVerificationToken : string
}.

(** What a call comes to: it returns an error or [nil], or it panics. *)
Inductive Outcome : Type :=
| Returned (err : option string)
| Panicked.

(** [for i, mac := range wifis { payload.Set(fmt.Sprintf("Mac%d", i+1), mac) }] *)
Fixpoint set_macs (i : Z) (wifis : list string) (payload : Values) : Values :=
  match wifis with
  | [] => payload
  | mac :: rest => set_macs (i + 1) rest (<["Mac" ++ format_int (i + 1) := mac]> payload)
  end.

Definition registerPayload (a : Client) (wifiInfo : WifiMacInfo) (wifis : list string)
    : Values :=
  let payload : Values := ∅ in
  let payload := <[verificationTokenName := GetRequestVerificationToken wifiInfo]> payload in
  let payload := <["Amizone_Id" := Username (credentials a)]> payload in
  let payload := <["Name" := "DoesntMatter"]> payload in
  set_macs 0 wifis payload.

(** [RegisterWifiMac] registers a mac address on Amizone.
    [parse_WifiMacInfo] is [parse.WifiMacInfo], which returns the
    information or an error;
    [valid] is the verdict of [validator.ValidateHardwareAddr] and
    [addr] the address as [marshaller.Mac] writes it. *)
Definition RegisterWifiMac (parse_WifiMacInfo : Parse.Document -> WifiMacInfo + string)
    (valid : bool) (addr : string) (bypassLimit : bool) (a : Client) (w : World)
    : Outcome * Client * World :=
  if negb valid then (Returned (Some ErrInvalidMac), a, w)
  else
    let '(response, a, w) := GetWiFiMacInformation a w in
    match response with
    | inr err => (Returned (Some err), a, w)
    | inl response =>
        match parse_WifiMacInfo (Body response) with
        | inr err => (Returned (Some (ErrInternalFailure ++ ": " ++ err)), a, w)
        | inl wifiInfo =>
            if IsRegistered wifiInfo addr then (Returned None, a, w)
            else if negb (HasFreeSlot wifiInfo) && negb bypassLimit then
              (Returned (Some ErrNoMacSlots), a, w)
            else if negb (HasFreeSlot wifiInfo)
                    && (List.length (RegisteredAddresses wifiInfo) =? 0)%nat then
              (* RegisteredAddresses[:len(RegisteredAddresses)-1] *)
              (Panicked, a, w)
            else
              let registered :=
                if negb (HasFreeSlot wifiInfo)
                then removelast (RegisteredAddresses wifiInfo)
                else RegisteredAddresses wifiInfo in
              let wifis := (registered ++ [addr])%list in
              let payload := registerPayload a wifiInfo wifis in
              let '(res, a, w) :=
                doRequest true a MethodPost registerWifiMacsEndpoint (Some payload) w in
              match res with
              | inr err => (Returned (Some (ErrFailedToFetchPage ++ ": " ++ err)), a, w)
              | inl res =>
                  if bypassLimit then (Returned None, a, w)
                  else
                    match parse_WifiMacInfo (Body res) with
                    | inr _ => (Returned (Some ErrFailedToParsePage), a, w)
                    | inl macs =>
                        if IsRegistered macs addr then (Returned None, a, w)
                        else (Returned (Some ErrFailedToRegisterMac), a, w)
                    end
              end
        end
    end.

End WithEnv.

End Amizone.

(** ** Package [server]: the session cache *)

Module Server.

Import GoTime Runtime.

Record cachedSession : Type := {
  client : Amizone.Client;
  createdAt : Time;
  lastUsed : Time
}.

(** [SessionCache]; [mu] shows as the [CacheMu] events of the trace. *)
Record SessionCache : Type := {
  sessions : gmap string cachedSession;
  ttl : Duration
}.

(** [DefaultSessionTTL] is the default time-to-live for cached sessions. *)
Definition DefaultSessionTTL : Duration := 30 * Minute.

(** [NewSessionCache]; the goroutine it starts runs [cleanup] every five
    minutes. *)
Definition NewSessionCache (ttl : Duration) : SessionCache :=
  {| sessions := ∅; ttl := if ttl <=? 0 then DefaultSessionTTL else ttl |}.

Definition cleanupInterval : Duration := 5 * Minute.

(** [makeKey] creates a cache key from credentials. *)
Definition makeKey (username password : string) : string :=
  username ++ ":" ++ password.

Definition set_sessions (m : gmap string cachedSession) (sc : SessionCache) : SessionCache :=
  {| sessions := m; ttl := ttl sc |}.

Definition touch (t : Time) (s : cachedSession) : cachedSession :=
  {| client := client s; createdAt := createdAt s; lastUsed := t |}.

(** [Delete] removes a session from the cache. *)
Definition Delete (username password : string) (sc : SessionCache) (w : World)
    : SessionCache * World :=
  let key := makeKey username password in
  let w := emit (Lock CacheMu) w in
  let sc := set_sessions (delete key (sessions sc)) sc in
  (sc, emit (Unlock CacheMu) w).

(** [Get] retrieves a cached client for the given credentials. Returns
    [nil] if not found or expired. *)
Definition Get (username password : string) (sc : SessionCache) (w : World)
    : option Amizone.Client * SessionCache * World :=
  let key := makeKey username password in
  let w := emit (RUnlock CacheMu) (emit (RLock CacheMu) w) in
  match sessions sc !! key with
  | None => (None, sc, w)
  | Some session =>
      if ttl sc <? Since (now w) (createdAt session) then
        let '(sc, w) := Delete username password sc w in (None, sc, w)
      else
        let w := emit (Lock CacheMu) w in
        let sc := set_sessions (<[key := touch (now w) session]> (sessions sc)) sc in
        (Some (client session), sc, emit (Unlock CacheMu) w)
  end.

(** [Set] stores a client in the cache. *)
Definition Set_ (username password : string) (c : Amizone.Client)
    (sc : SessionCache) (w : World) : SessionCache * World :=
  let key := makeKey username password in
  let t := now w in
  let w := emit (Lock CacheMu) w in
  let sc := set_sessions
              (<[key := {| client := c; createdAt := t; lastUsed := t |}]> (sessions sc)) sc in
  (sc, emit (Unlock CacheMu) w).

(** The keys [cleanup] collects in [expired]. *)
Definition expired (t : Time) (sc : SessionCache) : list string :=
  (List.filter (fun kv => ttl sc <? Sub t (createdAt (snd kv)))
     (map_to_list (sessions sc))).*1.

(** [cleanup] removes all expired sessions. *)
Definition cleanup (sc : SessionCache) (w : World) : SessionCache * World :=
  let w := emit (Lock CacheMu) w in
  let t := now w in
  let sc := set_sessions (foldr delete (sessions sc) (expired t sc)) sc in
  (sc, emit (Unlock CacheMu) w).

(** [Stats] returns cache statistics. *)
Definition Stats (sc : SessionCache) (w : World) : (nat * nat) * World :=
  let w := emit (RLock CacheMu) w in
  let t := now w in
  let total := List.length (map_to_list (sessions sc)) in
  let active :=
    List.length (List.filter (fun kv => Sub t (createdAt (snd kv)) <=? ttl sc)
                   (map_to_list (sessions sc))) in
  ((total, active), emit (RUnlock CacheMu) w).

Section WithEnv.

Variable E : Env.
Variable AmizoneDomain : string.

(** [GetOrCreate] returns a cached client or creates a new one. *)
Definition GetOrCreate (username password : string) (sc : SessionCache) (w : World)
    : (option Amizone.Client * option string) * SessionCache * World :=
  let key := makeKey username password in
  let w := emit (RUnlock CacheMu) (emit (RLock CacheMu) w) in
  let hit :=
    match sessions sc !! key with
    | Some session =>
        if Since (now w) (createdAt session) <=? ttl sc then Some session else None
    | None => None
    end in
  match hit with
  | Some session =>
      let w := emit (Lock CacheMu) w in
      let sc := set_sessions (<[key := touch (now w) session]> (sessions sc)) sc in
      ((Some (client session), None), sc, emit (Unlock CacheMu) w)
  | None =>
      let w := emit (Lock CacheMu) w in
      let again :=
        match sessions sc !! key with
        | Some session =>
            if Since (now w) (createdAt session) <=? ttl sc then Some session else None
        | None => None
        end in
      match again with
      | Some session => ((Some (client session), None), sc, emit (Unlock CacheMu) w)
      | None =>
          let opts :=
            Amizone.WithTLSClient ::
            (if String.eqb (CAPSOLVER_API_KEY E) "" then []
             else [Amizone.WithCapSolver (CAPSOLVER_API_KEY E)]) in
          let '((c, err), w) :=
            Amizone.NewClientWithOptions E AmizoneDomain
              {| Amizone.Username := username; Amizone.Password := password |} opts w in
          match err, c with
          | None, Some c =>
              let t := now w in
              let sc := set_sessions
                          (<[key := {| client := c; createdAt := t; lastUsed := t |}]>
                             (sessions sc)) sc in
              ((Some c, None), sc, emit (Unlock CacheMu) w)
          | _, _ => ((None, err), sc, emit (Unlock CacheMu) w)
          end
      end
  end.

End WithEnv.

End Server.

(** * The attendance screenshot endpoint *)

Module Screenshot.

Import GoTime.

Definition attendanceScreenshotCooldown : Duration := 10 * Minute.

(** [attendanceScreenshotLimiter]; [mu] serialises [Reserve] and the
    functions it returns, each of which is a step on this state. *)
Record attendanceScreenshotLimiter : Type := {
  cooldown : Duration;
  lastByUser : gmap string Time
}.

Definition NewAttendanceScreenshotLimiter (cooldown : Duration)
    : attendanceScreenshotLimiter :=
  {| cooldown := if cooldown <=? 0 then attendanceScreenshotCooldown else cooldown;
     lastByUser := ∅ |}.

Definition globalAttendanceScreenshotLimiter : attendanceScreenshotLimiter :=
  NewAttendanceScreenshotLimiter attendanceScreenshotCooldown.

(** [t.Add(d)] and [t.Before(u)] *)
Definition Add (t : Time) (d : Duration) : Time := t + d.
Definition Before (t u : Time) : bool := t <? u.

Definition set_lastByUser (m : gmap string Time) (l : attendanceScreenshotLimiter)
    : attendanceScreenshotLimiter :=
  {| cooldown := cooldown l; lastByUser := m |}.

(** The function that [Reserve] returns: the [user] it has captured and
    its variable [alreadyReleased]. *)
Record Release : Type := {
  user : string;
  alreadyReleased : bool
}.

(** [Reserve]: the release function when the reservation is granted
    ([release, 0, true]), the time to wait when it is not
    ([nil, retryAfter, false]). *)
Definition Reserve (user : string) (now : Time) (l : attendanceScreenshotLimiter)
    : (Release + Duration) * attendanceScreenshotLimiter :=
  let granted :=
    (inl {| user := user; alreadyReleased := false |},
     set_lastByUser (<[user := now]> (lastByUser l)) l) in
  match lastByUser l !! user with
  | Some last =>
      let nextAllowed := Add last (cooldown l) in
      if Before now nextAllowed then (inr (Sub nextAllowed now), l) else granted
  | None => granted
  end.

(** A call [release(success)] of the function that [Reserve] returned. *)
Definition call (release : Release) (success : bool) (l : attendanceScreenshotLimiter)
    : Release * attendanceScreenshotLimiter :=
  if alreadyReleased release then (release, l)
  else
    ({| user := user release; alreadyReleased := true |},
     if negb success then set_lastByUser (delete (user release) (lastByUser l)) l else l).

(** What the browser-login service does with the request of
    [fetchAttendanceScreenshot]: no response at all (the request could
    not be built or sent), or a response with a status and a body, which
    is [None] when it cannot be read. *)
Inductive BrowserLogin : Type :=
| NoResponse
| Responded (status : Z) (body : option string).

Inductive FetchError : Type :=
| errBrowserLoginUnauthorized
| OtherError.

Definition StatusOK : Z := 200.
Definition StatusUnauthorized : Z := 401.
Definition StatusMethodNotAllowed : Z := 405.
Definition StatusTooManyRequests : Z := 429.
Definition StatusBadGateway : Z := 502.

Definition fetchAttendanceScreenshot (service : BrowserLogin) : string + FetchError :=
  match service with
  | NoResponse => inr OtherError
  | Responded status body =>
      if status =? StatusUnauthorized then inr errBrowserLoginUnauthorized
      else if negb (status =? StatusOK) then inr OtherError
      else
        match body with
        | None => inr OtherError
        | Some png => if (String.length png =? 0)%nat then inr OtherError else inl png
        end
  end.

(** A request to the endpoint, with what the handler asks of the
    outside while it serves it: the method, [request.BasicAuth()] (the
    pair, when [ok]), [time.Now()] and the browser-login service. *)
Record Incoming : Type := {
  Method : string;
  BasicAuth : option (string * string);
  Now : Time;
  Service : BrowserLogin
}.

(** [handleAttendanceScreenshot], up to the status code of the response
    that it writes. [defer release(success)] evaluates its argument
    when the [defer] statement runs, where [success] is [false]. *)
Definition handleAttendanceScreenshot (request : Incoming)
    (l : attendanceScreenshotLimiter) : Z * attendanceScreenshotLimiter :=
  if negb (String.eqb (Method request) "GET") then (StatusMethodNotAllowed, l)
  else
    match BasicAuth request with
    | None => (StatusUnauthorized, l)
    | Some (username, password) =>
        if String.eqb username "" || String.eqb password "" then (StatusUnauthorized, l)
        else
          match Reserve username (Now request) l with
          | (inr _, l) => (StatusTooManyRequests, l)
          | (inl release, l) =>
              let success := false in
              let deferred := success in
              let status :=
                match fetchAttendanceScreenshot (Service request) with
                | inr errBrowserLoginUnauthorized => StatusUnauthorized
                | inr OtherError => StatusBadGateway
                | inl _ => StatusOK
                end in
              (status, (call release deferred l).2)
          end
    end.

End Screenshot.

(** * TLS client profiles *)

Module TLSClient.

(** [profiles.ClientProfile]: the profiles the package names, and any
    other profile of the library. *)
Inductive ClientProfile : Type :=
| Chrome_144
| Chrome_146
| Chrome_133
| Chrome_131
| Firefox_147
| Firefox_135
| Firefox_133
| OtherProfile (name : string).

Definition ProfileRotationMode := Z.
Definition ProfileRotationOff : ProfileRotationMode := 0.
Definition ProfileRotationRandom : ProfileRotationMode := 1.
Definition ProfileRotationSequential : ProfileRotationMode := 2.

Definition DefaultProfiles : list ClientProfile :=
  [Chrome_144; Chrome_146; Chrome_133; Chrome_131; Firefox_147; Firefox_135; Firefox_133].

(** [profileList[i]]; [None] is the panic for an index out of range. *)
Definition index (profileList : list ClientProfile) (i : Z) : option ClientProfile :=
  if i <? 0 then None else nth_error profileList (Z.to_nat i).

(** [i++] on an [int] of 64 bits. *)
Definition increment (i : Z) : Z := (i + 1 + 2 ^ 63) mod 2 ^ 64 - 2 ^ 63.

(** [selectProfile], as a step on [currentProfileIndex]. [intn] is what
    [rand.Intn] returns for the length it is given. *)
Definition selectProfile (mode : ProfileRotationMode) (CustomProfiles : list ClientProfile)
    (intn : Z -> Z) (currentProfileIndex : Z) : option ClientProfile * Z :=
  let profileList :=
    if (List.length CustomProfiles =? 0)%nat then DefaultProfiles else CustomProfiles in
  if mode =? ProfileRotationOff then (index profileList 0, currentProfileIndex)
  else if mode =? ProfileRotationRandom then
    (index profileList (intn (Z.of_nat (List.length profileList))), currentProfileIndex)
  else if mode =? ProfileRotationSequential then
    match index profileList
            (Z.rem currentProfileIndex (Z.of_nat (List.length profileList))) with
    | Some profile => (Some profile, increment currentProfileIndex)
    | None => (None, currentProfileIndex)
    end
  else (index profileList 0, currentProfileIndex).

End TLSClient.

(** * Properties *)

Import GoTime Runtime.

(** ** Extraction of internal marks *)

Section MarksProperties.

Import Parse.

(** The four texts of the internal-marks cell and the marks they stand
    for; [20.40] and the like are Go constants of type [float32]. *)
Definition marks_examples : list (string * Marks) :=
  [ ("20.40[20.40+0.00]/40.00",
     {| Have := Strconv.float32_const 2040 100; Max := Strconv.float32_const 4000 100 |});
    ("50[49+1.00]/49",
     {| Have := Strconv.float32_const 50 1; Max := Strconv.float32_const 49 1 |});
    ("NA", Marks_zero);
    ("Not Published", Marks_zero) ].

(** The document-level checks of [Courses] pass. *)
Definition courses_page_ok (dom : CoursesDocument) : Prop :=
  dom_parses dom = true /\ IsLoggedInDOM dom = true /\ isCoursesPage dom = true /\
  primary_tables dom = 1%nat /\ primary_rows dom <> [].

Lemma Courses_ok CleanString dom :
  courses_page_ok dom ->
  Courses CleanString dom
  = inl (List.map (parseRow CleanString) (primary_rows dom ++ secondary_rows dom)).
Proof.
  intros (Hp & Hl & Hc & Ht & Hr). unfold Courses.
  rewrite Hp, Hl, Hc, Ht. simpl.
  destruct (primary_rows dom); [congruence | reflexivity].
Qed.

Lemma marks_examples_parse CleanString text expected :
  In (text, expected) marks_examples ->
  CleanString text = text ->
  parseInternalMarks CleanString text = expected.
Proof.
  unfold marks_examples. simpl.
  intros [H|[H|[H|[H|[]]]]] Hclean; injection H as <- <-;
    unfold parseInternalMarks; rewrite Hclean; vm_compute; reflexivity.
Qed.

(** The float32 nearest to 20.40 is 10695475 / 2^19 (0x41A33333). *)
Example float32_20_40 : Strconv.float32_const 2040 100 = (10695475 # 524288)%Q.
Proof. vm_compute. reflexivity. Qed.

(** C5. On a page that passes the document-level checks of [Courses], a
    row whose internal-marks cell reads "20.40[20.40+0.00]/40.00" yields
    Marks{Have: 20.40, Max: 40.00}, "50[49+1.00]/49" yields
    Marks{Have: 50, Max: 49}, and "NA" and "Not Published" yield the zero
    Marks; in each case [Courses] returns the courses without an error.
    [CleanString] is any function that leaves the text as it is. *)
Theorem C5_internal_marks_formats
    (CleanString : string -> string) (dom : CoursesDocument)
    (i : nat) (row : Row) (text : string) (expected : Marks) :
  In (text, expected) marks_examples ->
  CleanString text = text ->
  courses_page_ok dom ->
  (primary_rows dom ++ secondary_rows dom)%list !! i = Some row ->
  td_internals row = text ->
  exists courses course,
    Courses CleanString dom = inl courses /\
    List.length courses = List.length (primary_rows dom ++ secondary_rows dom)%list /\
    courses !! i = Some course /\
    InternalMarks course = expected.
Proof.
  intros Hin Hclean Hok Hrow Htext.
  exists (List.map (parseRow CleanString) (primary_rows dom ++ secondary_rows dom)).
  exists (parseRow CleanString row).
  split; [apply Courses_ok; assumption|].
  split; [apply length_map|].
  split.
  - change (List.map (parseRow CleanString)) with (fmap (M:=list) (parseRow CleanString)).
    rewrite list_lookup_fmap, Hrow. reflexivity.
  - simpl. rewrite Htext. apply marks_examples_parse; assumption.
Qed.

(** The page of the repository's own test: one table with one row. *)
Definition test_row (marks : string) : Row :=
  {| td_name := "Test Course"; td_code := "TEST101"; td_type := "Compulsory";
     td_attendance := "10/10"; td_internals := marks; syllabus_href := "" |}.

Definition test_page (marks : string) : CoursesDocument :=
  {| dom_parses := true; IsLoggedInDOM := true; active_breadcrumb := "";
     code_cells := 1; attendance_cells := 1; primary_tables := 1;
     primary_rows := [test_row marks]; secondary_rows := [] |}.

Lemma C5_internal_marks_formats_witness :
  exists courses course,
    Courses Strings.TrimSpace (test_page "50[49+1.00]/49") = inl courses /\
    List.length courses = 1%nat /\
    courses !! 0%nat = Some course /\
    InternalMarks course = {| Have := 50 # 1; Max := 49 # 1 |}.
Proof.
  apply (C5_internal_marks_formats Strings.TrimSpace (test_page "50[49+1.00]/49")
           0 (test_row "50[49+1.00]/49") "50[49+1.00]/49"
           {| Have := Strconv.float32_const 50 1; Max := Strconv.float32_const 49 1 |}).
  - simpl. right. left. reflexivity.
  - vm_compute. reflexivity.
  - unfold courses_page_ok. simpl. repeat split; try reflexivity. discriminate.
  - reflexivity.
  - reflexivity.
Defined.

End MarksProperties.

(** ** The session cache: keys and expiry *)

Section CacheProperties.

Import Server.

Lemma Sub_exact (t u : Time) :
  minDuration <= t - u <= maxDuration -> Sub t u = t - u.
Proof.
  intros H. unfold Sub.
  destruct (Z.ltb_spec (t - u) minDuration); [lia|].
  destruct (Z.ltb_spec maxDuration (t - u)); [lia|reflexivity].
Qed.

Lemma expired_spec (t : Time) (sc : SessionCache) (k : string) :
  k ∈ expired t sc <->
  exists s, sessions sc !! k = Some s /\ ttl sc < Sub t (createdAt s).
Proof.
  unfold expired. rewrite list_elem_of_fmap. split.
  - intros ([k' s] & -> & Hin). apply list_elem_of_In, filter_In in Hin.
    destruct Hin as [Hin Hage]. apply list_elem_of_In, elem_of_map_to_list in Hin.
    exists s. simpl in *. split; [assumption | lia].
  - intros (s & Hk & Hage). exists (k, s). split; [reflexivity|].
    apply list_elem_of_In, filter_In. split.
    + apply list_elem_of_In, elem_of_map_to_list. assumption.
    + simpl. lia.
Qed.

(** What [cleanup] leaves under each key. *)
Lemma cleanup_lookup (sc : SessionCache) (w : World) (k : string) :
  sessions (cleanup sc w).1 !! k
  = match sessions sc !! k with
    | Some s => if ttl sc <? Sub (now w) (createdAt s) then None else Some s
    | None => None
    end.
Proof.
  unfold cleanup. simpl.
  destruct (decide (k ∈ expired (now w) sc)) as [Hin|Hout].
  - rewrite lookup_foldr_delete by assumption.
    apply expired_spec in Hin. destruct Hin as (s & -> & Hage).
    destruct (Z.ltb_spec (ttl sc) (Sub (now w) (createdAt s))); [reflexivity | lia].
  - rewrite lookup_foldr_delete_not_elem_of by assumption.
    destruct (sessions sc !! k) as [s|] eqn:Hk; [|reflexivity].
    destruct (Z.ltb_spec (ttl sc) (Sub (now w) (createdAt s))); [|reflexivity].
    exfalso. apply Hout, expired_spec. exists s. split; assumption.
Qed.

(** C4. For an entry cached under the key of the credentials, with a TTL
    that is an int64: [Get] returns nil and removes the entry when its age
    exceeds the TTL; it returns the cached client when the age is within
    the TTL, in particular one second before the TTL elapses; and
    [cleanup] removes exactly the entries whose age exceeds the TTL. *)
Theorem C4_get_respects_ttl
    (username password : string) (sc : SessionCache) (w : World) (s : cachedSession) :
  minDuration <= ttl sc <= maxDuration ->
  sessions sc !! makeKey username password = Some s ->
  (ttl sc < Since (now w) (createdAt s) ->
     (Get username password sc w).1.1 = None /\
     sessions (Get username password sc w).1.2
     = delete (makeKey username password) (sessions sc)) /\
  (Since (now w) (createdAt s) <= ttl sc ->
     (Get username password sc w).1.1 = Some (client s)) /\
  (now w = createdAt s + ttl sc - Second ->
     (Get username password sc w).1.1 = Some (client s)) /\
  (forall k : string,
     sessions (cleanup sc w).1 !! k
     = match sessions sc !! k with
       | Some s' => if ttl sc <? Sub (now w) (createdAt s') then None else Some s'
       | None => None
       end).
Proof.
  intros Hrange Hk.
  assert (Hold : ttl sc < Since (now w) (createdAt s) ->
            (Get username password sc w).1.1 = None /\
            sessions (Get username password sc w).1.2
            = delete (makeKey username password) (sessions sc)).
  { intros Hage. unfold Get. rewrite Hk. simpl.
    destruct (Z.ltb_spec (ttl sc) (Since (now w) (createdAt s))); [|lia].
    simpl. split; reflexivity. }
  assert (Hfresh : Since (now w) (createdAt s) <= ttl sc ->
            (Get username password sc w).1.1 = Some (client s)).
  { intros Hage. unfold Get. rewrite Hk. simpl.
    destruct (Z.ltb_spec (ttl sc) (Since (now w) (createdAt s))); [lia|].
    reflexivity. }
  split; [exact Hold|]. split; [exact Hfresh|]. split.
  - intros Hnow. apply Hfresh. unfold Since, Sub. rewrite Hnow.
    unfold minDuration, maxDuration, Second in *.
    destruct (Z.ltb_spec (createdAt s + ttl sc - 1000000000 - createdAt s) (- 2 ^ 63)); [lia|].
    destruct (Z.ltb_spec (2 ^ 63 - 1) (createdAt s + ttl sc - 1000000000 - createdAt s)); lia.
  - intros k. apply cleanup_lookup.
Qed.

Definition nobody : Amizone.Client :=
  Amizone.newClient {| Amizone.Jar := Some Amizone.fresh_jar |}
    {| Amizone.Username := "u"; Amizone.Password := "p" |}.

(** A cache with the default TTL holding one session, made at time 1000. *)
Definition one_session : SessionCache :=
  set_sessions
    {[ makeKey "u" "p" := {| client := nobody; createdAt := 1000; lastUsed := 1000 |} ]}
    (NewSessionCache 0).

Definition at_ (t : Time) : World := {| now := t; trace := [] |}.

Lemma C4_get_respects_ttl_witness :
  (Get "u" "p" one_session (at_ (1000 + 30 * Minute - Second))).1.1 = Some nobody /\
  (Get "u" "p" one_session (at_ (1000 + 30 * Minute + 1))).1.1 = None.
Proof.
  assert (Hrange : minDuration <= ttl one_session <= maxDuration) by (vm_compute; split; discriminate).
  assert (Hk : sessions one_session !! makeKey "u" "p"
               = Some {| client := nobody; createdAt := 1000; lastUsed := 1000 |})
    by (apply lookup_singleton_eq).
  split.
  - apply (C4_get_respects_ttl "u" "p" one_session (at_ (1000 + 30 * Minute - Second)) _ Hrange Hk).
    reflexivity.
  - apply (C4_get_respects_ttl "u" "p" one_session (at_ (1000 + 30 * Minute + 1)) _ Hrange Hk).
    vm_compute. reflexivity.
Defined.

(** [makeKey] is a function of the pair, and distinct pairs get distinct
    keys as long as no user name contains the separator. *)
Fixpoint no_colon (s : string) : bool :=
  match s with
  | EmptyString => true
  | String c r => negb (Ascii.eqb c ":") && no_colon r
  end.

Lemma makeKey_inj_no_colon (u1 p1 u2 p2 : string) :
  no_colon u1 = true -> no_colon u2 = true ->
  makeKey u1 p1 = makeKey u2 p2 -> u1 = u2 /\ p1 = p2.
Proof.
  unfold makeKey. revert u2. induction u1 as [|c u1 IH]; intros [|c' u2]; simpl.
  - intros _ _ H. injection H as H. auto.
  - intros _ H2 H. injection H as Hc _. subst c'. simpl in H2. discriminate.
  - intros H1 _ H. injection H as Hc _. subst c. simpl in H1. discriminate.
  - intros H1 H2 H. injection H as Hc H. subst c'.
    apply andb_prop in H1, H2. destruct H1 as [_ H1], H2 as [_ H2].
    destruct (IH _ H1 H2 H) as [-> ->]. auto.
Qed.

(** C7. The key is not injective: the distinct pairs ("a:b", "c") and
    ("a", "b:c") get the same key, so that a session cached for one of
    them is what [Get] returns for the other. *)
Theorem C7_makeKey_collision (c : Amizone.Client) (w : World) :
  ("a:b", "c") <> ("a", "b:c") /\
  makeKey "a:b" "c" = makeKey "a" "b:c" /\
  (Get "a:b" "c" (Set_ "a" "b:c" c (NewSessionCache 0) w).1
     (Set_ "a" "b:c" c (NewSessionCache 0) w).2).1.1 = Some c.
Proof.
  split; [discriminate|]. split; [reflexivity|].
  unfold Get, Set_. simpl.
  change (makeKey "a:b" "c") with (makeKey "a" "b:c").
  rewrite lookup_insert_eq. simpl.
  unfold Since. rewrite Sub_exact by (unfold minDuration, maxDuration; lia).
  replace (now w - now w) with 0 by lia. reflexivity.
Qed.

End CacheProperties.

(** ** The challenge solver: polling, timeout and retries *)

Section SolverProperties.

Import Capsolver CapsolverClient.

Variable E : Env.

(** The events a call added to the trace. *)
Definition events_since (w w' : World) : list Event :=
  drop (List.length (trace w)) (trace w').

Lemma events_since_app (w w' : World) (evs : list Event) :
  trace w' = (trace w ++ evs)%list -> events_since w w' = evs.
Proof. intros H. unfold events_since. rewrite H. apply drop_app_length. Qed.

Definition timeout_error : string := "timeout waiting for captcha solution".
Definition no_token_error : string := "no token in solution".

(** The service says the task is still being processed. *)
Definition still_processing (reply : N * Reply GetTaskResultResponse) : Prop :=
  exists d r, reply = (d, Decoded r) /\ ErrorID r = 0 /\ Status r = "processing".

(** The service says the task is ready, and sends no token. *)
Definition ready_without_token (reply : N * Reply GetTaskResultResponse) : Prop :=
  exists d r, reply = (d, Decoded r) /\ ErrorID r = 0 /\ Status r = "ready" /\
              SolutionToken r = "".

(** The service accepts the task and names it. *)
Definition task_created (reply : N * Reply CreateTaskResponse) : Prop :=
  exists d r, reply = (d, Decoded r) /\ create_ErrorID r = 0 /\ TaskID r <> "".

Lemma select_TimedOut patience e seen contested e' :
  select patience e seen contested = TimedOut e' -> pollTimeout <= e'.
Proof.
  unfold select, pollTimeout, pollInterval, Second.
  change (120 * 1000000000) with 120000000000.
  change (2 * 1000000000) with 2000000000.
  destruct (Z.ltb_spec seen (e / 2000000000));
    destruct (Z.leb_spec 120000000000 e);
    try destruct (Nat.leb_spec patience contested);
    try destruct (Z.compare_spec ((e / 2000000000 + 1) * 2000000000) 120000000000);
    intros Hsel; try discriminate Hsel; injection Hsel as <-; lia.
Qed.

Lemma select_start patience :
  select patience 0 0 0 = Ticked pollInterval 0.
Proof. reflexivity. Qed.

Lemma poll_trace c taskID w :
  trace (poll E c taskID w).2 = (trace w ++ [PostGetTaskResult (apiKey c) taskID])%list.
Proof.
  unfold poll. destruct (getTaskResult_reply E (tick w) taskID) as [d [?|?|?|r]];
    try reflexivity.
  destruct (negb (ErrorID r =? 0)); [reflexivity|].
  destruct (String.eqb (Status r) "ready"); [|reflexivity].
  destruct (String.eqb (SolutionToken r) ""); reflexivity.
Qed.

Lemma poll_processing c taskID w :
  still_processing (getTaskResult_reply E (tick w) taskID) ->
  (poll E c taskID w).1 = KeepWaiting.
Proof.
  intros (d & r & Hr & Hid & Hst). unfold poll. rewrite Hr, Hid, Hst. reflexivity.
Qed.

Lemma poll_ready_without_token c taskID w :
  ready_without_token (getTaskResult_reply E (tick w) taskID) ->
  (poll E c taskID w).1 = Return "" (Some no_token_error).
Proof.
  intros (d & r & Hr & Hid & Hst & Htok). unfold poll.
  rewrite Hr, Hid, Hst, Htok. reflexivity.
Qed.

(** A task that is never ready ends in the timeout, 120 seconds after the
    timers were made or later. *)
Lemma waitLoop_never_ready c taskID :
  (forall i, still_processing (getTaskResult_reply E i taskID)) ->
  forall t0 patience seen contested w,
    (waitLoop E c taskID t0 patience seen contested w).1 = ("", Some timeout_error) /\
    t0 + pollTimeout <= now (waitLoop E c taskID t0 patience seen contested w).2.
Proof.
  intros Hproc t0 patience seen contested w.
  funelim (waitLoop E c taskID t0 patience seen contested w).
  - simpl. split; [reflexivity|].
    match goal with
    | H : select _ _ _ _ = TimedOut _ |- _ => pose proof (select_TimedOut _ _ _ _ _ H)
    end.
    lia.
  - match goal with IH : forall _ : _, _ |- _ => apply IH; assumption end.
  - exfalso.
    match goal with
    | H : poll E c taskID ?w0 = (Return _ _, _) |- _ =>
        pose proof (poll_processing c taskID w0 (Hproc _)) as Hk; rewrite H in Hk
    end.
    discriminate Hk.
Qed.

Lemma waitLoop_trace c taskID t0 patience seen contested w :
  exists evs,
    trace (waitLoop E c taskID t0 patience seen contested w).2 = (trace w ++ evs)%list /\
    Forall (fun ev => ev = PostGetTaskResult (apiKey c) taskID) evs.
Proof.
  funelim (waitLoop E c taskID t0 patience seen contested w).
  - exists []. simpl. rewrite app_nil_r. split; [reflexivity | constructor].
  - match goal with IH : ex _ |- _ => destruct IH as (evs & Ht & Hall) end.
    match goal with
    | H : poll E c taskID ?w0 = (KeepWaiting, ?w1) |- _ =>
        pose proof (poll_trace c taskID w0) as Hp; rewrite H in Hp; simpl in Hp
    end.
    exists (PostGetTaskResult (apiKey c) taskID :: evs).
    rewrite Ht, Hp, <- app_assoc. split; [reflexivity|].
    constructor; [reflexivity | assumption].
  - match goal with
    | H : poll E c taskID ?w0 = (Return _ _, ?w1) |- _ =>
        pose proof (poll_trace c taskID w0) as Hp; rewrite H in Hp; simpl in Hp
    end.
    exists [PostGetTaskResult (apiKey c) taskID]. simpl. split; [assumption|].
    constructor; [reflexivity | constructor].
Qed.

(** When the first reply is "ready" without a token, the attempt ends
    there. *)
Lemma waitForTaskResult_ready_without_token c taskID w :
  (forall i, ready_without_token (getTaskResult_reply E i taskID)) ->
  (waitForTaskResult E c taskID w).1 = ("", Some no_token_error).
Proof.
  intros Hready. unfold waitForTaskResult.
  remember (now w) as t0 eqn:Ht0.
  remember (ticker_wins E (tick w)) as patience eqn:Hp.
  remember 0 as seen eqn:Hseen.
  remember 0%nat as contested eqn:Hcontested.
  funelim (waitLoop E c taskID t0 patience seen contested w).
  - exfalso.
    match goal with
    | H : select _ _ _ _ = TimedOut _ |- _ => pose proof H as Hsel
    end.
    rewrite Z.sub_diag, select_start in Hsel. discriminate Hsel.
  - exfalso.
    match goal with
    | H : poll E c taskID ?w0 = (KeepWaiting, _) |- _ =>
        pose proof (poll_ready_without_token c taskID w0 (Hready _)) as Hk; rewrite H in Hk
    end.
    discriminate Hk.
  - match goal with
    | H : poll E c taskID ?w0 = (Return _ _, _) |- _ =>
        pose proof (poll_ready_without_token c taskID w0 (Hready _)) as Hk; rewrite H in Hk
    end.
    simpl in Hk. injection Hk as -> ->. reflexivity.
Qed.

(** *** The retry loop *)

(** One pass through the body of the loop, after the back-off: the token,
    or the error that becomes [lastErr]. *)
Definition attempt (c : Client) (task : Task) (wrapCreate wrapWait : string) (w : World)
    : (string + string) * World :=
  let '((taskID, err), w) := createTask E c task w in
  match err with
  | Some e => (inr (wrapCreate ++ e), w)
  | None =>
      let '((token, err), w) := waitForTaskResult E c taskID w in
      match err with
      | Some e => (inr (wrapWait ++ e), w)
      | None => (inl token, w)
      end
  end.

(** [time.Sleep(time.Second * 2)] *)
Definition sleep_backoff (w : World) : World := pass backoff (emit (Sleep backoff) w).

Lemma solveLoop_step c task wc ww remaining i lastErr w :
  solveLoop E c task wc ww (S remaining) i lastErr w
  = let w0 := if (0 <? i)%nat then sleep_backoff w else w in
    match attempt c task wc ww w0 with
    | (inl token, w1) => ((token, None), w1)
    | (inr e, w1) => solveLoop E c task wc ww remaining (S i) (Some e) w1
    end.
Proof.
  simpl. unfold attempt, sleep_backoff.
  destruct (createTask E c task _) as [[taskID [e|]] w1]; [reflexivity|].
  destruct (waitForTaskResult E c taskID w1) as [[token [e|]] w2]; reflexivity.
Qed.

Lemma solveLoop_unroll c task wc ww w :
  solveLoop E c task wc ww 3 0 None w
  = match attempt c task wc ww w with
    | (inl token, w1) => ((token, None), w1)
    | (inr _, w1) =>
        match attempt c task wc ww (sleep_backoff w1) with
        | (inl token, w2) => ((token, None), w2)
        | (inr _, w2) =>
            match attempt c task wc ww (sleep_backoff w2) with
            | (inl token, w3) => ((token, None), w3)
            | (inr e, w3) => (("", Some e), w3)
            end
        end
    end.
Proof.
  rewrite solveLoop_step. cbn [Nat.ltb Nat.leb]. cbv zeta.
  destruct (attempt c task wc ww w) as [[token|e1] w1]; [reflexivity|].
  rewrite solveLoop_step. cbn [Nat.ltb Nat.leb]. cbv zeta.
  destruct (attempt c task wc ww (sleep_backoff w1)) as [[token|e2] w2]; [reflexivity|].
  rewrite solveLoop_step. cbn [Nat.ltb Nat.leb]. cbv zeta.
  destruct (attempt c task wc ww (sleep_backoff w2)) as [[token|e3] w3]; reflexivity.
Qed.

(** The events that mark the attempts: the back-off and the creation of a
    task. *)
Definition is_marker (ev : Event) : bool :=
  match ev with
  | Sleep _ | PostCreateTask _ _ => true
  | _ => false
  end.

Definition markers (evs : list Event) : list Event := List.filter is_marker evs.

Lemma markers_polls c taskID evs :
  Forall (fun ev => ev = PostGetTaskResult (apiKey c) taskID) evs -> markers evs = [].
Proof.
  induction 1 as [|ev evs Hev _ IH]; [reflexivity|]. subst ev. simpl. exact IH.
Qed.

Lemma createTask_trace c task w :
  trace (createTask E c task w).2 = (trace w ++ [PostCreateTask (apiKey c) task])%list.
Proof.
  unfold createTask. destruct (createTask_reply E (tick w) task) as [d [?|?|?|r]];
    try reflexivity.
  destruct (negb (create_ErrorID r =? 0)); [reflexivity|].
  destruct (String.eqb (TaskID r) ""); reflexivity.
Qed.

(** What the solver does to the world: it sleeps and talks to the solving
    service. *)
Definition solver_event (ev : Event) : bool :=
  match ev with
  | Sleep _ | PostCreateTask _ _ | PostGetTaskResult _ _ => true
  | _ => false
  end.

Lemma solver_event_polls c taskID evs :
  Forall (fun ev => ev = PostGetTaskResult (apiKey c) taskID) evs ->
  forallb solver_event evs = true.
Proof.
  induction 1 as [|ev evs Hev _ IH]; [reflexivity|]. subst ev. simpl. exact IH.
Qed.

Lemma attempt_trace c task wc ww w :
  exists evs,
    trace (attempt c task wc ww w).2 = (trace w ++ evs)%list /\
    markers evs = [PostCreateTask (apiKey c) task] /\
    forallb solver_event evs = true.
Proof.
  unfold attempt. pose proof (createTask_trace c task w) as Hc.
  destruct (createTask E c task w) as [[taskID [e|]] w1]; simpl in Hc.
  - exists [PostCreateTask (apiKey c) task]. repeat split; [assumption].
  - unfold waitForTaskResult.
    destruct (waitLoop_trace c taskID (now w1) (ticker_wins E (tick w1)) 0 0 w1)
      as (evs & Ht & Hall).
    exists (PostCreateTask (apiKey c) task :: evs).
    destruct (waitLoop E c taskID (now w1) (ticker_wins E (tick w1)) 0 0 w1)
      as [[token [e|]] w2]; simpl in Ht |- *;
      (split; [rewrite Ht, Hc, <- app_assoc; reflexivity|]);
      (split; [unfold markers in *; simpl; f_equal; apply (markers_polls c taskID); assumption
              | apply (solver_event_polls c taskID); assumption]).
Qed.

Lemma sleep_backoff_trace w :
  trace (sleep_backoff w) = (trace w ++ [Sleep backoff])%list.
Proof. reflexivity. Qed.

Lemma markers_app (l1 l2 : list Event) :
  markers (l1 ++ l2) = (markers l1 ++ markers l2)%list.
Proof. apply List.filter_app. Qed.

(** The two solvers. *)
Inductive Challenge : Type := Turnstile | RecaptchaV2.

Definition Solve (k : Challenge) (c : Client) (websiteURL websiteKey : string) (w : World)
    : (string * option string) * World :=
  match k with
  | Turnstile => SolveTurnstile E c websiteURL websiteKey w
  | RecaptchaV2 => SolveRecaptchaV2 E c websiteURL websiteKey w
  end.

Definition task_of (k : Challenge) (c : Client) (websiteURL websiteKey : string) : Task :=
  match k with
  | Turnstile =>
      TurnstileTask {| Type_ := TaskTypeTurnstileProxyLess; WebsiteURL := websiteURL;
                       WebsiteKey := websiteKey; Proxy := None |}
  | RecaptchaV2 =>
      RecaptchaV2Task {| Type_ := match proxy c with
                                  | Some _ => TaskTypeRecaptchaV2
                                  | None => TaskTypeRecaptchaV2ProxyLess
                                  end;
                         WebsiteURL := websiteURL; WebsiteKey := websiteKey;
                         Proxy := proxy c |}
  end.

Definition create_failed (k : Challenge) : string :=
  match k with
  | Turnstile => "failed to create turnstile task: "
  | RecaptchaV2 => "failed to create recaptcha task: "
  end.

Definition solution_failed (k : Challenge) : string :=
  match k with
  | Turnstile => "failed to get turnstile solution: "
  | RecaptchaV2 => "failed to get recaptcha solution: "
  end.

(** One attempt of the solver [k]. *)
Definition attempt_of (k : Challenge) (c : Client) (websiteURL websiteKey : string) :=
  attempt c (task_of k c websiteURL websiteKey) (create_failed k) (solution_failed k).

Lemma Solve_unroll k c url key w :
  Solve k c url key w
  = match attempt_of k c url key w with
    | (inl token, w1) => ((token, None), w1)
    | (inr _, w1) =>
        match attempt_of k c url key (sleep_backoff w1) with
        | (inl token, w2) => ((token, None), w2)
        | (inr _, w2) =>
            match attempt_of k c url key (sleep_backoff w2) with
            | (inl token, w3) => ((token, None), w3)
            | (inr e, w3) => (("", Some e), w3)
            end
        end
    end.
Proof. destruct k; apply solveLoop_unroll. Qed.

(** The trace of a call to a solver: one to three attempts, each after
    the first behind a back-off of two seconds, and all three when the
    call fails. *)
Lemma Solve_markers k c url key w :
  let C := PostCreateTask (apiKey c) (task_of k c url key) in
  let S := Sleep (2 * Second) in
  exists evs,
    trace (Solve k c url key w).2 = (trace w ++ evs)%list /\
    In (markers evs) [[C]; [C; S; C]; [C; S; C; S; C]] /\
    ((Solve k c url key w).1.2 <> None -> markers evs = [C; S; C; S; C]) /\
    forallb solver_event evs = true.
Proof.
  intros C S. rewrite Solve_unroll. unfold attempt_of.
  set (task := task_of k c url key). fold C.
  destruct (attempt_trace c task (create_failed k) (solution_failed k) w)
    as (ev1 & Ht1 & Hm1 & Hs1).
  destruct (attempt c task (create_failed k) (solution_failed k) w) as [[token|e1] w1];
    simpl in Ht1.
  { exists ev1. simpl. rewrite Hm1. split; [assumption|]. split; [left; reflexivity|].
    split; [intros H; congruence | assumption]. }
  destruct (attempt_trace c task (create_failed k) (solution_failed k) (sleep_backoff w1))
    as (ev2 & Ht2 & Hm2 & Hs2).
  rewrite sleep_backoff_trace, Ht1 in Ht2.
  destruct (attempt c task (create_failed k) (solution_failed k) (sleep_backoff w1))
    as [[token|e2] w2]; simpl in Ht2.
  { exists (ev1 ++ [Sleep backoff] ++ ev2)%list. simpl.
    rewrite Ht2, <- !app_assoc. split; [reflexivity|].
    rewrite markers_app, Hm1. simpl. fold (markers ev2). rewrite Hm2.
    split; [right; left; reflexivity|]. split; [intros H; congruence|].
    rewrite forallb_app, Hs1. simpl. exact Hs2. }
  destruct (attempt_trace c task (create_failed k) (solution_failed k) (sleep_backoff w2))
    as (ev3 & Ht3 & Hm3 & Hs3).
  rewrite sleep_backoff_trace, Ht2 in Ht3.
  exists (ev1 ++ [Sleep backoff] ++ ev2 ++ [Sleep backoff] ++ ev3)%list.
  assert (Hm : markers (ev1 ++ [Sleep backoff] ++ ev2 ++ [Sleep backoff] ++ ev3)
               = [C; S; C; S; C]).
  { rewrite markers_app, Hm1. simpl. fold (markers (ev2 ++ Sleep backoff :: ev3)).
    rewrite markers_app, Hm2. simpl. fold (markers ev3). rewrite Hm3. reflexivity. }
  assert (Hs : forallb solver_event (ev1 ++ [Sleep backoff] ++ ev2 ++ [Sleep backoff] ++ ev3)
               = true).
  { rewrite forallb_app, Hs1. simpl. rewrite forallb_app, Hs2. simpl. exact Hs3. }
  destruct (attempt c task (create_failed k) (solution_failed k) (sleep_backoff w2))
    as [[token|e3] w3]; simpl in Ht3;
    (split; [simpl; rewrite Ht3, <- !app_assoc; reflexivity|]);
    (split; [rewrite Hm; right; right; left; reflexivity|]);
    (split; [intros _; exact Hm | exact Hs]).
Qed.

(** C6. For both solvers, in every environment:
    (1) a task that the service reports as "processing" at every poll
        ends the attempt with the timeout error, 120 seconds after
        polling began or later;
    (2) a task reported "ready" without a token ends the attempt with an
        error, and when every attempt ends so the solver gives up after
        the third (it creates three tasks);
    (3) a call makes one, two or three attempts, with a sleep of two
        seconds before the second and before the third, and all three
        when it fails;
    (4) when three attempts in a row fail, the call returns the error of
        the third. *)
Theorem C6_solver_retry_budget
    (k : Challenge) (c : Client) (websiteURL websiteKey : string) (w : World) :
  let C := PostCreateTask (apiKey c) (task_of k c websiteURL websiteKey) in
  let S := Sleep (2 * Second) in
  let result := Solve k c websiteURL websiteKey w in
  (forall taskID w0,
     (forall i, still_processing (getTaskResult_reply E i taskID)) ->
     (waitForTaskResult E c taskID w0).1 = ("", Some timeout_error) /\
     now w0 + 120 * Second <= now (waitForTaskResult E c taskID w0).2) /\
  (forall taskID w0,
     (forall i, ready_without_token (getTaskResult_reply E i taskID)) ->
     (waitForTaskResult E c taskID w0).1 = ("", Some no_token_error)) /\
  ((forall i task, task_created (createTask_reply E i task)) ->
   (forall i taskID, ready_without_token (getTaskResult_reply E i taskID)) ->
   result.1 = ("", Some (solution_failed k ++ no_token_error)) /\
   markers (events_since w result.2) = [C; S; C; S; C]) /\
  In (markers (events_since w result.2)) [[C]; [C; S; C]; [C; S; C; S; C]] /\
  (result.1.2 <> None -> markers (events_since w result.2) = [C; S; C; S; C]) /\
  (forall e1 e2 e3 w1 w2 w3,
     attempt_of k c websiteURL websiteKey w = (inr e1, w1) ->
     attempt_of k c websiteURL websiteKey (sleep_backoff w1) = (inr e2, w2) ->
     attempt_of k c websiteURL websiteKey (sleep_backoff w2) = (inr e3, w3) ->
     result = (("", Some e3), w3)).
Proof.
  intros C S result.
  destruct (Solve_markers k c websiteURL websiteKey w) as (evs & Ht & Hin & Hfail & _).
  fold C S result in Ht, Hin, Hfail.
  rewrite (events_since_app _ _ _ Ht).
  assert (Hlast : forall e1 e2 e3 w1 w2 w3,
     attempt_of k c websiteURL websiteKey w = (inr e1, w1) ->
     attempt_of k c websiteURL websiteKey (sleep_backoff w1) = (inr e2, w2) ->
     attempt_of k c websiteURL websiteKey (sleep_backoff w2) = (inr e3, w3) ->
     result = (("", Some e3), w3)).
  { intros e1 e2 e3 w1 w2 w3 H1 H2 H3. unfold result.
    rewrite Solve_unroll, H1, H2, H3. reflexivity. }
  split; [|split; [|split; [|split; [|split]]]].
  - intros taskID w0 Hproc. apply (waitLoop_never_ready c taskID Hproc).
  - intros taskID w0 Hready. apply waitForTaskResult_ready_without_token. assumption.
  - intros Hcreate Hready.
    assert (Hattempt : forall w0, exists w1,
              attempt_of k c websiteURL websiteKey w0
              = (inr (solution_failed k ++ no_token_error), w1)).
    { intros w0. unfold attempt_of, attempt.
      destruct (Hcreate (tick w0) (task_of k c websiteURL websiteKey))
        as (d & r & Hr & Hid & Hname).
      unfold createTask. rewrite Hr, Hid. simpl.
      destruct (String.eqb_spec (TaskID r) "") as [Heq|_]; [contradiction|].
      pose proof (waitForTaskResult_ready_without_token c (TaskID r)
                    (pass (Z.of_N d)
                       (emit (PostCreateTask (apiKey c) (task_of k c websiteURL websiteKey)) w0))
                    (fun i => Hready i (TaskID r))) as Hw.
      destruct (waitForTaskResult E c (TaskID r) _) as [[token err] w1].
      simpl in Hw. injection Hw as -> ->. exists w1. reflexivity. }
    destruct (Hattempt w) as (w1 & H1).
    destruct (Hattempt (sleep_backoff w1)) as (w2 & H2).
    destruct (Hattempt (sleep_backoff w2)) as (w3 & H3).
    pose proof (Hlast _ _ _ _ _ _ H1 H2 H3) as Hres.
    split; [rewrite Hres; reflexivity|].
    apply Hfail. rewrite Hres. discriminate.
  - exact Hin.
  - exact Hfail.
  - exact Hlast.
Qed.

End SolverProperties.

(** ** The login state machine *)

Section LoginProperties.

Import Amizone.

Variable E : Env.
Variable AmizoneDomain : string.

Lemma requests_app (l1 l2 : list Event) :
  requests (l1 ++ l2) = (requests l1 ++ requests l2)%list.
Proof.
  induction l1 as [|ev l1 IH]; [reflexivity|].
  destruct ev; simpl; rewrite ?IH; reflexivity.
Qed.

Lemma requests_solver (evs : list Event) :
  forallb solver_event evs = true -> requests evs = [].
Proof.
  induction evs as [|ev evs IH]; [reflexivity|]. simpl.
  intros H. apply andb_prop in H. destruct H as [Hev Hevs].
  destruct ev; try discriminate Hev; apply IH, Hevs.
Qed.

Lemma solveCaptcha_trace a loginForm data w :
  exists evs,
    trace (solveCaptcha E AmizoneDomain a loginForm data w).2 = (trace w ++ evs)%list /\
    forallb solver_event evs = true.
Proof.
  unfold solveCaptcha.
  destruct (capsolverClient a) as [solver|];
    [|exists []; rewrite app_nil_r; split; reflexivity].
  destruct (Parse.nonempty (Parse.TurnstileSiteKey loginForm));
    [|exists []; rewrite app_nil_r; split; reflexivity].
  destruct (Solve_markers E Turnstile solver (BaseURL AmizoneDomain)
              (Parse.TurnstileSiteKey loginForm) w) as (evs & Ht & _ & _ & Hs).
  simpl in Ht. exists evs.
  destruct (CapsolverClient.SolveTurnstile E solver (BaseURL AmizoneDomain)
              (Parse.TurnstileSiteKey loginForm) w) as [[token [e|]] w1];
    simpl in *; split; assumption.
Qed.

(** *** The paths through [login] *)

(** The answer of the portal to a request made in the world [w]. *)
Definition exchange (req : Request) (w : World) : Exchange :=
  portal E (List.length (requests (trace w))) req.

(** The response of an exchange, when [doRequest] hands it on: the
    transport succeeded, the status is 200 and the body can be read. *)
Definition usable (x : Exchange) : option Response :=
  match outcome x with
  | inl _ => None
  | inr r => if (StatusCode r =? StatusOK) && BodyReadable r then Some r else None
  end.

(** The client and the world after a request was sent. *)
Definition client_after (req : Request) (a : Client) (w : World) : Client :=
  set_httpClient (store_cookies (exchange req w) (httpClient a)) a.

Definition world_after (req : Request) (w : World) : World :=
  pass (Z.of_N (took (exchange req w))) (emit (PortalDo req) w).

Definition sendable (a : Client) (req : Request) : bool :=
  negb (is_empty (credentials a)) &&
  request_ok E (Method req) (BaseURL AmizoneDomain ++ Endpoint req).

Inductive Sent (a : Client) (req : Request) (w : World)
    : (Response + string) * Client * World -> Prop :=
| NotSent e :
    sendable a req = false ->
    Sent a req w (inr e, a, w)
| SentInVain e :
    sendable a req = true ->
    usable (exchange req w) = None ->
    Sent a req w (inr e, client_after req a w, world_after req w)
| SentAndAnswered r :
    sendable a req = true ->
    usable (exchange req w) = Some r ->
    Sent a req w (inl r, client_after req a w, world_after req w).

Lemma doRequest_noLogin_Sent a method endpoint body w :
  Sent a {| Method := method; Endpoint := endpoint; Form := body |} w
    (doRequest_noLogin E AmizoneDomain a method endpoint body w).
Proof.
  unfold doRequest_noLogin, send.
  set (req := {| Method := method; Endpoint := endpoint; Form := body |}).
  destruct (is_empty (credentials a)) eqn:Hcred;
    [constructor; unfold sendable; rewrite Hcred; reflexivity|].
  destruct (request_ok E method (BaseURL AmizoneDomain ++ endpoint)) eqn:Hok;
    [|constructor; unfold sendable; simpl; rewrite Hok; apply andb_false_r].
  assert (Hsend : sendable a req = true)
    by (unfold sendable; simpl; rewrite Hcred, Hok; reflexivity).
  simpl. fold (exchange req w). fold (client_after req a w). fold (world_after req w).
  destruct (outcome (exchange req w)) as [e|r] eqn:Hout.
  - apply SentInVain; [assumption|]. unfold usable. rewrite Hout. reflexivity.
  - destruct (StatusCode r =? StatusOK) eqn:Hstatus; simpl.
    + destruct (BodyReadable r) eqn:Hread; simpl.
      * apply SentAndAnswered; [assumption|].
        unfold usable. rewrite Hout, Hstatus, Hread. reflexivity.
      * apply SentInVain; [assumption|].
        unfold usable. rewrite Hout, Hstatus, Hread. reflexivity.
    + apply SentInVain; [assumption|]. unfold usable. rewrite Hout, Hstatus. reflexivity.
Qed.

Definition getLoginPage : Request :=
  {| Method := MethodGet; Endpoint := "/"; Form := None |}.

Definition postLoginForm (data : Values) : Request :=
  {| Method := MethodPost; Endpoint := loginRequestEndpoint; Form := Some data |}.

Definition malformed_login_page : string := ErrFailedLogin ++ ": " ++ ErrFailedToParsePage.

(** The login form of a page, when [login] accepts it. *)
Definition accepted_form (page : Response) : option Parse.LoginFormFields :=
  match Parse.ParseLoginForm (Body page) with
  | Some f => if Parse.nonempty (Parse.VerificationToken f) then Some f else None
  | None => None
  end.

Definition can_reuse (force : bool) (a : Client) (w : World) : bool :=
  negb force && IsLoggedIn (httpClient a) && (Since (now w) (lastLoginSuccess a) <? Hour).

Definition too_soon (force : bool) (a : Client) (w : World) : bool :=
  negb force && (Since (now w) (lastAttempt a) <? Minute * 2).

(** Every way through [login_locked], with the result it ends in. *)
Inductive Path (force : bool) (a : Client) (w : World)
    : option string * Client * World -> Prop :=
| Reuse :
    can_reuse force a w = true ->
    Path force a w (None, set_didLogin true a, w)
| Skip :
    can_reuse force a w = false -> too_soon force a w = true ->
    Path force a w (if didLogin a then None else Some ErrLoginThrottled, a, w)
| FetchNotSent e :
    can_reuse force a w = false -> too_soon force a w = false ->
    sendable a getLoginPage = false ->
    Path force a w (Some e, set_lastAttempt (now w) a, w)
| FetchInVain e :
    can_reuse force a w = false -> too_soon force a w = false ->
    sendable a getLoginPage = true ->
    usable (exchange getLoginPage w) = None ->
    Path force a w (Some e, client_after getLoginPage (set_lastAttempt (now w) a) w,
                    world_after getLoginPage w)
| Malformed page :
    can_reuse force a w = false -> too_soon force a w = false ->
    sendable a getLoginPage = true ->
    usable (exchange getLoginPage w) = Some page ->
    accepted_form page = None ->
    Path force a w (Some malformed_login_page,
                    client_after getLoginPage (set_lastAttempt (now w) a) w,
                    world_after getLoginPage w)
| Unsolved page f e w2 :
    can_reuse force a w = false -> too_soon force a w = false ->
    sendable a getLoginPage = true ->
    usable (exchange getLoginPage w) = Some page ->
    accepted_form page = Some f ->
    let a1 := client_after getLoginPage (set_lastAttempt (now w) a) w in
    solveCaptcha E AmizoneDomain a1 f (loginRequestData a1 f) (world_after getLoginPage w)
    = (inr e, w2) ->
    Path force a w (Some e, a1, w2)
| Submitted page f data w2 res a3 w3 :
    can_reuse force a w = false -> too_soon force a w = false ->
    sendable a getLoginPage = true ->
    usable (exchange getLoginPage w) = Some page ->
    accepted_form page = Some f ->
    let a1 := client_after getLoginPage (set_lastAttempt (now w) a) w in
    solveCaptcha E AmizoneDomain a1 f (loginRequestData a1 f) (world_after getLoginPage w)
    = (inl data, w2) ->
    Sent a1 (postLoginForm data) w2 (res, a3, w3) ->
    Path force a w
      (match res with
       | inr e => (Some (ErrFailedLogin ++ ": " ++ e), a3, w3)
       | inl r =>
           if String.eqb (URLPath r) loginRequestEndpoint then
             (Some ErrInvalidCredentials, a3, w3)
           else if Parse.IsLoggedIn (Body r) && IsLoggedIn (httpClient a3) then
             (None, set_lastLoginSuccess (now w3) (set_didLogin true a3), w3)
           else (Some ErrFailedLogin, a3, w3)
       end).

Lemma login_locked_Path force a w :
  Path force a w (login_locked E AmizoneDomain force a w).
Proof.
  unfold login_locked.
  fold (can_reuse force a w). fold (too_soon force a w).
  destruct (can_reuse force a w) eqn:Hreuse; [apply Reuse; assumption|].
  destruct (too_soon force a w) eqn:Hsoon.
  { pose proof (Skip force a w Hreuse Hsoon) as H.
    destruct (didLogin a); exact H. }
  set (a0 := set_lastAttempt (now w) a).
  pose proof (doRequest_noLogin_Sent a0 MethodGet "/" None w) as Hget.
  fold getLoginPage in Hget.
  destruct (doRequest_noLogin E AmizoneDomain a0 MethodGet "/" None w) as [[res a1] w1].
  inversion Hget as [e Hs|e Hs Hx|page Hs Hx]; subst.
  - apply FetchNotSent; assumption.
  - apply FetchInVain; assumption.
  - destruct (accepted_form page) as [f|] eqn:Hform.
    + assert (Hparse : Parse.ParseLoginForm (Body page) = Some f /\
                       Parse.nonempty (Parse.VerificationToken f) = true).
      { unfold accepted_form in Hform.
        destruct (Parse.ParseLoginForm (Body page)) as [f'|]; [|discriminate].
        destruct (Parse.nonempty (Parse.VerificationToken f')) eqn:Htok; [|discriminate].
        injection Hform as ->. split; [reflexivity | assumption]. }
      destruct Hparse as [Hparse Htok]. rewrite Hparse, Htok. simpl.
      destruct (solveCaptcha E AmizoneDomain (client_after getLoginPage a0 w) f
                  (loginRequestData (client_after getLoginPage a0 w) f)
                  (world_after getLoginPage w)) as [[data|e] w2] eqn:Hsolve.
      * pose proof (doRequest_noLogin_Sent (client_after getLoginPage a0 w)
                      MethodPost loginRequestEndpoint (Some data) w2) as Hpost.
        fold (postLoginForm data) in Hpost.
        destruct (doRequest_noLogin E AmizoneDomain (client_after getLoginPage a0 w)
                    MethodPost loginRequestEndpoint (Some data) w2) as [[res a3] w3].
        pose proof (Submitted force a w page f data w2 res a3 w3
                      Hreuse Hsoon Hs Hx Hform Hsolve Hpost) as H.
        destruct res as [r|e]; [|exact H].
        destruct (String.eqb (URLPath r) loginRequestEndpoint); [exact H|].
        destruct (Parse.IsLoggedIn (Body r)); simpl in *; [|exact H].
        destruct (IsLoggedIn (httpClient a3)); exact H.
      * exact (Unsolved force a w page f e w2 Hreuse Hsoon Hs Hx Hform Hsolve).
    + pose proof (Malformed force a w page Hreuse Hsoon Hs Hx Hform) as H.
      unfold accepted_form in Hform.
      destruct (Parse.ParseLoginForm (Body page)) as [f'|]; [|exact H].
      destruct (Parse.nonempty (Parse.VerificationToken f')); [discriminate|exact H].
Qed.

Lemma requests_world_after req w :
  requests (trace (world_after req w)) = (requests (trace w) ++ [req])%list.
Proof. unfold world_after. simpl. rewrite requests_app. reflexivity. Qed.

Lemma requests_emit_lock m w :
  requests (trace (emit (Lock m) w)) = requests (trace w).
Proof. simpl. rewrite requests_app. simpl. apply app_nil_r. Qed.

Lemma requests_emit_unlock m w :
  requests (trace (emit (Unlock m) w)) = requests (trace w).
Proof. simpl. rewrite requests_app. simpl. apply app_nil_r. Qed.

Lemma requests_solveCaptcha a f data w :
  requests (trace (solveCaptcha E AmizoneDomain a f data w).2) = requests (trace w).
Proof.
  destruct (solveCaptcha_trace a f data w) as (evs & Ht & Hs).
  rewrite Ht, requests_app, (requests_solver _ Hs). apply app_nil_r.
Qed.

(** Case analysis on the path that a call to [login] takes; [w0] is the
    world once the mutex is held. *)
Ltac login_paths force a w :=
  unfold login;
  generalize (login_locked_Path force a (emit (Lock MuLogin) w));
  generalize (login_locked E AmizoneDomain force a (emit (Lock MuLogin) w));
  let res := fresh "res" in
  let Hpath := fresh "Hpath" in
  intros res Hpath; destruct Hpath.

(** C3. When [login(false)] cannot reuse the session and the last attempt
    was less than two minutes ago, it returns without touching the
    network or the client: with the error "login throttled" if no login
    has succeeded so far, and without an error if one has. *)
Theorem C3_login_throttle (a : Client) (w : World) :
  IsLoggedIn (httpClient a) = false \/ Hour <= Since (now w) (lastLoginSuccess a) ->
  Since (now w) (lastAttempt a) < 2 * Minute ->
  let result := login E AmizoneDomain false a w in
  result.1.2 = a /\
  events_since w result.2 = [Lock MuLogin; Unlock MuLogin] /\
  requests (trace result.2) = requests (trace w) /\
  now result.2 = now w /\
  (didLogin a = false -> result.1.1 = Some ErrLoginThrottled) /\
  (didLogin a = true -> result.1.1 = None).
Proof.
  intros Hfast Hsoon result. subst result. unfold login, login_locked. simpl.
  assert (Hreuse : IsLoggedIn (httpClient a) && (Since (now w) (lastLoginSuccess a) <? Hour)
                   = false).
  { destruct Hfast as [-> | Hold]; [reflexivity|].
    destruct (Z.ltb_spec (Since (now w) (lastLoginSuccess a)) Hour); [lia|].
    apply andb_false_r. }
  rewrite Hreuse.
  destruct (Z.ltb_spec (Since (now w) (lastAttempt a)) (Minute * 2)); [|lia].
  assert (Hevs : forall w', trace w' = ((trace w ++ [Lock MuLogin]) ++ [Unlock MuLogin])%list ->
                   events_since w w' = [Lock MuLogin; Unlock MuLogin]).
  { intros w' Hw'. apply events_since_app. rewrite Hw', <- app_assoc. reflexivity. }
  destruct (didLogin a); simpl;
    (split; [reflexivity|]);
    (split; [apply Hevs; reflexivity|]);
    (split; [rewrite !requests_app; simpl; rewrite !app_nil_r; reflexivity|]);
    (split; [reflexivity|]); split; intros; congruence.
Qed.

(** C8. A call to [login] that returns an error leaves the authenticated
    flag and the time of the last successful login as they were (and so
    the credentials and the solver; the time of the last attempt and the
    cookie jar may change). A call that returns no error leaves the flag
    set, and when it went to the portal the time of the last successful
    login is the time of its return. *)
Theorem C8_login_frame (force : bool) (a : Client) (w : World) :
  let result := login E AmizoneDomain force a w in
  let err := result.1.1 in
  let a' := result.1.2 in
  let w' := result.2 in
  (err <> None ->
     didLogin a' = didLogin a /\ lastLoginSuccess a' = lastLoginSuccess a) /\
  (err = None -> didLogin a' = true) /\
  (err = None -> requests (trace w') <> requests (trace w) ->
     lastLoginSuccess a' = now w') /\
  credentials a' = credentials a /\
  capsolverClient a' = capsolverClient a.
Proof.
  simpl. login_paths force a w; simpl.
  - (* Reuse *)
    repeat split; try congruence.
    intros _ Hreq. rewrite !requests_app in Hreq. simpl in Hreq.
    rewrite !app_nil_r in Hreq. congruence.
  - (* Skip *)
    destruct (didLogin a) eqn:Hdid; simpl; repeat split; try congruence;
      intros _ Hreq; rewrite !requests_app in Hreq; simpl in Hreq;
      rewrite !app_nil_r in Hreq; congruence.
  - repeat split; congruence.
  - repeat split; congruence.
  - repeat split; congruence.
  - repeat split; congruence.
  - match goal with H : Sent _ _ _ _ |- _ => inversion H; subst; clear H end; simpl.
    + repeat split; congruence.
    + repeat split; congruence.
    + repeat (match goal with
              | |- context [if ?b then _ else _] => destruct b
              end; simpl);
        repeat split; congruence.
Qed.

Lemma requests_solved a f data w res w2 :
  solveCaptcha E AmizoneDomain a f data w = (res, w2) ->
  requests (trace w2) = requests (trace w).
Proof.
  intros H. pose proof (requests_solveCaptcha a f data w) as Hr.
  rewrite H in Hr. exact Hr.
Qed.

Lemma app_same_nil {A} (l l' : list A) : l = (l ++ l')%list -> l' = [].
Proof.
  intros H. apply (app_inv_head l). rewrite app_nil_r. symmetry. exact H.
Qed.

(** The requests a call to [login] adds, path by path. *)
Ltac requests_of_path :=
  cbn [fst snd];
  rewrite ?requests_emit_unlock, ?requests_world_after;
  repeat match goal with
         | H : solveCaptcha _ _ _ _ _ _ = (_, ?w2) |- context [requests (trace ?w2)] =>
             rewrite (requests_solved _ _ _ _ _ _ H)
         end;
  rewrite ?requests_world_after, ?requests_emit_lock.

(** What [login] asks of the portal: nothing, the login page, or the
    login page and then the form. *)
Lemma login_requests force a w :
  let w' := (login E AmizoneDomain force a w).2 in
  requests (trace w') = requests (trace w) \/
  requests (trace w') = (requests (trace w) ++ [getLoginPage])%list \/
  exists data,
    requests (trace w') = (requests (trace w) ++ [getLoginPage; postLoginForm data])%list.
Proof.
  cbv zeta. login_paths force a w.
  - left. requests_of_path. reflexivity.
  - left. requests_of_path. reflexivity.
  - left. requests_of_path. reflexivity.
  - right. left. requests_of_path. reflexivity.
  - right. left. requests_of_path. reflexivity.
  - right. left. requests_of_path. reflexivity.
  - match goal with H : Sent _ _ _ _ |- _ => inversion H; subst; clear H end.
    + right. left. requests_of_path. reflexivity.
    + right. right. exists data. requests_of_path. rewrite <- app_assoc. reflexivity.
    + right. right. exists data.
      repeat match goal with
             | |- context [if ?b then _ else _] => destruct b
             end; requests_of_path; rewrite <- app_assoc; reflexivity.
Qed.

Lemma ErrFailedLogin_not_ErrInvalidCredentials : ErrFailedLogin <> ErrInvalidCredentials.
Proof. discriminate. Qed.

(** C2. When a call to [login] has fetched the login page and submitted
    the form, and the submission was answered (status 200, body read):
    if the final URL path of the response is the login path, the call
    returns the invalid-credentials error; if it is another path and both
    the response body and the cookie jar say "logged in", the call returns
    no error; if it is another path and one of the two says otherwise,
    the call returns the login-failed error, which is not the
    invalid-credentials error. *)
Theorem C2_login_classification
    (force : bool) (a : Client) (w : World) (get post : Request) (r : Response) :
  let result := login E AmizoneDomain force a w in
  let err := result.1.1 in
  let a' := result.1.2 in
  requests (trace result.2) = (requests (trace w) ++ [get; post])%list ->
  outcome (portal E (S (List.length (requests (trace w)))) post) = inr r ->
  StatusCode r = StatusOK ->
  BodyReadable r = true ->
  (Method post = MethodPost /\ Endpoint post = loginRequestEndpoint) /\
  (URLPath r = loginRequestEndpoint -> err = Some ErrInvalidCredentials) /\
  (URLPath r <> loginRequestEndpoint ->
     Parse.IsLoggedIn (Body r) = true -> IsLoggedIn (httpClient a') = true ->
     err = None) /\
  (URLPath r <> loginRequestEndpoint ->
     Parse.IsLoggedIn (Body r) = false \/ IsLoggedIn (httpClient a') = false ->
     err = Some ErrFailedLogin) /\
  ErrFailedLogin <> ErrInvalidCredentials.
Proof.
  cbv zeta. intros Hreq Hout Hstatus Hread.
  assert (Husable : usable (portal E (S (List.length (requests (trace w)))) post) = Some r).
  { unfold usable. rewrite Hout, Hstatus, Hread. reflexivity. }
  clear Hout Hstatus Hread. revert Hreq.
  login_paths force a w; requests_of_path; intros Hreq;
    try (apply app_same_nil in Hreq; discriminate Hreq);
    try (apply app_inv_head in Hreq; discriminate Hreq).
  match goal with H : Sent _ _ _ _ |- _ => inversion H; subst; clear H end;
    revert Hreq; requests_of_path; intros Hreq.
  - apply app_inv_head in Hreq. discriminate Hreq.
  - rewrite <- app_assoc in Hreq. apply app_inv_head in Hreq.
    injection Hreq as <- <-.
    match goal with H : usable (exchange _ ?w2) = None |- _ => unfold exchange in H end.
    match goal with
    | Hs : solveCaptcha _ _ _ _ _ _ = (_, ?w2), H : usable (portal E _ _) = None |- _ =>
        rewrite (requests_solved _ _ _ _ _ _ Hs), requests_world_after,
                requests_emit_lock, length_app in H; simpl in H;
        rewrite Nat.add_1_r in H; congruence
    end.
  - assert (Hr : r0 = r /\ post = postLoginForm data).
    { revert Hreq.
      repeat match goal with
             | |- context [if ?b then _ else _] => destruct b
             end; requests_of_path; rewrite <- app_assoc; intros Hreq;
        apply app_inv_head in Hreq; injection Hreq as <- <-;
        match goal with H : usable (exchange _ ?w2) = Some _ |- _ => unfold exchange in H end;
        match goal with
        | Hs : solveCaptcha _ _ _ _ _ _ = (_, ?w2), H : usable (portal E _ _) = Some _ |- _ =>
            rewrite (requests_solved _ _ _ _ _ _ Hs), requests_world_after,
                    requests_emit_lock, length_app in H; simpl in H;
            rewrite Nat.add_1_r in H
        end; split; congruence. }
    destruct Hr as [-> ->]. clear Hreq.
    split; [split; reflexivity|].
    destruct (String.eqb_spec (URLPath r) loginRequestEndpoint) as [Hpath|Hpath].
    + cbn [fst snd]. repeat split; try congruence. apply ErrFailedLogin_not_ErrInvalidCredentials.
    + destruct (Parse.IsLoggedIn (Body r)) eqn:Hbody;
        destruct (IsLoggedIn (httpClient (client_after (postLoginForm data) a1 w2))) eqn:Hjar;
        simpl in Hjar; cbn [fst snd andb]; simpl httpClient;
        repeat split; try congruence;
        try apply ErrFailedLogin_not_ErrInvalidCredentials;
        try (intros _ [Hc|Hc]; congruence); intros; congruence.
Qed.

(** *** The login form and the submission *)

Lemma nonempty_spec (s : string) : Parse.nonempty s = true <-> s <> "".
Proof. destruct s; simpl; split; congruence. Qed.

(** The login page carries no verification token (or cannot be parsed). *)
Definition token_missing (page : Response) : Prop :=
  match Parse.ParseLoginForm (Body page) with
  | Some f => Parse.VerificationToken f = ""
  | None => True
  end.

Lemma accepted_form_None page : accepted_form page = None <-> token_missing page.
Proof.
  unfold accepted_form, token_missing.
  destruct (Parse.ParseLoginForm (Body page)) as [f|]; [|tauto].
  destruct (Parse.VerificationToken f); simpl; split; congruence.
Qed.

Lemma accepted_form_Some page f :
  accepted_form page = Some f <->
  Parse.ParseLoginForm (Body page) = Some f /\ Parse.VerificationToken f <> "".
Proof.
  unfold accepted_form.
  destruct (Parse.ParseLoginForm (Body page)) as [f'|]; [|split; [|intros []]; congruence].
  destruct (Parse.VerificationToken f') eqn:Htok; simpl; split.
  - congruence.
  - intros [Hf Hne]. injection Hf as <-. congruence.
  - intros Hf. injection Hf as <-. split; [reflexivity|]. rewrite Htok. congruence.
  - intros [Hf _]. exact Hf.
Qed.

(** A field of the form that is sent only when the page provides it. *)
Definition optional (s : string) : option string :=
  if Parse.nonempty s then Some s else None.

Lemma loginRequestData_fields a f :
  loginRequestData a f !! "_UserName" = Some (Username (credentials a)) /\
  loginRequestData a f !! "_Password" = Some (Password (credentials a)) /\
  loginRequestData a f !! verificationTokenName = Some (Parse.VerificationToken f) /\
  loginRequestData a f !! "Salt" = optional (Parse.Salt f) /\
  loginRequestData a f !! "SecretNumber" = optional (Parse.SecretNumber f) /\
  loginRequestData a f !! "Signature" = optional (Parse.Signature f) /\
  loginRequestData a f !! "Challenge" = optional (Parse.Challenge f).
Proof.
  unfold loginRequestData, optional, verificationTokenName.
  destruct (Parse.nonempty (Parse.Salt f));
    destruct (Parse.nonempty (Parse.SecretNumber f));
    destruct (Parse.nonempty (Parse.Signature f));
    destruct (Parse.nonempty (Parse.Challenge f));
    repeat split; simplify_map_eq; reflexivity.
Qed.

(** Solving the challenge adds to the form, and touches [_QString] only. *)
Lemma solveCaptcha_data a f base w data w2 (k : string) :
  solveCaptcha E AmizoneDomain a f base w = (inl data, w2) ->
  k <> "RecaptchaToken" -> k <> "_QString" -> k <> "cf-turnstile-response" ->
  data !! k = base !! k.
Proof.
  unfold solveCaptcha. intros H Hk1 Hk2 Hk3.
  destruct (capsolverClient a) as [solver|]; [|injection H as <- _; reflexivity].
  destruct (Parse.nonempty (Parse.TurnstileSiteKey f)); [|injection H as <- _; reflexivity].
  destruct (CapsolverClient.SolveTurnstile E solver (BaseURL AmizoneDomain)
              (Parse.TurnstileSiteKey f) w) as [[token [e|]] w1]; [discriminate|].
  injection H as <- _. rewrite !lookup_insert_ne by congruence. reflexivity.
Qed.

Lemma solveCaptcha_error a f base w e w2 :
  solveCaptcha E AmizoneDomain a f base w = (inr e, w2) ->
  exists e', e = ErrFailedLogin ++ ": failed to solve Turnstile CAPTCHA: " ++ e'.
Proof.
  unfold solveCaptcha. intros H.
  destruct (capsolverClient a) as [solver|]; [|discriminate].
  destruct (Parse.nonempty (Parse.TurnstileSiteKey f)); [|discriminate].
  destruct (CapsolverClient.SolveTurnstile E solver (BaseURL AmizoneDomain)
              (Parse.TurnstileSiteKey f) w) as [[token [e0|]] w1]; [|discriminate].
  injection H as <- _. exists e0. reflexivity.
Qed.

Lemma usable_answer x r :
  outcome x = inr r -> StatusCode r = StatusOK -> BodyReadable r = true ->
  usable x = Some r.
Proof. intros Ho Hs Hr. unfold usable. rewrite Ho, Hs, Hr. reflexivity. Qed.

(** C1 (amended). When a call to [login] has fetched the login page
    (status 200, body read):
    - if the page cannot be parsed or has no verification token, the call
      returns the malformed-login-page error and has asked the portal for
      nothing but the login page: no form is submitted;
    - if the page has a verification token, then whatever the salt, the
      secret number, the signature and the challenge are, the call either
      fails in the challenge solver, before any submission, or submits a
      form with the credentials, the token and those of the four fields
      that are not empty. *)
Theorem C1_login_aborts_without_token
    (force : bool) (a : Client) (w : World) (page : Response) :
  let result := login E AmizoneDomain force a w in
  let err := result.1.1 in
  let w' := result.2 in
  requests (trace w') <> requests (trace w) ->
  outcome (portal E (List.length (requests (trace w))) getLoginPage) = inr page ->
  StatusCode page = StatusOK ->
  BodyReadable page = true ->
  (token_missing page ->
     err = Some malformed_login_page /\
     requests (trace w') = (requests (trace w) ++ [getLoginPage])%list) /\
  (forall f,
     Parse.ParseLoginForm (Body page) = Some f ->
     Parse.VerificationToken f <> "" ->
     request_ok E MethodPost (BaseURL AmizoneDomain ++ loginRequestEndpoint) = true ->
     (exists e,
        err = Some (ErrFailedLogin ++ ": failed to solve Turnstile CAPTCHA: " ++ e) /\
        requests (trace w') = (requests (trace w) ++ [getLoginPage])%list) \/
     (exists data,
        requests (trace w')
        = (requests (trace w) ++ [getLoginPage; postLoginForm data])%list /\
        data !! "_UserName" = Some (Username (credentials a)) /\
        data !! "_Password" = Some (Password (credentials a)) /\
        data !! verificationTokenName = Some (Parse.VerificationToken f) /\
        data !! "Salt" = optional (Parse.Salt f) /\
        data !! "SecretNumber" = optional (Parse.SecretNumber f) /\
        data !! "Signature" = optional (Parse.Signature f) /\
        data !! "Challenge" = optional (Parse.Challenge f))).
Proof.
  cbv zeta. intros Hreq Hout Hstatus Hread.
  pose proof (usable_answer _ _ Hout Hstatus Hread) as Hpage.
  clear Hout Hstatus Hread. revert Hreq.
  login_paths force a w; requests_of_path; intros Hreq; try congruence;
    match goal with
    | H : usable (exchange getLoginPage _) = _ |- _ =>
        unfold exchange in H; rewrite requests_emit_lock in H;
        rewrite Hpage in H; try discriminate H; injection H as <-
    end.
  - (* Malformed *)
    split.
    + intros _. split; reflexivity.
    + intros f Hf Htok _. exfalso.
      assert (Hacc : accepted_form page = Some f) by (apply accepted_form_Some; auto).
      congruence.
  - (* Unsolved *)
    split.
    + intros Hmiss. apply accepted_form_None in Hmiss. congruence.
    + intros f' Hf Htok _. left.
      match goal with
      | H : solveCaptcha _ _ _ _ _ _ = (inr _, _) |- _ =>
          destruct (solveCaptcha_error _ _ _ _ _ _ H) as (e' & ->)
      end.
      exists e'. split; reflexivity.
  - (* Submitted *)
    split.
    + intros Hmiss. apply accepted_form_None in Hmiss. congruence.
    + intros f' Hf Htok Hok. right.
      assert (Hacc : accepted_form page = Some f') by (apply accepted_form_Some; auto).
      assert (f' = f) by congruence. subst f'.
      exists data.
      assert (Hsendable : sendable a1 (postLoginForm data) = true).
      { match goal with H : sendable a getLoginPage = true |- _ => rename H into Hs end.
        unfold sendable in *. simpl in *. apply andb_prop in Hs. destruct Hs as [Hs _].
        rewrite Hs, Hok. reflexivity. }
      assert (Hdata : forall k : string,
                k <> "RecaptchaToken" -> k <> "_QString" -> k <> "cf-turnstile-response" ->
                data !! k = loginRequestData a f !! k).
      { intros k Hk1 Hk2 Hk3.
        match goal with
        | H : solveCaptcha _ _ _ _ _ _ = (inl _, _) |- _ =>
            apply (solveCaptcha_data _ _ _ _ _ _ k H Hk1 Hk2 Hk3)
        end. }
      destruct (loginRequestData_fields a f) as (Hu & Hp & Ht & Hf1 & Hf2 & Hf3 & Hf4).
      split.
      * match goal with H : Sent _ _ _ _ |- _ => inversion H; subst; clear H end;
          [congruence| |];
          repeat match goal with
                 | |- context [if ?b then _ else _] => destruct b
                 end; requests_of_path; rewrite <- app_assoc; reflexivity.
      * rewrite !Hdata by (unfold verificationTokenName; congruence).
        repeat split; assumption.
Qed.

(** *** The trace of a login *)

(** What happens between the [Lock] and the [Unlock] of [muLogin]:
    requests to the portal and the work of the solver. *)
Definition login_event (ev : Event) : bool :=
  match ev with
  | PortalDo _ => true
  | _ => solver_event ev
  end.

Lemma login_event_solver evs :
  forallb solver_event evs = true -> forallb login_event evs = true.
Proof.
  induction evs as [|ev evs IH]; [reflexivity|]. simpl. intros H.
  apply andb_prop in H. destruct H as [Hev Hevs].
  rewrite (IH Hevs), andb_true_r. destruct ev; try discriminate Hev; reflexivity.
Qed.

Lemma trace_world_after req w :
  trace (world_after req w) = (trace w ++ [PortalDo req])%list.
Proof. reflexivity. Qed.

Lemma trace_solved a f data w res w2 :
  solveCaptcha E AmizoneDomain a f data w = (res, w2) ->
  exists evs, trace w2 = (trace w ++ evs)%list /\ forallb solver_event evs = true.
Proof.
  intros H. destruct (solveCaptcha_trace a f data w) as (evs & Ht & Hs).
  rewrite H in Ht. exists evs. split; assumption.
Qed.

(** The events of a call to [login]: the mutex is taken, then come
    requests and solver events, then the mutex is released; when the call
    neither reuses the session nor is throttled, and the request can be
    sent, the first of them is the request for the login page. *)
Lemma login_trace force a w :
  exists evs,
    trace (login E AmizoneDomain force a w).2
    = (trace w ++ Lock MuLogin :: evs ++ [Unlock MuLogin])%list /\
    forallb login_event evs = true /\
    (can_reuse force a w = false -> too_soon force a w = false ->
     sendable a getLoginPage = true ->
     exists rest, evs = PortalDo getLoginPage :: rest).
Proof.
  assert (Hshape : forall (w' : World) (evs : list Event),
            trace w' = (trace w ++ Lock MuLogin :: evs)%list ->
            trace (emit (Unlock MuLogin) w')
            = (trace w ++ Lock MuLogin :: evs ++ [Unlock MuLogin])%list).
  { intros w' evs Hw'. simpl. rewrite Hw', <- !app_assoc. reflexivity. }
  login_paths force a w; cbn [fst snd];
    try match goal with
        | Hs : solveCaptcha _ _ _ _ _ _ = _ |- _ =>
            destruct (trace_solved _ _ _ _ _ _ Hs) as (evs & Ht & Hevs)
        end.
  - exists []. split; [apply Hshape; reflexivity|].
    split; [reflexivity|]. intros Hr. change (can_reuse force a w = true) in H. congruence.
  - exists []. split; [apply Hshape; reflexivity|].
    split; [reflexivity|]. intros _ Hs. change (too_soon force a w = true) in H0. congruence.
  - exists []. split; [apply Hshape; reflexivity|].
    split; [reflexivity|]. intros _ _ Hs. congruence.
  - exists [PortalDo getLoginPage].
    split; [apply Hshape; simpl; rewrite <- ?app_assoc; reflexivity|].
    split; [reflexivity|]. intros _ _ _. exists []. reflexivity.
  - exists [PortalDo getLoginPage].
    split; [apply Hshape; simpl; rewrite <- ?app_assoc; reflexivity|].
    split; [reflexivity|]. intros _ _ _. exists []. reflexivity.
  - exists (PortalDo getLoginPage :: evs).
    split; [apply Hshape; rewrite Ht; simpl; rewrite <- ?app_assoc; reflexivity|].
    split; [simpl; apply login_event_solver; assumption|].
    intros _ _ _. exists evs. reflexivity.
  - match goal with H : Sent _ _ _ _ |- _ => inversion H; subst; clear H end.
    + exists (PortalDo getLoginPage :: evs).
      split; [apply Hshape; rewrite Ht; simpl; rewrite <- ?app_assoc; reflexivity|].
      split; [simpl; apply login_event_solver; assumption|].
      intros _ _ _. exists evs. reflexivity.
    + exists (PortalDo getLoginPage :: evs ++ [PortalDo (postLoginForm data)])%list.
      split; [apply Hshape; rewrite trace_world_after, Ht; simpl;
              rewrite <- ?app_assoc; reflexivity|].
      split; [simpl; rewrite forallb_app, (login_event_solver _ Hevs); reflexivity|].
      intros _ _ _. eexists. reflexivity.
    + exists (PortalDo getLoginPage :: evs ++ [PortalDo (postLoginForm data)])%list.
      split.
      * repeat match goal with
               | |- context [if ?b then _ else _] => destruct b
               end; cbn [fst snd];
          apply Hshape; rewrite trace_world_after, Ht; simpl;
          rewrite <- ?app_assoc; reflexivity.
      * split; [simpl; rewrite forallb_app, (login_event_solver _ Hevs); reflexivity|].
        intros _ _ _. eexists. reflexivity.
Qed.

(** *** A client without credentials *)

Lemma doRequest_empty (tryLogin : bool) (a : Client) (method endpoint : string)
    (body : option Values) (w : World) :
  is_empty (credentials a) = true ->
  doRequest E AmizoneDomain tryLogin a method endpoint body w
  = (inr ErrInvalidCredentials, a, w).
Proof. intros H. unfold doRequest. rewrite H. reflexivity. Qed.

(** The error an operation returns when its [doRequest] fails with the
    invalid-credentials error. *)
Definition without_credentials (op : Operation) : string :=
  match op with
  | OpGetExamSchedule | OpGetSemesters => ErrFailedToVisitPage
  | _ => ErrFailedToFetchPage ++ ": " ++ ErrInvalidCredentials
  end.

(** With the empty pair for credentials, [NewClient] makes no login
    attempt (it adds nothing to the trace) and returns the client, unless
    it was handed an HTTP client without a cookie jar; on such a client,
    [doRequest] returns the invalid-credentials error and adds nothing to
    the trace, and every operation that gets as far as its [doRequest]
    fails without a network request: with "failed to visit page" for
    [GetExamSchedule] and [GetSemesters], and with "failed to fetch page:
    failed to login: invalid credentials" for the others,
    [RegisterWifiMac] among them. *)
Theorem empty_credentials_fail_fast
    (cred : Credentials) (httpClient0 : option HTTPClient) (a : Client) (w : World) :
  is_empty cred = true ->
  is_empty (credentials a) = true ->
  (NewClient E AmizoneDomain cred httpClient0 w).2 = w /\
  (httpClient0 = None \/ (exists h jar, httpClient0 = Some h /\ Jar h = Some jar) ->
   exists c, (NewClient E AmizoneDomain cred httpClient0 w).1 = (Some c, None) /\
             credentials c = cred /\ didLogin c = false) /\
  (forall tryLogin method endpoint body,
     doRequest E AmizoneDomain tryLogin a method endpoint body w
     = (inr ErrInvalidCredentials, a, w)) /\
  (forall op,
     reaches_doRequest op = true ->
     perform E AmizoneDomain op a w = (inr (without_credentials op), a, w)) /\
  (forall parse_WifiMacInfo addr bypassLimit,
     RegisterWifiMac E AmizoneDomain parse_WifiMacInfo true addr bypassLimit a w
     = (Returned (Some (ErrFailedToFetchPage ++ ": " ++ ErrInvalidCredentials)), a, w)).
Proof.
  intros Hcred Ha. split; [|split; [|split; [|split]]].
  - unfold NewClient.
    destruct httpClient0 as [[[jar|]]|]; simpl; rewrite ?Hcred; reflexivity.
  - intros [-> | (h & jar & -> & Hjar)]; unfold NewClient; simpl;
      rewrite ?Hjar, Hcred; eexists; repeat split.
  - intros. apply doRequest_empty. assumption.
  - intros op Hop.
    destruct op; simpl in *;
      unfold GetAttendance, GetCurrentExaminationResult, GetExaminationResult,
        GetClassSchedule, GetExamSchedule, GetSemesters, GetCourses, GetCurrentCourses,
        GetUserProfile, GetWiFiMacInformation, RemoveWifiMac, fetch;
      rewrite ?Hop; simpl;
      rewrite doRequest_empty by assumption; reflexivity.
  - intros parse_WifiMacInfo addr bypassLimit.
    unfold RegisterWifiMac, GetWiFiMacInformation, fetch. simpl.
    rewrite doRequest_empty by assumption. reflexivity.
Qed.

End LoginProperties.

(** ** The lock of the session cache *)

Section CacheLockProperties.

Import Amizone Server.

Variable E : Env.
Variable AmizoneDomain : string.

Definition same_mutex (m m' : Mutex) : bool :=
  match m, m' with
  | MuLogin, MuLogin | CacheMu, CacheMu => true
  | _, _ => false
  end.

(** Whether a trace shows network traffic while the mutex [m] is held
    (for reading or for writing); [held] tells whether it is held at the
    start. *)
Fixpoint io_while_held (m : Mutex) (held : bool) (evs : list Event) : bool :=
  match evs with
  | [] => false
  | ev :: evs' =>
      match ev with
      | Lock m' | RLock m' => io_while_held m (held || same_mutex m m') evs'
      | Unlock m' | RUnlock m' => io_while_held m (held && negb (same_mutex m m')) evs'
      | _ => (held && is_network ev) || io_while_held m held evs'
      end
  end.

Lemma io_while_held_reached (m : Mutex) (req : Request) (evs : list Event) :
  io_while_held m true (PortalDo req :: evs) = true.
Proof. reflexivity. Qed.

Lemma Since_zero (t : Time) : 2 * Minute <= t -> (Since t GoTime.zero <? Minute * 2) = false.
Proof.
  intros Ht. unfold Since, Sub, GoTime.zero, minDuration, maxDuration, Minute, Second in *.
  rewrite Z.sub_0_r.
  destruct (Z.ltb_spec t (- 2 ^ 63)); [lia|].
  destruct (Z.ltb_spec (2 ^ 63 - 1) t); apply Z.ltb_ge; lia.
Qed.

(** The credentials are not in the cache, or what is cached for them is
    past its TTL. *)
Definition missed (username password : string) (sc : SessionCache) (w : World) : Prop :=
  sessions sc !! makeKey username password = None \/
  exists s, sessions sc !! makeKey username password = Some s /\
            ttl sc < Since (now w) (createdAt s).

(** What [GetOrCreate] finds under the key, when it is within its TTL. *)
Definition cached_in_time (username password : string) (sc : SessionCache) (w : World)
    : option cachedSession :=
  match sessions sc !! makeKey username password with
  | Some session =>
      if Since (now w) (createdAt session) <=? ttl sc then Some session else None
  | None => None
  end.

Lemma missed_cached_in_time username password sc w :
  missed username password sc w -> cached_in_time username password sc w = None.
Proof.
  unfold cached_in_time. intros [-> | (s & -> & Hage)]; [reflexivity|].
  destruct (Z.leb_spec (Since (now w) (createdAt s)) (ttl sc)); [lia | reflexivity].
Qed.

(** The event takes or releases the mutex [m]. *)
Definition touches (m : Mutex) (ev : Event) : bool :=
  match ev with
  | Lock m' | Unlock m' | RLock m' | RUnlock m' => same_mutex m m'
  | _ => false
  end.

Definition leaves (m : Mutex) (ev : Event) : bool := negb (touches m ev).

(** Between the [Lock] and the [Unlock] of [m], network traffic is
    traffic while [m] is held. *)
Lemma io_while_held_inner (m : Mutex) (inner : list Event) :
  forallb (leaves m) inner = true ->
  io_while_held m true (inner ++ [Unlock m]) = existsb is_network inner.
Proof.
  induction inner as [|ev inner IH]; intros Hin.
  - reflexivity.
  - simpl in Hin. apply andb_prop in Hin. destruct Hin as [Hev Hin].
    specialize (IH Hin). unfold leaves, touches in Hev.
    destruct ev as [m'|m'|m'|m'|req|d|key task|key taskID|]; simpl;
      try (apply negb_true_iff in Hev; rewrite Hev); simpl; rewrite ?IH; reflexivity.
Qed.

Definition is_NewTLSClient (ev : Event) : bool :=
  match ev with
  | NewTLSClient => true
  | _ => false
  end.

Lemma apply_options_trace (opts : list ClientOption) (c : Client) (w : World) :
  exists evs,
    trace (apply_options E opts c w).2 = (trace w ++ evs)%list /\
    forallb is_NewTLSClient evs = true.
Proof.
  revert c w. induction opts as [|opt opts IH]; intros c w.
  - exists []. simpl. rewrite app_nil_r. split; reflexivity.
  - simpl.
    assert (Hopt : exists evs,
              trace (apply_option E opt c w).2 = (trace w ++ evs)%list /\
              forallb is_NewTLSClient evs = true).
    { destruct opt as [|apiKey]; simpl.
      - exists [NewTLSClient]. destruct (tls_client E (tick w)); split; reflexivity.
      - exists []. rewrite app_nil_r. destruct (String.eqb apiKey ""); split; reflexivity. }
    destruct Hopt as (evs1 & H1 & Hall1).
    destruct (apply_option E opt c w) as [[[e|] c1] w1]; cbn [snd] in H1 |- *.
    + exists evs1. split; assumption.
    + destruct (IH c1 w1) as (evs2 & H2 & Hall2).
      exists (evs1 ++ evs2)%list. rewrite H2, H1, <- app_assoc.
      split; [reflexivity|]. rewrite forallb_app, Hall1, Hall2. reflexivity.
Qed.

Lemma leaves_NewTLSClient (evs : list Event) :
  forallb is_NewTLSClient evs = true ->
  forallb (leaves CacheMu) evs = true /\ existsb is_network evs = false.
Proof.
  induction evs as [|ev evs IH]; [split; reflexivity|]. simpl. intros H.
  apply andb_prop in H. destruct H as [Hev Hevs]. destruct (IH Hevs) as [IH1 IH2].
  destruct ev; try discriminate Hev. simpl. rewrite IH1, IH2. split; reflexivity.
Qed.

Lemma leaves_login_event (evs : list Event) :
  forallb login_event evs = true -> forallb (leaves CacheMu) evs = true.
Proof.
  induction evs as [|ev evs IH]; [reflexivity|]. simpl. intros H.
  apply andb_prop in H. destruct H as [Hev Hevs]. rewrite (IH Hevs), andb_true_r.
  destruct ev; try discriminate Hev; reflexivity.
Qed.

(** What [NewClientWithOptions] does never touches the lock of the
    cache, and with the empty credentials it is not network traffic. *)
Lemma NewClientWithOptions_trace (cred : Credentials) (opts : list ClientOption)
    (w : World) :
  exists inner,
    trace (NewClientWithOptions E AmizoneDomain cred opts w).2 = (trace w ++ inner)%list /\
    forallb (leaves CacheMu) inner = true /\
    (is_empty cred = true -> existsb is_network inner = false).
Proof.
  unfold NewClientWithOptions.
  destruct (apply_options_trace opts (newClient {| Jar := Some fresh_jar |} cred) w)
    as (evs & Ht & Hall).
  destruct (leaves_NewTLSClient evs Hall) as [Hleave Hquiet].
  destruct (apply_options E opts _ w) as [[[e|] c] w1]; cbn [snd] in Ht |- *.
  { exists evs. auto. }
  destruct (Jar (httpClient c)); [|exists evs; auto].
  destruct (is_empty cred) eqn:Hcred; [exists evs; auto|].
  destruct (login_trace E AmizoneDomain false c w1) as (evs2 & Ht2 & Hall2 & _).
  destruct (login E AmizoneDomain false c w1) as [[err c'] w2]. cbn [fst snd] in Ht2 |- *.
  exists (evs ++ Lock MuLogin :: evs2 ++ [Unlock MuLogin])%list.
  rewrite Ht2, Ht, <- app_assoc. split; [reflexivity|]. split; [|discriminate].
  rewrite forallb_app, Hleave. simpl. rewrite forallb_app.
  rewrite (leaves_login_event evs2 Hall2). reflexivity.
Qed.

(** The events of [GetOrCreate] on a miss: the lock of the cache is
    taken for writing and released at the very end, and everything that
    the making of the client does comes in between. *)
Lemma GetOrCreate_miss_shape (username password : string) (sc : SessionCache) (w : World) :
  missed username password sc w ->
  exists inner,
    events_since w (GetOrCreate E AmizoneDomain username password sc w).2
    = ([RLock CacheMu; RUnlock CacheMu; Lock CacheMu] ++ inner ++ [Unlock CacheMu])%list /\
    forallb (leaves CacheMu) inner = true /\
    (is_empty {| Username := username; Password := password |} = true ->
     existsb is_network inner = false).
Proof.
  intros Hmiss. apply missed_cached_in_time in Hmiss. unfold GetOrCreate.
  change (match sessions sc !! makeKey username password with
          | Some session =>
              if Since (now (emit (RUnlock CacheMu) (emit (RLock CacheMu) w)))
                   (createdAt session) <=? ttl sc
              then Some session else None
          | None => None
          end) with (cached_in_time username password sc w).
  change (match sessions sc !! makeKey username password with
          | Some session =>
              if Since (now (emit (Lock CacheMu)
                               (emit (RUnlock CacheMu) (emit (RLock CacheMu) w))))
                   (createdAt session) <=? ttl sc
              then Some session else None
          | None => None
          end) with (cached_in_time username password sc w).
  rewrite Hmiss.
  set (w2 := emit (Lock CacheMu) (emit (RUnlock CacheMu) (emit (RLock CacheMu) w))).
  set (opts := WithTLSClient :: _).
  destruct (NewClientWithOptions_trace {| Username := username; Password := password |}
              opts w2) as (inner & Ht & Hleave & Hquiet).
  exists inner. split; [|split; assumption].
  destruct (NewClientWithOptions E AmizoneDomain _ opts w2) as [[c err] w3].
  cbn [snd] in Ht.
  assert (Hevs : forall w', trace w' = (trace w3 ++ [Unlock CacheMu])%list ->
            events_since w w'
            = ([RLock CacheMu; RUnlock CacheMu; Lock CacheMu] ++ inner
               ++ [Unlock CacheMu])%list).
  { intros w' Hw'. apply events_since_app. rewrite Hw', Ht. subst w2. simpl.
    rewrite <- !app_assoc. reflexivity. }
  destruct err as [e|], c as [c|]; cbn [fst snd]; apply Hevs; reflexivity.
Qed.

(** The same events when the credentials are not empty, the TLS client
    can be made and the request for the login page can be composed: the
    initial login goes to the portal while the cache is locked, and all
    that it does is done before the lock is released. *)
Lemma GetOrCreate_miss_trace (username password : string) (sc : SessionCache) (w : World) :
  missed username password sc w ->
  is_empty {| Username := username; Password := password |} = false ->
  (forall i, tls_client E i = None) ->
  request_ok E MethodGet (BaseURL AmizoneDomain ++ "/") = true ->
  2 * Minute <= now w ->
  exists rest,
    events_since w (GetOrCreate E AmizoneDomain username password sc w).2
    = ([RLock CacheMu; RUnlock CacheMu; Lock CacheMu; NewTLSClient; Lock MuLogin;
        PortalDo getLoginPage] ++ rest ++ [Unlock MuLogin; Unlock CacheMu])%list /\
    forallb login_event rest = true.
Proof.
  intros Hmiss Hcred Htls Hok Hnow.
  apply missed_cached_in_time in Hmiss. unfold GetOrCreate.
  change (match sessions sc !! makeKey username password with
          | Some session =>
              if Since (now (emit (RUnlock CacheMu) (emit (RLock CacheMu) w)))
                   (createdAt session) <=? ttl sc
              then Some session else None
          | None => None
          end) with (cached_in_time username password sc w).
  change (match sessions sc !! makeKey username password with
          | Some session =>
              if Since (now (emit (Lock CacheMu)
                               (emit (RUnlock CacheMu) (emit (RLock CacheMu) w))))
                   (createdAt session) <=? ttl sc
              then Some session else None
          | None => None
          end) with (cached_in_time username password sc w).
  rewrite Hmiss.
  unfold NewClientWithOptions.
  set (cred := {| Username := username; Password := password |}) in *.
  set (w2 := emit (Lock CacheMu) (emit (RUnlock CacheMu) (emit (RLock CacheMu) w))).
  assert (Hopts : exists c,
            apply_options E
              (WithTLSClient ::
               (if String.eqb (CAPSOLVER_API_KEY E) "" then []
                else [WithCapSolver (CAPSOLVER_API_KEY E)]))
              (newClient {| Jar := Some fresh_jar |} cred) w2
            = (None, c, emit NewTLSClient w2) /\
            httpClient c = {| Jar := Some fresh_jar |} /\
            credentials c = cred /\ lastAttempt c = GoTime.zero).
  { simpl. rewrite Htls.
    destruct (String.eqb (CAPSOLVER_API_KEY E) "") eqn:Hkey; simpl.
    - eexists. repeat split.
    - rewrite Hkey. eexists. repeat split. }
  destruct Hopts as (c & -> & Hhttp & Hc & Hlast).
  rewrite Hhttp. cbn [Jar]. rewrite Hcred.
  set (w3 := emit NewTLSClient w2).
  destruct (login_trace E AmizoneDomain false c w3) as (evs & Ht & Hall & Hfirst).
  destruct Hfirst as (rest & ->).
  { unfold can_reuse, IsLoggedIn. rewrite Hhttp. reflexivity. }
  { unfold too_soon. rewrite Hlast. simpl. apply Since_zero. assumption. }
  { unfold sendable. rewrite Hc, Hcred. simpl. exact Hok. }
  exists rest. split; [|simpl in Hall; exact Hall].
  destruct (login E AmizoneDomain false c w3) as [[err c'] w4]. cbn [fst snd] in Ht.
  assert (Hevs : forall w', trace w' = (trace w4 ++ [Unlock CacheMu])%list ->
            events_since w w'
            = ([RLock CacheMu; RUnlock CacheMu; Lock CacheMu; NewTLSClient; Lock MuLogin;
                PortalDo getLoginPage] ++ rest ++ [Unlock MuLogin; Unlock CacheMu])%list).
  { intros w' Hw'. apply events_since_app. rewrite Hw', Ht. subst w3 w2. simpl.
    rewrite <- !app_assoc. simpl. rewrite <- !app_assoc. reflexivity. }
  destruct err; cbn [fst snd]; apply Hevs; reflexivity.
Qed.

(** The events of a call are [evs]. *)
Ltac events evs :=
  rewrite (events_since_app _ _ evs) by (simpl; rewrite <- ?app_assoc; reflexivity);
  reflexivity.

Lemma Get_no_io username password sc w :
  io_while_held CacheMu false (events_since w (Get username password sc w).2) = false.
Proof.
  unfold Get, Delete.
  destruct (sessions sc !! makeKey username password) as [s|];
    [|events [RLock CacheMu; RUnlock CacheMu]].
  destruct (ttl sc <? Since _ (createdAt s));
    events [RLock CacheMu; RUnlock CacheMu; Lock CacheMu; Unlock CacheMu].
Qed.

Lemma GetOrCreate_hit_no_io username password sc w s :
  sessions sc !! makeKey username password = Some s ->
  Since (now w) (createdAt s) <= ttl sc ->
  (GetOrCreate E AmizoneDomain username password sc w).1.1 = (Some (client s), None) /\
  io_while_held CacheMu false
    (events_since w (GetOrCreate E AmizoneDomain username password sc w).2) = false.
Proof.
  intros Hk Hage. unfold GetOrCreate. rewrite Hk. simpl.
  destruct (Z.leb_spec (Since (now w) (createdAt s)) (ttl sc)); [|lia].
  split; [reflexivity|].
  events [RLock CacheMu; RUnlock CacheMu; Lock CacheMu; Unlock CacheMu].
Qed.

(** C9 (amended). [Get], [Set], [Delete], [cleanup] and [Stats] hold the
    lock of the cache for map manipulation only, and so does
    [GetOrCreate] when the session is cached and within its TTL: their
    traces show no network traffic while the lock is held. When the
    credentials are not cached, or what is cached for them is past its
    TTL, [GetOrCreate] takes the lock for writing and releases it as the
    last thing it does, after the client was made: whatever network
    traffic the call causes goes out while the lock is held. With the
    empty credentials there is no login and no traffic. With other
    credentials, when the TLS client can be made and the request
    composed, the initial login is performed under the lock: the
    request for the login page and all that follows it, requests and
    the work of the solver, come before the lock is released. *)
Theorem C9_cache_lock_scope
    (username password : string) (c : Client) (sc : SessionCache) (w : World) :
  (io_while_held CacheMu false (events_since w (Get username password sc w).2) = false /\
   io_while_held CacheMu false (events_since w (Set_ username password c sc w).2) = false /\
   io_while_held CacheMu false (events_since w (Delete username password sc w).2) = false /\
   io_while_held CacheMu false (events_since w (cleanup sc w).2) = false /\
   io_while_held CacheMu false (events_since w (Stats sc w).2) = false) /\
  (forall s,
     sessions sc !! makeKey username password = Some s ->
     Since (now w) (createdAt s) <= ttl sc ->
     io_while_held CacheMu false
       (events_since w (GetOrCreate E AmizoneDomain username password sc w).2) = false) /\
  (sessions sc !! makeKey username password = None \/
   (exists s, sessions sc !! makeKey username password = Some s /\
              ttl sc < Since (now w) (createdAt s)) ->
   (exists inner,
      events_since w (GetOrCreate E AmizoneDomain username password sc w).2
      = ([RLock CacheMu; RUnlock CacheMu; Lock CacheMu] ++ inner
         ++ [Unlock CacheMu])%list /\
      forallb (fun ev => negb (touches CacheMu ev)) inner = true /\
      io_while_held CacheMu false
        (events_since w (GetOrCreate E AmizoneDomain username password sc w).2)
      = existsb is_network inner /\
      (is_empty {| Username := username; Password := password |} = true ->
       existsb is_network inner = false)) /\
   (is_empty {| Username := username; Password := password |} = false ->
    (forall i, tls_client E i = None) ->
    request_ok E MethodGet (BaseURL AmizoneDomain ++ "/") = true ->
    2 * Minute <= now w ->
    io_while_held CacheMu false
      (events_since w (GetOrCreate E AmizoneDomain username password sc w).2) = true /\
    exists rest,
      events_since w (GetOrCreate E AmizoneDomain username password sc w).2
      = ([RLock CacheMu; RUnlock CacheMu; Lock CacheMu; NewTLSClient; Lock MuLogin;
          PortalDo getLoginPage] ++ rest ++ [Unlock MuLogin; Unlock CacheMu])%list /\
      forallb login_event rest = true)).
Proof.
  split; [|split].
  - split; [apply Get_no_io|].
    split; [unfold Set_; events [Lock CacheMu; Unlock CacheMu]|].
    split; [unfold Delete; events [Lock CacheMu; Unlock CacheMu]|].
    split; [unfold cleanup; events [Lock CacheMu; Unlock CacheMu]|].
    unfold Stats; events [RLock CacheMu; RUnlock CacheMu].
  - intros s Hk Hage. apply (GetOrCreate_hit_no_io username password sc w s Hk Hage).
  - intros Hmiss. split.
    + destruct (GetOrCreate_miss_shape username password sc w Hmiss)
        as (inner & Hevs & Hleave & Hquiet).
      exists inner. split; [exact Hevs|]. split; [exact Hleave|]. split; [|exact Hquiet].
      rewrite Hevs. change (io_while_held CacheMu true (inner ++ [Unlock CacheMu])
                            = existsb is_network inner).
      apply io_while_held_inner. exact Hleave.
    + intros Hcred Htls Hok Hnow.
      destruct (GetOrCreate_miss_trace username password sc w
                  Hmiss Hcred Htls Hok Hnow) as (rest & Hevs & Hall).
      split; [rewrite Hevs; reflexivity|]. exists rest. split; assumption.
Qed.

End CacheLockProperties.

(** ** Runs against a scripted portal *)

Section Examples.

Import Amizone Server.

Definition domain : string := "s.amizone.net".

(** A login page whose form has a verification token and nothing else. *)
Definition login_page : Parse.Document :=
  {| Parse.parses := true;
     Parse.loginform_inputs := [("__RequestVerificationToken", Some "tok")];
     Parse.scripts := [];
     Parse.logged_in := false |}.

(** A login page without a form. *)
Definition blank_page : Parse.Document :=
  {| Parse.parses := true; Parse.loginform_inputs := [];
     Parse.scripts := []; Parse.logged_in := false |}.

Definition home_page : Parse.Document :=
  {| Parse.parses := true; Parse.loginform_inputs := [];
     Parse.scripts := []; Parse.logged_in := true |}.

Definition served (path : string) (page : Parse.Document) : Response :=
  {| URLPath := path; StatusCode := 200; Body := page; BodyReadable := true |}.

Definition processing : Capsolver.GetTaskResultResponse :=
  {| Capsolver.ErrorID := 0; Capsolver.ErrorCode := ""; Capsolver.ErrorDescription := "";
     Capsolver.Status := "processing"; Capsolver.SolutionToken := "" |}.

Definition created : Capsolver.CreateTaskResponse :=
  {| Capsolver.create_ErrorID := 0; Capsolver.create_ErrorCode := "";
     Capsolver.create_ErrorDescription := ""; Capsolver.TaskID := "task-1" |}.

(** The portal serves [first] to the first request and the home page,
    with the session cookies, afterwards; the solving service accepts
    every task and never finishes one. *)
Definition scripted (first : Parse.Document) : Env :=
  {| portal := fun n _ =>
       match n with
       | O => {| took := 1; outcome := inr (served "/" first); cookies := false |}
       | S _ => {| took := 1; outcome := inr (served "/Home" home_page); cookies := true |}
       end;
     createTask_reply := fun _ _ => (1%N, Capsolver.Decoded created);
     getTaskResult_reply := fun _ _ => (1%N, Capsolver.Decoded processing);
     ticker_wins := fun _ => 2%nat;
     tls_client := fun _ => None;
     request_ok := fun _ _ => true;
     CAPSOLVER_API_KEY := "" |}.

(** Some time in the year 2026. *)
Definition today : World := {| now := 63900000000 * Second; trace := [] |}.

Definition alice : Amizone.Client :=
  newClient {| Jar := Some fresh_jar |} {| Username := "alice"; Password := "secret" |}.

Definition anonymous : Amizone.Client :=
  newClient {| Jar := Some fresh_jar |} {| Username := ""; Password := "" |}.

Definition login_form : Parse.LoginFormFields := Parse.ParseLoginFormFromDom login_page.

Definition submitted_form : Values := loginRequestData alice login_form.

(** C1, as stated, fails: the login form of [login_page] is not valid
    (it has no salt, secret number, signature or challenge), and yet
    [login] submits the credentials, and succeeds. *)
Lemma C1_invalid_form_is_submitted :
  Parse.ParseLoginForm login_page = Some login_form /\
  Parse.IsValid login_form = false /\
  (login (scripted login_page) domain false alice today).1.1 = None /\
  requests (trace (login (scripted login_page) domain false alice today).2)
  = [getLoginPage; postLoginForm submitted_form] /\
  submitted_form !! "_Password" = Some "secret" /\
  submitted_form !! "Salt" = None.
Proof. vm_compute. repeat split; reflexivity. Qed.

Lemma C1_login_aborts_without_token_witness :
  (login (scripted blank_page) domain false alice today).1.1 = Some malformed_login_page /\
  requests (trace (login (scripted blank_page) domain false alice today).2)
  = [getLoginPage].
Proof.
  refine (proj1 (C1_login_aborts_without_token (scripted blank_page) domain false alice
                   today (served "/" blank_page) _ _ _ _) _).
  - vm_compute. discriminate.
  - reflexivity.
  - reflexivity.
  - reflexivity.
  - reflexivity.
Defined.

Lemma C2_login_classification_witness :
  (login (scripted login_page) domain false alice today).1.1 = None.
Proof.
  refine (proj1 (proj2 (proj2
            (C2_login_classification (scripted login_page) domain false alice today
               getLoginPage (postLoginForm submitted_form) (served "/Home" home_page)
               _ _ _ _))) _ _ _).
  - vm_compute. reflexivity.
  - reflexivity.
  - reflexivity.
  - reflexivity.
  - discriminate.
  - reflexivity.
  - vm_compute. reflexivity.
Defined.

(** A client whose last attempt, one minute ago, failed. *)
Definition hasty : Amizone.Client :=
  set_lastAttempt (now today - Minute) alice.

Lemma C3_login_throttle_witness :
  (login (scripted login_page) domain false hasty today).1.1 = Some ErrLoginThrottled /\
  requests (trace (login (scripted login_page) domain false hasty today).2) = [].
Proof.
  destruct (C3_login_throttle (scripted login_page) domain hasty today)
    as (_ & _ & Hreq & _ & Hthrottled & _).
  - left. reflexivity.
  - vm_compute. reflexivity.
  - split; [apply Hthrottled; reflexivity | exact Hreq].
Defined.

Lemma C8_login_frame_witness :
  didLogin (login (scripted blank_page) domain false alice today).1.2 = false /\
  lastLoginSuccess (login (scripted blank_page) domain false alice today).1.2 = GoTime.zero.
Proof.
  refine (proj1 (C8_login_frame (scripted blank_page) domain false alice today) _).
  vm_compute. discriminate.
Defined.

(** *** The solver against a service that never finishes *)

Definition solver : Capsolver.Client := Capsolver.NewClient "key".

Lemma C6_solver_retry_budget_witness :
  (CapsolverClient.waitForTaskResult (scripted login_page) solver "task-1" today).1
  = ("", Some timeout_error) /\
  now today + 120 * Second
  <= now (CapsolverClient.waitForTaskResult (scripted login_page) solver "task-1" today).2.
Proof.
  refine (proj1 (C6_solver_retry_budget (scripted login_page) Turnstile solver
                   "https://s.amizone.net" "0x4AAA" today) "task-1" today _).
  intros i. exists 1%N, processing. repeat split; reflexivity.
Defined.

(** Three attempts, each of one task created and sixty polls (the ticker
    wins the tie at 120 seconds) before the timeout, two back-offs, and
    the error of the last attempt. *)
Example solver_gives_up :
  let result := CapsolverClient.SolveTurnstile (scripted login_page) solver
                  "https://s.amizone.net" "0x4AAA" today in
  result.1 = ("", Some "failed to get turnstile solution: timeout waiting for captcha solution") /\
  List.length (List.filter is_network (trace result.2)) = (3 * (1 + 60))%nat /\
  now result.2 - now today = 3 * (1 + 120 * Second + 1) + 2 * (2 * Second).
Proof. vm_compute. repeat split; reflexivity. Qed.

(** *** The cache on a miss *)

(** C9, as stated, fails: on a miss, [GetOrCreate] sends the two requests
    of the initial login while it holds the lock of the cache. *)
Lemma C9_login_under_cache_lock :
  events_since today
    (GetOrCreate (scripted login_page) domain "alice" "secret" (NewSessionCache 0) today).2
  = [RLock CacheMu; RUnlock CacheMu; Lock CacheMu; NewTLSClient; Lock MuLogin;
     PortalDo getLoginPage; PortalDo (postLoginForm submitted_form);
     Unlock MuLogin; Unlock CacheMu] /\
  io_while_held CacheMu false
    (events_since today
       (GetOrCreate (scripted login_page) domain "alice" "secret"
          (NewSessionCache 0) today).2) = true.
Proof. vm_compute. split; reflexivity. Qed.

(** The session of [one_session], made at time 1000, is long past its
    TTL [today]. *)
Lemma C9_cache_lock_scope_witness :
  io_while_held CacheMu false
    (events_since today
       (GetOrCreate (scripted login_page) domain "u" "p" one_session today).2) = true.
Proof.
  refine (proj1 (proj2 (proj2 (proj2
            (C9_cache_lock_scope (scripted login_page) domain "u" "p" alice
               one_session today)) _) _ _ _ _)).
  - right. exists {| client := nobody; createdAt := 1000; lastUsed := 1000 |}.
    split; [apply lookup_singleton_eq | vm_compute; reflexivity].
  - reflexivity.
  - intros i. reflexivity.
  - reflexivity.
  - vm_compute. discriminate.
Defined.

(** *** A client without credentials *)

(** C10. On a client without credentials every operation fails before any
    network request, but not every operation says why: [GetAttendance]
    (like nine others) returns the invalid-credentials error of
    [doRequest] behind "failed to fetch page", while [GetExamSchedule] and
    [GetSemesters] get as far as their [doRequest] and return "failed to
    visit page", an error that mentions neither the login nor the
    credentials. *)
Theorem C10_GetExamSchedule_hides_the_cause :
  reaches_doRequest OpGetExamSchedule = true /\
  perform (scripted login_page) domain OpGetExamSchedule anonymous today
  = (inr "failed to visit page", anonymous, today) /\
  perform (scripted login_page) domain OpGetSemesters anonymous today
  = (inr "failed to visit page", anonymous, today) /\
  perform (scripted login_page) domain OpGetAttendance anonymous today
  = (inr "failed to fetch page: failed to login: invalid credentials", anonymous, today) /\
  Strings.Contains "failed to visit page" ErrFailedLogin = false /\
  Strings.Contains "failed to visit page" "invalid credentials" = false.
Proof. vm_compute. repeat split; reflexivity. Qed.

Example empty_credentials_GetCourses :
  perform (scripted login_page) domain (OpGetCourses "7") anonymous today
  = (inr "failed to fetch page: failed to login: invalid credentials", anonymous, today).
Proof.
  refine (proj1 (proj2 (proj2 (proj2
            (empty_credentials_fail_fast (scripted login_page) domain
               {| Username := ""; Password := "" |} None anonymous today _ _))))
            (OpGetCourses "7") _).
  - reflexivity.
  - reflexivity.
  - reflexivity.
Qed.

End Examples.

(** ** The session cache as a store *)

Section CacheRoundTrips.

Import Server.

Lemma Sub_self (t : Time) : Sub t t = 0.
Proof.
  unfold Sub, minDuration, maxDuration. rewrite Z.sub_diag. reflexivity.
Qed.

(** X1. A session stored by [Set] is what [Get] returns for the same
    credentials at any later moment, exactly as long as the time since
    the [Set] does not exceed the TTL, and nil afterwards; what [Get]
    returns under any other key is what it returned before the [Set]. *)
Theorem Set_then_Get
    (u p : string) (c : Amizone.Client) (sc : SessionCache) (w w' : World) :
  (Get u p (Set_ u p c sc w).1 w').1.1
  = (if ttl sc <? Since (now w') (now w) then None else Some c) /\
  (forall u' p' : string,
     makeKey u' p' <> makeKey u p ->
     (Get u' p' (Set_ u p c sc w).1 w').1.1 = (Get u' p' sc w').1.1).
Proof.
  split.
  - unfold Get, Set_. simpl. rewrite lookup_insert_eq. simpl.
    destruct (ttl sc <? Since (now w') (now w)); reflexivity.
  - intros u' p' Hne. unfold Get, Set_. simpl.
    rewrite lookup_insert_ne by congruence.
    destruct (sessions sc !! makeKey u' p') as [s|]; [|reflexivity].
    destruct (ttl sc <? Since (now w') (createdAt s)); reflexivity.
Qed.

(** X2. After [Delete], [Get] returns nil for the deleted credentials,
    whatever was cached and whenever it is asked; what [Get] returns
    under any other key is not affected. *)
Theorem Delete_then_Get (u p : string) (sc : SessionCache) (w w' : World) :
  (Get u p (Delete u p sc w).1 w').1.1 = None /\
  (forall u' p' : string,
     makeKey u' p' <> makeKey u p ->
     (Get u' p' (Delete u p sc w).1 w').1.1 = (Get u' p' sc w').1.1).
Proof.
  split.
  - unfold Get, Delete. simpl. rewrite lookup_delete_eq. reflexivity.
  - intros u' p' Hne. unfold Get, Delete. simpl.
    rewrite lookup_delete_ne by congruence.
    destruct (sessions sc !! makeKey u' p') as [s|]; [|reflexivity].
    destruct (ttl sc <? Since (now w') (createdAt s)); reflexivity.
Qed.

(** [Get] at each of the moments [ws], one after the other. *)
Definition Gets (u p : string) (ws : list World) (sc : SessionCache) : SessionCache :=
  fold_left (fun sc w => (Get u p sc w).1.2) ws sc.

(** What a [Get] leaves under its key: nothing, or the entry with the
    time of its creation and its client as they were. *)
Lemma Get_keeps_birth (u p : string) (sc : SessionCache) (w : World) (s' : cachedSession) :
  sessions (Get u p sc w).1.2 !! makeKey u p = Some s' ->
  exists s, sessions sc !! makeKey u p = Some s /\
            createdAt s' = createdAt s /\ client s' = client s.
Proof.
  unfold Get. destruct (sessions sc !! makeKey u p) as [s|] eqn:Hk.
  - destruct (ttl sc <? Since (now _) (createdAt s)); simpl.
    + rewrite lookup_delete_eq. discriminate.
    + rewrite lookup_insert_eq. intros [= <-]. exists s. auto.
  - simpl. rewrite Hk. discriminate.
Qed.

Lemma Get_ttl (u p : string) (sc : SessionCache) (w : World) :
  ttl (Get u p sc w).1.2 = ttl sc.
Proof.
  unfold Get. destruct (sessions sc !! makeKey u p) as [s|]; [|reflexivity].
  destruct (ttl sc <? Since (now _) (createdAt s)); reflexivity.
Qed.

Lemma Gets_keeps_birth (u p : string) (ws : list World) (sc : SessionCache)
    (s' : cachedSession) :
  sessions (Gets u p ws sc) !! makeKey u p = Some s' ->
  exists s, sessions sc !! makeKey u p = Some s /\
            createdAt s' = createdAt s /\ client s' = client s.
Proof.
  revert sc. induction ws as [|w ws IH]; intros sc.
  - intros H. exists s'. auto.
  - change (Gets u p (w :: ws) sc) with (Gets u p ws (Get u p sc w).1.2).
    intros H. destruct (IH _ H) as (s1 & H1 & Hc & Hcl).
    destruct (Get_keeps_birth _ _ _ _ _ H1) as (s & Hs & Hc' & Hcl').
    exists s. split; [assumption|]. split; congruence.
Qed.

Lemma Gets_ttl (u p : string) (ws : list World) (sc : SessionCache) :
  ttl (Gets u p ws sc) = ttl sc.
Proof.
  revert sc. induction ws as [|w ws IH]; intros sc; [reflexivity|].
  change (Gets u p (w :: ws) sc) with (Gets u p ws (Get u p sc w).1.2).
  rewrite IH. apply Get_ttl.
Qed.

(** X3. Use does not prolong the life of a session: once the time since
    its creation exceeds the TTL, [Get] returns nil for it, however
    many times and whenever [Get] found it in between. The age is
    counted from [createdAt], which [Get] never changes; [lastUsed] is
    written and never read. *)
Theorem Get_does_not_renew
    (u p : string) (sc : SessionCache) (s : cachedSession) (ws : list World) (w : World) :
  sessions sc !! makeKey u p = Some s ->
  ttl sc < Since (now w) (createdAt s) ->
  (Get u p (Gets u p ws sc) w).1.1 = None.
Proof.
  intros Hk Hage. unfold Get.
  destruct (sessions (Gets u p ws sc) !! makeKey u p) as [s'|] eqn:Hk'; [|reflexivity].
  destruct (Gets_keeps_birth _ _ _ _ _ Hk') as (s0 & Hs0 & Hc & _).
  rewrite Hk in Hs0. injection Hs0 as <-.
  rewrite Gets_ttl, Hc. simpl.
  destruct (Z.ltb_spec (ttl sc) (Since (now w) (createdAt s))); [reflexivity | lia].
Qed.

Lemma Get_does_not_renew_witness :
  (Get "u" "p"
     (Gets "u" "p" [at_ 2000; at_ (1000 + 29 * Minute)] one_session)
     (at_ (1000 + 30 * Minute + 1))).1.1 = None.
Proof.
  apply (Get_does_not_renew "u" "p" one_session
           {| client := nobody; createdAt := 1000; lastUsed := 1000 |}).
  - apply lookup_singleton_eq.
  - vm_compute. reflexivity.
Defined.

Lemma filter_all {A : Type} (f : A -> bool) (l : list A) :
  (forall x, In x l -> f x = true) -> List.filter f l = l.
Proof.
  induction l as [|x l IH]; intros H; simpl; [reflexivity|].
  rewrite (H x (or_introl eq_refl)). f_equal. apply IH.
  intros y Hy. apply H. right. assumption.
Qed.

(** X4. [Stats] never counts more active sessions than sessions, and
    right after [cleanup] every session that is left is active: the two
    counts are both the number of entries. *)
Theorem Stats_after_cleanup (sc : SessionCache) (w : World) :
  ((Stats sc w).1.2 <= (Stats sc w).1.1)%nat /\
  (Stats (cleanup sc w).1 (cleanup sc w).2).1
  = (size (sessions (cleanup sc w).1), size (sessions (cleanup sc w).1)).
Proof.
  split.
  - unfold Stats. simpl. apply filter_length_le.
  - unfold Stats. cbn [fst snd]. rewrite filter_all.
    + rewrite length_map_to_list. reflexivity.
    + intros [k s] Hin. apply list_elem_of_In, elem_of_map_to_list in Hin.
      rewrite cleanup_lookup in Hin. simpl.
      destruct (sessions sc !! k) as [s0|]; [|discriminate].
      destruct (Z.ltb_spec (ttl sc) (Sub (now w) (createdAt s0))); [discriminate|].
      injection Hin as <-. apply Z.leb_le. assumption.
Qed.

Section WithEnv.

Variable E : Env.
Variable AmizoneDomain : string.

(** [NewClientWithOptions] returns a client or an error. *)
Lemma NewClientWithOptions_result
    (cred : Amizone.Credentials) (opts : list Amizone.ClientOption) (w : World) :
  (Amizone.NewClientWithOptions E AmizoneDomain cred opts w).1 <> (None, None).
Proof.
  unfold Amizone.NewClientWithOptions.
  destruct (Amizone.apply_options E opts _ w) as [[err c] w1].
  destruct err; [discriminate|].
  destruct (Amizone.Jar (Amizone.httpClient c)); [|discriminate].
  destruct (Amizone.is_empty cred); [discriminate|].
  destruct (Amizone.login E AmizoneDomain false c w1) as [[e c'] w2]. discriminate.
Qed.

(** X5. [GetOrCreate] returns a client or an error, never both and never
    neither. When it returns an error the cache is as it was: a client
    whose creation or first login failed is not cached. When it returns
    a client, with a TTL that is not negative, that client is in the
    cache under the key of the credentials, and a [Get] that follows at
    once returns it. *)
Theorem GetOrCreate_caches_success_only
    (u p : string) (sc : SessionCache) (w : World) :
  0 <= ttl sc ->
  let r := GetOrCreate E AmizoneDomain u p sc w in
  (forall e, r.1.1.2 = Some e -> r.1.1.1 = None /\ r.1.2 = sc) /\
  (r.1.1.2 = None ->
     exists c, r.1.1.1 = Some c /\ (Get u p r.1.2 r.2).1.1 = Some c).
Proof.
  intros Httl. unfold GetOrCreate.
  set (w1 := emit (RUnlock CacheMu) (emit (RLock CacheMu) w)).
  assert (Hhit : forall s : cachedSession,
            sessions sc !! makeKey u p = Some s ->
            (Since (now w) (createdAt s) <=? ttl sc) = true ->
            (ttl sc <? Since (now w) (createdAt s)) = false).
  { intros s _ H. apply Z.leb_le in H. apply Z.ltb_ge. assumption. }
  destruct (sessions sc !! makeKey u p) as [s|] eqn:Hk.
  - change (now w1) with (now w). change (now (emit (Lock CacheMu) w1)) with (now w).
    destruct (Since (now w) (createdAt s) <=? ttl sc) eqn:Hage.
    + cbn [fst snd]. split; [discriminate|]. intros _. exists (client s).
      split; [reflexivity|]. unfold Get. cbn [sessions set_sessions ttl].
      rewrite lookup_insert_eq. simpl. rewrite (Hhit s eq_refl Hage). reflexivity.
    + destruct (Amizone.NewClientWithOptions E AmizoneDomain _ _ _) as [[c err] w2] eqn:Hnew.
      pose proof (NewClientWithOptions_result
                    {| Amizone.Username := u; Amizone.Password := p |}
                    (Amizone.WithTLSClient ::
                       (if String.eqb (CAPSOLVER_API_KEY E) "" then []
                        else [Amizone.WithCapSolver (CAPSOLVER_API_KEY E)]))
                    (emit (Lock CacheMu) w1)) as Hres.
      rewrite Hnew in Hres. simpl in Hres.
      destruct err as [e|], c as [c|]; cbn [fst snd];
        try (split; [intros e' [= <-]; split; reflexivity | discriminate]).
      * split; [discriminate|]. intros _. exists c. split; [reflexivity|].
        unfold Get. cbn [sessions set_sessions ttl]. rewrite lookup_insert_eq.
        simpl. unfold Since. rewrite Sub_self.
        destruct (Z.ltb_spec (ttl sc) 0); [lia | reflexivity].
      * congruence.
  - destruct (Amizone.NewClientWithOptions E AmizoneDomain _ _ _) as [[c err] w2] eqn:Hnew.
    pose proof (NewClientWithOptions_result
                  {| Amizone.Username := u; Amizone.Password := p |}
                  (Amizone.WithTLSClient ::
                     (if String.eqb (CAPSOLVER_API_KEY E) "" then []
                      else [Amizone.WithCapSolver (CAPSOLVER_API_KEY E)]))
                  (emit (Lock CacheMu) w1)) as Hres.
    rewrite Hnew in Hres. simpl in Hres.
    destruct err as [e|], c as [c|]; cbn [fst snd];
      try (split; [intros e' [= <-]; split; reflexivity | discriminate]).
    + split; [discriminate|]. intros _. exists c. split; [reflexivity|].
      unfold Get. cbn [sessions set_sessions ttl]. rewrite lookup_insert_eq.
      simpl. unfold Since. rewrite Sub_self.
      destruct (Z.ltb_spec (ttl sc) 0); [lia | reflexivity].
    + congruence.
Qed.

End WithEnv.

End CacheRoundTrips.

(** ** What a solver returns, and when *)

Section SolverResults.

Import Capsolver CapsolverClient.

Variable E : Env.

(** A result is a token that is not empty, or an error with an empty
    token. *)
Definition token_or_error (r : string * option string) : Prop :=
  match r.2 with
  | None => r.1 <> ""
  | Some _ => r.1 = ""
  end.

Lemma poll_Return c taskID w token err :
  (poll E c taskID w).1 = Return token err -> token_or_error (token, err).
Proof.
  unfold poll. destruct (getTaskResult_reply E (tick w) taskID) as [d [?|?|?|r]];
    try discriminate.
  destruct (negb (ErrorID r =? 0)); [intros [= <- <-]; reflexivity|].
  destruct (String.eqb (Status r) "ready"); [|discriminate].
  destruct (String.eqb_spec (SolutionToken r) ""); intros [= <- <-]; [reflexivity|].
  assumption.
Qed.

Lemma waitLoop_token_or_error c taskID t0 patience seen contested w :
  token_or_error (waitLoop E c taskID t0 patience seen contested w).1.
Proof.
  funelim (waitLoop E c taskID t0 patience seen contested w).
  - reflexivity.
  - assumption.
  - match goal with
    | H : poll E c taskID ?w0 = (Return _ _, _) |- _ =>
        apply (poll_Return c taskID w0); rewrite H; reflexivity
    end.
Qed.

Lemma attempt_token c task wc ww w token :
  (attempt E c task wc ww w).1 = inl token -> token <> "".
Proof.
  unfold attempt. destruct (createTask E c task w) as [[taskID [e|]] w1]; [discriminate|].
  unfold waitForTaskResult.
  pose proof (waitLoop_token_or_error c taskID (now w1) (ticker_wins E (tick w1)) 0 0 w1) as H.
  destruct (waitLoop E c taskID (now w1) (ticker_wins E (tick w1)) 0 0 w1)
    as [[tok [e|]] w2]; [discriminate|].
  intros [= <-]. exact H.
Qed.

(** X6. [SolveTurnstile] and [SolveRecaptchaV2] return a token that is
    not empty and no error, or an error and the empty token: a caller
    that sees no error holds a token, also when the service says
    "ready" and sends none. *)
Theorem Solve_token_or_error
    (k : Challenge) (c : Client) (websiteURL websiteKey : string) (w : World) :
  token_or_error (Solve E k c websiteURL websiteKey w).1.
Proof.
  rewrite Solve_unroll. unfold attempt_of.
  destruct (attempt E c _ _ _ w) as [[token|e1] w1] eqn:H1.
  { eapply attempt_token. rewrite H1. reflexivity. }
  destruct (attempt E c _ _ _ (sleep_backoff w1)) as [[token|e2] w2] eqn:H2.
  { eapply attempt_token. rewrite H2. reflexivity. }
  destruct (attempt E c _ _ _ (sleep_backoff w2)) as [[token|e3] w3] eqn:H3.
  { eapply attempt_token. rewrite H3. reflexivity. }
  reflexivity.
Qed.

Lemma SolveTurnstile_token c websiteURL websiteKey w token :
  (SolveTurnstile E c websiteURL websiteKey w).1 = (token, None) -> token <> "".
Proof.
  change (SolveTurnstile E c websiteURL websiteKey w)
    with (Solve E Turnstile c websiteURL websiteKey w).
  rewrite Solve_unroll. unfold attempt_of.
  destruct (attempt E c _ _ _ w) as [[tok|e1] w1] eqn:H1.
  { intros [= <-]. eapply attempt_token. rewrite H1. reflexivity. }
  destruct (attempt E c _ _ _ (sleep_backoff w1)) as [[tok|e2] w2] eqn:H2.
  { intros [= <-]. eapply attempt_token. rewrite H2. reflexivity. }
  destruct (attempt E c _ _ _ (sleep_backoff w2)) as [[tok|e3] w3] eqn:H3.
  { intros [= <-]. eapply attempt_token. rewrite H3. reflexivity. }
  discriminate.
Qed.

(** A [select] does not go back in time. *)
Lemma select_later patience e seen contested :
  0 <= e ->
  match select patience e seen contested with
  | TimedOut e' | Ticked e' _ => e <= e'
  end.
Proof.
  intros He. unfold select, pollTimeout, pollInterval, Second.
  change (120 * 1000000000) with 120000000000.
  change (2 * 1000000000) with 2000000000.
  destruct (Z.ltb_spec seen (e / 2000000000));
    destruct (Z.leb_spec 120000000000 e);
    try destruct (Nat.leb_spec patience contested);
    try destruct (Z.compare_spec ((e / 2000000000 + 1) * 2000000000) 120000000000);
    try destruct (Nat.leb_spec patience contested);
    try lia; Z.to_euclidean_division_equations; lia.
Qed.

Lemma poll_now c taskID w : now w <= now (poll E c taskID w).2.
Proof.
  unfold poll. destruct (getTaskResult_reply E (tick w) taskID) as [d [?|?|?|r]];
    simpl; try lia.
  destruct (negb (ErrorID r =? 0)); simpl; [lia|].
  destruct (String.eqb (Status r) "ready"); simpl; [|lia].
  destruct (String.eqb (SolutionToken r) ""); simpl; lia.
Qed.

Lemma waitLoop_now c taskID t0 patience seen contested w :
  t0 <= now w -> now w <= now (waitLoop E c taskID t0 patience seen contested w).2.
Proof.
  funelim (waitLoop E c taskID t0 patience seen contested w); intros Ht0.
  - match goal with
    | H : select ?p ?e0 ?s ?k = TimedOut _ |- _ =>
        pose proof (select_later p e0 s k ltac:(lia)) as Hl; rewrite H in Hl
    end.
    simpl. lia.
  - match goal with
    | H : select ?p ?e0 ?s ?k = Ticked _ _ |- _ =>
        pose proof (select_later p e0 s k ltac:(lia)) as Hl; rewrite H in Hl
    end.
    match goal with
    | H : poll E c taskID ?w0 = (KeepWaiting, _) |- _ =>
        pose proof (poll_now c taskID w0) as Hp; rewrite H in Hp; simpl in Hp
    end.
    match goal with IH : _ -> _ <= _ |- _ => specialize (IH ltac:(lia)) end.
    lia.
  - match goal with
    | H : select ?p ?e0 ?s ?k = Ticked _ _ |- _ =>
        pose proof (select_later p e0 s k ltac:(lia)) as Hl; rewrite H in Hl
    end.
    match goal with
    | H : poll E c taskID ?w0 = (Return _ _, _) |- _ =>
        pose proof (poll_now c taskID w0) as Hp; rewrite H in Hp; simpl in Hp
    end.
    simpl. lia.
Qed.

(** X7. [waitForTaskResult] never returns sooner than two seconds after
    it was called, whatever the service answers: the first thing the
    loop can receive is the first tick of the ticker. So no token is
    had in less than two seconds after the task was created. *)
Theorem waitForTaskResult_takes_two_seconds (c : Client) (taskID : string) (w : World) :
  now w + pollInterval <= now (waitForTaskResult E c taskID w).2.
Proof.
  unfold waitForTaskResult.
  remember (now w) as t0 eqn:Ht0.
  remember (ticker_wins E (tick w)) as patience eqn:Hp.
  remember 0 as seen eqn:Hseen.
  remember 0%nat as contested eqn:Hcontested.
  funelim (waitLoop E c taskID t0 patience seen contested w).
  - exfalso.
    match goal with
    | H : select _ _ _ _ = TimedOut _ |- _ => pose proof H as Hstart
    end.
    rewrite Z.sub_diag, select_start in Hstart. discriminate Hstart.
  - match goal with
    | H : select _ _ _ _ = Ticked _ _ |- _ => pose proof H as Hstart
    end.
    rewrite Z.sub_diag, select_start in Hstart. injection Hstart as <- <-.
    match goal with
    | H : poll E c taskID ?w0 = (KeepWaiting, _) |- _ =>
        pose proof (poll_now c taskID w0) as Hpn; rewrite H in Hpn; simpl in Hpn
    end.
    match goal with
    | |- _ <= now (waitLoop _ _ _ ?t0 ?p ?s ?k ?w1).2 =>
        pose proof (waitLoop_now c taskID t0 p s k w1) as Hn
    end.
    unfold pollInterval, Second in *. lia.
  - match goal with
    | H : select _ _ _ _ = Ticked _ _ |- _ => pose proof H as Hstart
    end.
    rewrite Z.sub_diag, select_start in Hstart. injection Hstart as <- <-.
    match goal with
    | H : poll E c taskID ?w0 = (Return _ _, _) |- _ =>
        pose proof (poll_now c taskID w0) as Hpn; rewrite H in Hpn; simpl in Hpn
    end.
    simpl. lia.
Qed.

(** The first thing [waitForTaskResult] does is to poll. *)
Lemma waitForTaskResult_trace (c : Client) (taskID : string) (w : World) :
  exists evs,
    trace (waitForTaskResult E c taskID w).2
    = (trace w ++ PostGetTaskResult (apiKey c) taskID :: evs)%list /\
    Forall (fun ev => ev = PostGetTaskResult (apiKey c) taskID) evs.
Proof.
  unfold waitForTaskResult.
  remember (now w) as t0 eqn:Ht0.
  remember (ticker_wins E (tick w)) as patience eqn:Hp.
  remember 0 as seen eqn:Hseen.
  remember 0%nat as contested eqn:Hcontested.
  funelim (waitLoop E c taskID t0 patience seen contested w).
  - exfalso.
    match goal with
    | H : select _ _ _ _ = TimedOut _ |- _ => pose proof H as Hstart
    end.
    rewrite Z.sub_diag, select_start in Hstart. discriminate Hstart.
  - match goal with
    | H : poll E c taskID ?w0 = (KeepWaiting, ?w1) |- _ =>
        pose proof (poll_trace E c taskID w0) as Hpt; rewrite H in Hpt; simpl in Hpt
    end.
    match goal with
    | |- context [waitLoop _ _ _ ?t0 ?p ?s ?k ?w1] =>
        destruct (waitLoop_trace E c taskID t0 p s k w1) as (evs & Ht & Hall)
    end.
    exists evs. rewrite Ht, Hpt, <- app_assoc. split; [reflexivity | exact Hall].
  - match goal with
    | H : poll E c taskID ?w0 = (Return _ _, _) |- _ =>
        pose proof (poll_trace E c taskID w0) as Hpt; rewrite H in Hpt; simpl in Hpt
    end.
    exists []. split; [exact Hpt | constructor].
Qed.

(** X22. One pass through the retry loop of a solver sends one
    [createTask] with the key of the client and then asks for the
    result of the task it has just been given, and of no other: when
    the task could not be created it asks for nothing and goes on to
    the next attempt, and when it was created the task has a name and
    there is at least one poll. *)
Theorem attempt_polls_its_own_task
    (c : Client) (task : Task) (wrapCreate wrapWait : string) (w : World) :
  let created := (createTask E c task w).1 in
  exists polls,
    events_since w (attempt E c task wrapCreate wrapWait w).2
    = PostCreateTask (apiKey c) task :: polls /\
    Forall (fun ev => ev = PostGetTaskResult (apiKey c) created.1) polls /\
    (created.2 <> None -> polls = []) /\
    (created.2 = None -> polls <> [] /\ created.1 <> "").
Proof.
  cbv zeta. unfold attempt. pose proof (createTask_trace E c task w) as Hc.
  assert (Hid : (createTask E c task w).1.2 = None -> (createTask E c task w).1.1 <> "").
  { unfold createTask. destruct (createTask_reply E (tick w) task) as [d [?|?|?|r]];
      try discriminate.
    destruct (negb (create_ErrorID r =? 0)); [discriminate|].
    destruct (String.eqb_spec (TaskID r) ""); [discriminate|]. intros _. assumption. }
  destruct (createTask E c task w) as [[taskID [e|]] w1]; cbn [fst snd] in *.
  - exists []. split; [apply events_since_app; exact Hc|].
    split; [constructor|]. split; [reflexivity | discriminate].
  - destruct (waitForTaskResult_trace c taskID w1) as (evs & Ht & Hall).
    exists (PostGetTaskResult (apiKey c) taskID :: evs).
    split.
    { apply events_since_app.
      destruct (waitForTaskResult E c taskID w1) as [[token [e|]] w2];
        cbn [fst snd] in *; rewrite Ht, Hc, <- app_assoc; reflexivity. }
    split; [constructor; [reflexivity | exact Hall]|].
    split; [congruence|]. intros _. split; [discriminate | apply Hid; reflexivity].
Qed.

End SolverResults.

(** ** More about [login] and [doRequest] *)

Section LoginOutcomes.

Import Amizone.

Variable E : Env.
Variable AmizoneDomain : string.

(** Case analysis on the path that a call to [login] takes. *)
Ltac paths_of_login force a w :=
  unfold login;
  generalize (login_locked_Path E AmizoneDomain force a (emit (Lock MuLogin) w));
  generalize (login_locked E AmizoneDomain force a (emit (Lock MuLogin) w));
  let res := fresh "res" in
  let Hpath := fresh "Hpath" in
  intros res Hpath; destruct Hpath.

Ltac requests_added :=
  cbn [fst snd];
  rewrite ?requests_emit_unlock, ?requests_world_after;
  repeat match goal with
         | H : solveCaptcha _ _ _ _ _ _ = (_, ?w2) |- context [requests (trace ?w2)] =>
             rewrite (requests_solved _ _ _ _ _ _ _ _ H)
         end;
  rewrite ?requests_world_after, ?requests_emit_lock.

Lemma list_neq_self_app {A} (l l' : list A) : l' <> [] -> (l ++ l')%list <> l.
Proof.
  intros Hne H. apply Hne. apply (app_inv_head l). rewrite app_nil_r. exact H.
Qed.

(** X8. A login that returns no error, when it was forced or went to
    the portal at all, did all of this: it asked for the login page and
    submitted the form, and nothing else; the submission was answered
    from a path other than the login path by a page that shows a
    logged-in user; the cookie jar holds the session cookies; and the
    client records the time of the call as that of its last attempt and
    the time of the return as that of its last successful login. *)
Theorem login_success_means_session (force : bool) (a : Client) (w : World) :
  let result := login E AmizoneDomain force a w in
  let a' := result.1.2 in
  let w' := result.2 in
  result.1.1 = None ->
  force = true \/ requests (trace w') <> requests (trace w) ->
  IsLoggedIn (httpClient a') = true /\
  didLogin a' = true /\
  lastAttempt a' = now w /\
  lastLoginSuccess a' = now w' /\
  exists data r,
    requests (trace w') = (requests (trace w) ++ [getLoginPage; postLoginForm data])%list /\
    outcome (portal E (S (List.length (requests (trace w)))) (postLoginForm data)) = inr r /\
    URLPath r <> loginRequestEndpoint /\
    Parse.IsLoggedIn (Body r) = true.
Proof.
  cbv zeta. paths_of_login force a w; cbn [fst snd]; try discriminate.
  - (* Reuse *)
    intros _ [-> | Hreq]; [discriminate|].
    exfalso. apply Hreq. requests_added. reflexivity.
  - (* Skip *)
    intros _ [-> | Hreq]; [discriminate|].
    exfalso. apply Hreq. destruct (didLogin a); requests_added; reflexivity.
  - (* Submitted *)
    match goal with H : Sent _ _ _ _ _ _ |- _ => inversion H; subst; clear H end;
      try discriminate.
    match goal with H : usable (exchange _ _ ?w2) = Some _ |- _ => rename H into Hpost end.
    unfold exchange in Hpost.
    match goal with
    | Hs : solveCaptcha _ _ _ _ _ _ = _ |- _ =>
        rewrite (requests_solved _ _ _ _ _ _ _ _ Hs), requests_world_after,
                requests_emit_lock, length_app in Hpost; simpl in Hpost;
        rewrite Nat.add_1_r in Hpost
    end.
    destruct (String.eqb_spec (URLPath r) loginRequestEndpoint) as [Hp|Hp];
      [discriminate|].
    destruct (Parse.IsLoggedIn (Body r)) eqn:Hbody; [|discriminate].
    destruct (IsLoggedIn (httpClient (client_after E (postLoginForm data) a1 w2))) eqn:Hjar;
      [|discriminate].
    cbn [andb fst snd]. intros _ _.
    split; [exact Hjar|]. split; [reflexivity|]. split; [reflexivity|].
    split; [reflexivity|].
    exists data, r. split; [requests_added; rewrite <- app_assoc; reflexivity|].
    split; [|split; assumption].
    unfold usable in Hpost.
    destruct (outcome (portal E _ (postLoginForm data))) as [e|r'];
      [discriminate|].
    destruct ((StatusCode r' =? StatusOK) && BodyReadable r'); [|discriminate].
    congruence.
Qed.

(** *** The challenge fields of the form *)

Lemma loginRequestData_fixed a f :
  loginRequestData a f !! "honeypot" = Some "" /\
  loginRequestData a f !! "_QString" = Some "" /\
  loginRequestData a f !! "RecaptchaToken" = None /\
  loginRequestData a f !! "cf-turnstile-response" = None.
Proof.
  unfold loginRequestData, verificationTokenName.
  destruct (Parse.nonempty (Parse.Salt f));
    destruct (Parse.nonempty (Parse.SecretNumber f));
    destruct (Parse.nonempty (Parse.Signature f));
    destruct (Parse.nonempty (Parse.Challenge f));
    repeat split; simplify_map_eq; reflexivity.
Qed.

(** What [solveCaptcha] hands on: the form as it was, or the form with
    the token of the solver in it. *)
Lemma solveCaptcha_fields a f base w data w2 :
  solveCaptcha E AmizoneDomain a f base w = (inl data, w2) ->
  (data = base /\ w2 = w /\
   (capsolverClient a = None \/ Parse.TurnstileSiteKey f = "")) \/
  (exists token,
     token <> "" /\ capsolverClient a <> None /\ Parse.TurnstileSiteKey f <> "" /\
     data = <["cf-turnstile-response" := token]>
              (<["_QString" := "test"]> (<["RecaptchaToken" := token]> base))).
Proof.
  unfold solveCaptcha. intros H.
  destruct (capsolverClient a) as [solver|]; [|injection H as <- <-; left; auto].
  destruct (Parse.nonempty (Parse.TurnstileSiteKey f)) eqn:Hkey.
  - pose proof (SolveTurnstile_token E solver (BaseURL AmizoneDomain)
                  (Parse.TurnstileSiteKey f) w) as Htok.
    destruct (CapsolverClient.SolveTurnstile E solver (BaseURL AmizoneDomain)
                (Parse.TurnstileSiteKey f) w) as [[token [e|]] w1]; [discriminate|].
    injection H as <- _. right. exists token.
    split; [apply Htok; reflexivity|]. split; [discriminate|].
    split; [apply nonempty_spec; assumption | reflexivity].
  - injection H as <- <-. left. split; [reflexivity|]. split; [reflexivity|].
    right. destruct (Parse.TurnstileSiteKey f); [reflexivity | discriminate].
Qed.

(** X9. Whatever form [login] submits has an empty [honeypot] field,
    and its challenge fields are all or nothing: either [_QString] is
    empty and the form has neither [RecaptchaToken] nor
    [cf-turnstile-response], or the client has a solver, [_QString] is
    "test" and the two fields hold one and the same token, which is not
    empty. *)
Theorem submitted_form_challenge_fields
    (force : bool) (a : Client) (w : World) (data : Values) :
  let w' := (login E AmizoneDomain force a w).2 in
  requests (trace w') = (requests (trace w) ++ [getLoginPage; postLoginForm data])%list ->
  data !! "honeypot" = Some "" /\
  ((data !! "_QString" = Some "" /\
    data !! "RecaptchaToken" = None /\
    data !! "cf-turnstile-response" = None) \/
   (exists token,
      token <> "" /\ capsolverClient a <> None /\
      data !! "_QString" = Some "test" /\
      data !! "RecaptchaToken" = Some token /\
      data !! "cf-turnstile-response" = Some token)).
Proof.
  cbv zeta.
  assert (Hone : forall l : list Request,
            l = (l ++ [getLoginPage; postLoginForm data])%list -> False).
  { intros l H. apply app_same_nil in H. discriminate H. }
  assert (Htwo : forall l : list Request,
            (l ++ [getLoginPage])%list = (l ++ [getLoginPage; postLoginForm data])%list ->
            False).
  { intros l H. apply app_inv_head in H. discriminate H. }
  paths_of_login force a w; requests_added; intros Hreq;
    try (exfalso; apply (Hone _ Hreq)); try (exfalso; apply (Htwo _ Hreq)).
  assert (Hdata : data0 = data).
  { match goal with H : Sent _ _ _ _ _ _ |- _ => inversion H; subst; clear H end;
      revert Hreq;
      repeat match goal with
             | |- context [if ?b then _ else _] => destruct b
             end; requests_added; intros Hreq;
      try (exfalso; apply (Htwo _ Hreq));
      rewrite <- app_assoc in Hreq; apply app_inv_head in Hreq;
      injection Hreq as Hd; unfold postLoginForm in Hd; congruence. }
  subst data0. clear Hreq.
  destruct (loginRequestData_fixed a1 f) as (Hh & Hq & Hr & Hc).
  match goal with
  | H : solveCaptcha _ _ _ _ _ _ = (inl _, _) |- _ =>
      destruct (solveCaptcha_fields _ _ _ _ _ _ H)
        as [(-> & _ & _) | (token & Htok & Hsolver & _ & ->)]
  end.
  - split; [assumption|]. left. auto.
  - split; [rewrite !lookup_insert_ne by discriminate; assumption|].
    right. exists token. split; [assumption|]. split; [exact Hsolver|].
    split; [|split]; simplify_map_eq; reflexivity.
Qed.

(** X10. A client without a solver neither sleeps nor contacts the
    solving service when it logs in: the events of [login] are the
    lock, requests to the portal and the unlock. *)
Theorem login_without_solver (force : bool) (a : Client) (w : World) :
  capsolverClient a = None ->
  forallb (fun ev => negb (solver_event ev))
    (events_since w (login E AmizoneDomain force a w).2) = true.
Proof.
  intros Hnone.
  assert (Hsolve : forall a1 f base w1 res w2,
            capsolverClient a1 = None ->
            solveCaptcha E AmizoneDomain a1 f base w1 = (res, w2) -> w2 = w1).
  { intros a1 f base w1 res w2 Ha1. unfold solveCaptcha. rewrite Ha1. congruence. }
  assert (Hevents : forall (w' : World) (evs : list Event),
            trace w' = (trace w ++ evs)%list ->
            forallb (fun ev => negb (solver_event ev)) evs = true ->
            forallb (fun ev => negb (solver_event ev)) (events_since w w') = true).
  { intros w' evs Ht Hevs. rewrite (events_since_app _ _ _ Ht). exact Hevs. }
  paths_of_login force a w; cbn [fst snd];
    try match goal with
        | Hs : solveCaptcha _ _ _ _ _ _ = _ |- _ =>
            apply Hsolve in Hs; [subst w2 | exact Hnone]
        end;
    try match goal with H : Sent _ _ _ _ _ _ |- _ => inversion H; subst; clear H end;
    repeat match goal with
           | |- context [if ?b then _ else _] => destruct b
           end;
    (eapply Hevents; [simpl; rewrite <- ?app_assoc; reflexivity | reflexivity]).
Qed.

(** *** After a failed attempt *)

(** What an attempt that got past the two checks and failed leaves in
    the client. *)
Lemma failed_attempt_client force a w :
  can_reuse force a w = false -> too_soon force a w = false ->
  (login E AmizoneDomain force a w).1.1 <> None ->
  lastAttempt (login E AmizoneDomain force a w).1.2 = now w /\
  didLogin (login E AmizoneDomain force a w).1.2 = didLogin a /\
  lastLoginSuccess (login E AmizoneDomain force a w).1.2 = lastLoginSuccess a.
Proof.
  intros Hreuse Hsoon.
  paths_of_login force a w; cbn [fst snd]; intros Herr;
    try (change (can_reuse force a w = true) in H; congruence);
    try (change (too_soon force a w = true) in H0; congruence);
    try (repeat split; reflexivity).
  match goal with H : Sent _ _ _ _ _ _ |- _ => inversion H; subst; clear H end;
    try (repeat split; reflexivity).
  revert Herr.
  repeat match goal with
         | |- context [if ?b then _ else _] => destruct b
         end; cbn [fst snd]; intros Herr; try congruence; repeat split; reflexivity.
Qed.

(** X11. After an attempt that went past the reuse and throttle checks
    and failed, on a client that never logged in, a [login(false)]
    that starts less than two minutes after the failed attempt began
    returns "login throttled" and does nothing else: it sends nothing
    and leaves the client as it is. *)
Theorem failed_attempt_throttles_next (force : bool) (a : Client) (w w2 : World) :
  let a' := (login E AmizoneDomain force a w).1.2 in
  can_reuse force a w = false -> too_soon force a w = false ->
  (login E AmizoneDomain force a w).1.1 <> None ->
  didLogin a = false ->
  Hour <= Since (now w2) (lastLoginSuccess a) ->
  Since (now w2) (now w) < 2 * Minute ->
  login E AmizoneDomain false a' w2
  = (Some ErrLoginThrottled, a', emit (Unlock MuLogin) (emit (Lock MuLogin) w2)).
Proof.
  intros a' Hreuse Hsoon Herr Hdid Hold Hnear.
  destruct (failed_attempt_client force a w Hreuse Hsoon Herr) as (Hlast & Hd & Hs).
  fold a' in Hlast, Hd, Hs. clearbody a'.
  unfold login, login_locked. cbn [now emit negb andb].
  rewrite Hlast, Hd, Hs, Hdid.
  destruct (Z.ltb_spec (Since (now w2) (lastLoginSuccess a)) Hour); [lia|].
  rewrite andb_false_r.
  destruct (Z.ltb_spec (Since (now w2) (now w)) (Minute * 2)); [reflexivity | lia].
Qed.

(** *** How much [doRequest] asks of the portal *)

(** The world [w'] comes after [w] with at most [n] more requests. *)
Definition adds (n : nat) (w w' : World) : Prop :=
  exists reqs,
    requests (trace w') = (requests (trace w) ++ reqs)%list /\ (List.length reqs <= n)%nat.

Lemma adds_refl n w : adds n w w.
Proof. exists []. rewrite app_nil_r. split; [reflexivity | simpl; lia]. Qed.

Lemma adds_trans n m k w w' w'' :
  adds n w w' -> adds m w' w'' -> (n + m <= k)%nat -> adds k w w''.
Proof.
  intros (l1 & H1 & Hn) (l2 & H2 & Hm) Hk. exists (l1 ++ l2)%list.
  rewrite H2, H1, <- app_assoc, length_app. split; [reflexivity | lia].
Qed.

Lemma adds_emit ev w :
  (forall req, ev <> PortalDo req) -> adds 0 w (emit ev w).
Proof.
  intros Hev. exists []. simpl. rewrite requests_app.
  split; [|simpl; lia]. f_equal. destruct ev; try reflexivity.
  exfalso. apply (Hev req). reflexivity.
Qed.

Lemma send_adds a method endpoint body w :
  adds 1 w (send E AmizoneDomain a method endpoint body w).2.
Proof.
  unfold send. destruct (negb (request_ok E method _)); [apply adds_refl|].
  set (req := {| Method := method; Endpoint := endpoint; Form := body |}).
  assert (Hw : adds 1 w (pass (Z.of_N (took (portal E (List.length (requests (trace w))) req)))
                           (emit (PortalDo req) w))).
  { exists [req]. simpl. rewrite requests_app. split; [reflexivity | simpl; lia]. }
  destruct (outcome (portal E (List.length (requests (trace w))) req)) as [e|r]; [exact Hw|].
  destruct (negb (StatusCode r =? StatusOK)); [exact Hw|].
  destruct (negb (BodyReadable r)); exact Hw.
Qed.

Lemma doRequest_noLogin_adds a method endpoint body w :
  adds 1 w (doRequest_noLogin E AmizoneDomain a method endpoint body w).2.
Proof.
  unfold doRequest_noLogin. destruct (is_empty (credentials a)); [apply adds_refl|].
  apply send_adds.
Qed.

Lemma login_adds force a w : adds 2 w (login E AmizoneDomain force a w).2.
Proof.
  destruct (login_requests E AmizoneDomain force a w) as [H | [H | (data & H)]];
    cbv zeta in H.
  - exists []. rewrite app_nil_r. split; [exact H | simpl; lia].
  - exists [getLoginPage]. split; [exact H | simpl; lia].
  - exists [getLoginPage; postLoginForm data]. split; [exact H | simpl; lia].
Qed.

Lemma doRequest_adds tryLogin a method endpoint body w :
  adds 4 w (doRequest E AmizoneDomain tryLogin a method endpoint body w).2.
Proof.
  unfold doRequest. destruct (is_empty (credentials a)); [apply adds_refl|].
  assert (Hlocks : adds 0 w (emit (Unlock MuLogin) (emit (Lock MuLogin) w))).
  { eapply adds_trans; [apply adds_emit | apply adds_emit |]; try discriminate. lia. }
  destruct tryLogin; unfold DidLogin; cbn [andb negb].
  - destruct (didLogin a); cbn [negb].
    + (* the request, and a forced login and a replay when it shows no session *)
      pose proof (send_adds a method endpoint body
                    (emit (Unlock MuLogin) (emit (Lock MuLogin) w))) as Hsend.
      destruct (send E AmizoneDomain a method endpoint body _) as [[[r|e] a1] w1];
        cbn [snd andb] in Hsend |- *;
        [|eapply adds_trans; [exact Hlocks | exact Hsend | lia]].
      destruct (negb (is_empty (credentials a1)) && negb (Parse.IsLoggedIn (Body r)));
        [|eapply adds_trans; [exact Hlocks | exact Hsend | lia]].
      pose proof (login_adds true a1 w1) as Hlogin.
      destruct (login E AmizoneDomain true a1 w1) as [[[e|] a2] w2];
        cbn [snd] in Hlogin |- *.
      * refine (adds_trans 0 3 4 _ _ _ Hlocks (adds_trans 1 2 3 _ _ _ Hsend Hlogin _) _); lia.
      * pose proof (doRequest_noLogin_adds a2 method endpoint (drained body) w2) as Hreplay.
        refine (adds_trans 0 4 4 _ _ _ Hlocks
                  (adds_trans 1 3 4 _ _ _ Hsend
                     (adds_trans 2 1 3 _ _ _ Hlogin Hreplay _) _) _); lia.
    + (* the first login, then the request *)
      pose proof (login_adds false a (emit (Unlock MuLogin) (emit (Lock MuLogin) w)))
        as Hlogin.
      destruct (login E AmizoneDomain false a _) as [[[e|] a1] w1];
        cbn [snd] in Hlogin |- *.
      * eapply adds_trans; [exact Hlocks | exact Hlogin | lia].
      * pose proof (send_adds a1 method endpoint body w1) as Hsend.
        destruct (send E AmizoneDomain a1 method endpoint body w1) as [[[r|e] a2] w2];
          cbn [snd andb] in Hsend |- *;
          (refine (adds_trans 0 3 4 _ _ _ Hlocks (adds_trans 2 1 3 _ _ _ Hlogin Hsend _) _);
           lia).
  - pose proof (send_adds a method endpoint body w) as Hsend.
    destruct (send E AmizoneDomain a method endpoint body w) as [[[r|e] a1] w1];
      cbn [snd andb] in Hsend |- *;
      (refine (adds_trans 1 0 4 _ _ _ Hsend (adds_refl 0 _) _); lia).
Qed.

Lemma fetch_adds a method endpoint body wrap w :
  adds 4 w (fetch E AmizoneDomain a method endpoint body wrap w).2.
Proof.
  unfold fetch. pose proof (doRequest_adds true a method endpoint body w) as H.
  destruct (doRequest E AmizoneDomain true a method endpoint body w) as [[[r|e] a1] w1];
    exact H.
Qed.

(** X12. A call of [doRequest] asks the portal for at most four
    things, whatever the portal answers: the request itself, and when
    the answer shows no session, one forced login (the login page and
    the form) and one replay of the request; a first login takes the
    place of the forced one. So each of the operations that call
    [doRequest] once makes at most four requests, and
    [RegisterWifiMac], which calls it twice, at most eight. The
    requests made before are left as they are. *)
Theorem doRequest_at_most_four_requests :
  (forall (tryLogin : bool) (a : Client) (method endpoint : string)
          (body : option Values) (w : World),
     exists reqs,
       requests (trace (doRequest E AmizoneDomain tryLogin a method endpoint body w).2)
       = (requests (trace w) ++ reqs)%list /\
       (List.length reqs <= 4)%nat) /\
  (forall (op : Operation) (a : Client) (w : World),
     exists reqs,
       requests (trace (perform E AmizoneDomain op a w).2)
       = (requests (trace w) ++ reqs)%list /\
       (List.length reqs <= 4)%nat) /\
  (forall (parse_WifiMacInfo : Parse.Document -> WifiMacInfo + string)
          (valid : bool) (addr : string) (bypassLimit : bool) (a : Client) (w : World),
     exists reqs,
       requests
         (trace (RegisterWifiMac E AmizoneDomain parse_WifiMacInfo valid addr
                   bypassLimit a w).2)
       = (requests (trace w) ++ reqs)%list /\
       (List.length reqs <= 8)%nat).
Proof.
  split; [|split].
  - intros. apply doRequest_adds.
  - intros op a w. change (adds 4 w (perform E AmizoneDomain op a w).2).
    destruct op; simpl;
      unfold GetAttendance, GetCurrentExaminationResult, GetExaminationResult,
        GetClassSchedule, GetExamSchedule, GetSemesters, GetCourses, GetCurrentCourses,
        GetUserProfile, GetWiFiMacInformation, RemoveWifiMac;
      repeat match goal with
             | |- context [if ?b then _ else _] => destruct b
             end;
      try apply fetch_adds; apply adds_refl.
  - intros parse_WifiMacInfo valid addr bypassLimit a w.
    change (adds 8 w (RegisterWifiMac E AmizoneDomain parse_WifiMacInfo valid addr
                        bypassLimit a w).2).
    unfold RegisterWifiMac. destruct (negb valid); [apply adds_refl|].
    unfold GetWiFiMacInformation.
    pose proof (fetch_adds a MethodGet getWifiMacsEndpoint None failedToFetch w) as Hget.
    destruct (fetch E AmizoneDomain a MethodGet getWifiMacsEndpoint None failedToFetch w)
      as [[[response|err] a1] w1]; cbn [snd] in Hget |- *;
      [|refine (adds_trans 4 0 8 _ _ _ Hget (adds_refl 0 _) _); lia].
    assert (Hstop : adds 8 w w1)
      by (refine (adds_trans 4 0 8 _ _ _ Hget (adds_refl 0 _) _); lia).
    destruct (parse_WifiMacInfo (Body response)) as [wifiInfo|err]; [|exact Hstop].
    destruct (IsRegistered wifiInfo addr); [exact Hstop|].
    destruct (negb (HasFreeSlot wifiInfo) && negb bypassLimit); [exact Hstop|].
    destruct (negb (HasFreeSlot wifiInfo)
              && (List.length (RegisteredAddresses wifiInfo) =? 0)%nat); [exact Hstop|].
    match goal with
    | |- context [doRequest E AmizoneDomain true a1 ?m ?e ?b w1] =>
        pose proof (doRequest_adds true a1 m e b w1) as Hpost;
        destruct (doRequest E AmizoneDomain true a1 m e b w1) as [[[res|err] a2] w2]
    end; cbn [snd] in Hpost.
    + assert (Hdone : adds 8 w w2)
        by (refine (adds_trans 4 4 8 _ _ _ Hget Hpost _); lia).
      destruct bypassLimit; [exact Hdone|].
      destruct (parse_WifiMacInfo (Body res)) as [macs|err]; [|exact Hdone].
      destruct (IsRegistered macs addr); exact Hdone.
    + refine (adds_trans 4 4 8 _ _ _ Hget Hpost _); lia.
Qed.

(** *** Options *)

Lemma apply_option_requests opt c w :
  requests (trace (apply_option E opt c w).2) = requests (trace w).
Proof.
  destruct opt as [|apiKey]; simpl.
  - destruct (tls_client E (tick w)); simpl; rewrite requests_app; apply app_nil_r.
  - destruct (String.eqb apiKey ""); reflexivity.
Qed.

Lemma apply_options_empty_key opts :
  In (WithCapSolver "") opts ->
  forall c w, exists e c' w',
    apply_options E opts c w = (Some e, c', w') /\
    requests (trace w') = requests (trace w).
Proof.
  induction opts as [|opt opts IH]; intros Hin c w; [destruct Hin|].
  simpl. pose proof (apply_option_requests opt c w) as Hreq.
  destruct (apply_option E opt c w) as [[[e|] c1] w1] eqn:Hopt; simpl in Hreq.
  - eauto.
  - destruct Hin as [-> | Hin]; [simpl in Hopt; discriminate|].
    destruct (IH Hin c1 w1) as (e & c' & w' & -> & Hreq').
    exists e, c', w'. split; [reflexivity | congruence].
Qed.

(** X13. [NewClientWithOptions] with a [WithCapSolver] option whose API
    key is empty, among whatever other options, returns an error and
    no client, and has asked nothing of the portal: the options are
    applied, and checked, before the first login. *)
Theorem empty_solver_key_is_rejected
    (cred : Credentials) (opts : list ClientOption) (w : World) :
  In (WithCapSolver "") opts ->
  let result := NewClientWithOptions E AmizoneDomain cred opts w in
  result.1.1 = None /\ result.1.2 <> None /\
  requests (trace result.2) = requests (trace w).
Proof.
  intros Hin. cbv zeta. unfold NewClientWithOptions.
  destruct (apply_options_empty_key opts Hin
              (newClient {| Jar := Some fresh_jar |} cred) w)
    as (e & c' & w' & -> & Hreq).
  split; [reflexivity|]. split; [discriminate | exact Hreq].
Qed.

End LoginOutcomes.

(** ** The screenshot limiter *)

Section LimiterProperties.

Import Screenshot.

Lemma Reserve_granted (u : string) (t : Time) (l : attendanceScreenshotLimiter)
    (r : Release) (l1 : attendanceScreenshotLimiter) :
  Reserve u t l = (inl r, l1) ->
  r = {| user := u; alreadyReleased := false |} /\
  l1 = set_lastByUser (<[u := t]> (lastByUser l)) l.
Proof.
  unfold Reserve. destruct (lastByUser l !! u) as [last|].
  - destruct (Before t (Add last (cooldown l))); [discriminate|].
    intros [= <- <-]. split; reflexivity.
  - intros [= <- <-]. split; reflexivity.
Qed.

(** X14. After a reservation was granted at [t1] and released with
    success, a [Reserve] for the same user at a later time [t2] is
    refused as long as [t2] is before [t1] plus the cool-down, with
    exactly the time that is left as [retryAfter], and leaves the
    limiter as it is; from [t1] plus the cool-down on it is granted. *)
Theorem Reserve_respects_cooldown
    (u : string) (t1 t2 : Time) (l : attendanceScreenshotLimiter)
    (r : Release) (l1 : attendanceScreenshotLimiter) :
  Reserve u t1 l = (inl r, l1) ->
  cooldown l <= maxDuration ->
  t1 <= t2 ->
  let l2 := (call r true l1).2 in
  (t2 < t1 + cooldown l -> Reserve u t2 l2 = (inr (t1 + cooldown l - t2), l2)) /\
  (t1 + cooldown l <= t2 -> exists r', (Reserve u t2 l2).1 = inl r').
Proof.
  intros Hres Hcd Hle. destruct (Reserve_granted _ _ _ _ _ Hres) as [-> ->].
  cbv zeta. unfold call. simpl. unfold Reserve. simpl.
  rewrite lookup_insert_eq. unfold Before, Add. split.
  - intros Hlt. destruct (Z.ltb_spec t2 (t1 + cooldown l)); [|lia].
    rewrite Sub_exact; [reflexivity|]. unfold minDuration, maxDuration in *. lia.
  - intros Hge. destruct (Z.ltb_spec t2 (t1 + cooldown l)); [lia|].
    eexists. reflexivity.
Qed.

(** X15. A reservation released with failure is gone: the next
    [Reserve] for the user is granted whenever it comes. And a release
    function works once: a second call, with whatever argument, changes
    nothing. *)
Theorem release_failure_frees_user
    (u : string) (t1 t2 : Time) (l : attendanceScreenshotLimiter)
    (r : Release) (l1 : attendanceScreenshotLimiter) :
  Reserve u t1 l = (inl r, l1) ->
  (exists r', (Reserve u t2 (call r false l1).2).1 = inl r') /\
  (forall (first second : bool) (l' : attendanceScreenshotLimiter),
     call (call r first l1).1 second l' = ((call r first l1).1, l')).
Proof.
  intros Hres. destruct (Reserve_granted _ _ _ _ _ Hres) as [-> ->]. split.
  - unfold call, Reserve. simpl. rewrite lookup_delete_eq. eexists. reflexivity.
  - intros first second l'. reflexivity.
Qed.

(** X16. A release function deletes the entry of its user, not its own
    reservation: when a first reservation is released with failure
    after a second one for the same user was granted, the second one is
    lost, and a third [Reserve] is granted at once. *)
Theorem late_release_cancels_newer_reservation
    (u : string) (t1 t2 t3 : Time) (l : attendanceScreenshotLimiter)
    (r1 r2 : Release) (l1 l2 : attendanceScreenshotLimiter) :
  Reserve u t1 l = (inl r1, l1) ->
  Reserve u t2 l1 = (inl r2, l2) ->
  lastByUser (call r1 false l2).2 !! u = None /\
  exists r3, (Reserve u t3 (call r1 false l2).2).1 = inl r3.
Proof.
  intros H1 H2.
  destruct (Reserve_granted _ _ _ _ _ H1) as [-> ->].
  destruct (Reserve_granted _ _ _ _ _ H2) as [-> ->].
  unfold call, Reserve. simpl. rewrite lookup_delete_eq.
  split; [reflexivity|]. eexists. reflexivity.
Qed.

(** The requests of a list, served one after the other. *)
Fixpoint serve (requests : list Incoming) (l : attendanceScreenshotLimiter)
    : list Z * attendanceScreenshotLimiter :=
  match requests with
  | [] => ([], l)
  | request :: rest =>
      let '(status, l) := handleAttendanceScreenshot request l in
      let '(statuses, l) := serve rest l in
      (status :: statuses, l)
  end.

(** The status the endpoint would answer with if it had no limiter. *)
Definition unlimited (request : Incoming) : Z :=
  if negb (String.eqb (Method request) "GET") then StatusMethodNotAllowed
  else
    match BasicAuth request with
    | None => StatusUnauthorized
    | Some (username, password) =>
        if String.eqb username "" || String.eqb password "" then StatusUnauthorized
        else
          match fetchAttendanceScreenshot (Service request) with
          | inr errBrowserLoginUnauthorized => StatusUnauthorized
          | inr OtherError => StatusBadGateway
          | inl _ => StatusOK
          end
    end.

Lemma unlimited_not_429 (request : Incoming) : unlimited request <> StatusTooManyRequests.
Proof.
  unfold unlimited. destruct (negb (String.eqb (Method request) "GET")); [discriminate|].
  destruct (BasicAuth request) as [[username password]|]; [|discriminate].
  destruct (String.eqb username "" || String.eqb password ""); [discriminate|].
  destruct (fetchAttendanceScreenshot (Service request)) as [png|[]]; discriminate.
Qed.

Lemma handle_on_empty (request : Incoming) (l : attendanceScreenshotLimiter) :
  lastByUser l = ∅ ->
  (handleAttendanceScreenshot request l).1 = unlimited request /\
  lastByUser (handleAttendanceScreenshot request l).2 = ∅.
Proof.
  intros Hempty. unfold handleAttendanceScreenshot, unlimited.
  destruct (negb (String.eqb (Method request) "GET")); [auto|].
  destruct (BasicAuth request) as [[username password]|]; [|auto].
  destruct (String.eqb username "" || String.eqb password ""); [auto|].
  unfold Reserve. rewrite Hempty, lookup_empty. simpl.
  split; [reflexivity|]. rewrite delete_insert_eq. apply delete_empty.
Qed.

(** X17. Requests that the endpoint serves one after the other are
    never rate limited: the handler releases every reservation with
    [success] as it was at the [defer] statement, which is false, so
    that when it returns the entry of the user is deleted. Starting
    with the limiter of the package, every request gets the status it
    would get without a limiter, none gets 429, and the limiter is
    empty again after each of them. *)
Theorem sequential_requests_are_never_limited (requests : list Incoming) :
  (serve requests globalAttendanceScreenshotLimiter).1 = List.map unlimited requests /\
  Forall (fun status => status <> StatusTooManyRequests)
    (serve requests globalAttendanceScreenshotLimiter).1 /\
  lastByUser (serve requests globalAttendanceScreenshotLimiter).2 = ∅.
Proof.
  assert (H : forall l, lastByUser l = ∅ ->
            (serve requests l).1 = List.map unlimited requests /\
            lastByUser (serve requests l).2 = ∅).
  { induction requests as [|request rest IH]; intros l Hl; [auto|].
    simpl. destruct (handle_on_empty request l Hl) as [Hstatus Hl1].
    destruct (handleAttendanceScreenshot request l) as [status l1].
    simpl in Hstatus, Hl1. destruct (IH l1 Hl1) as [Hrest Hl2].
    destruct (serve rest l1) as [statuses l2]. simpl in *.
    split; congruence. }
  destruct (H globalAttendanceScreenshotLimiter eq_refl) as [Hmap Hl].
  split; [exact Hmap|]. split; [|exact Hl].
  rewrite Hmap. apply List.Forall_forall. intros status Hin.
  apply in_map_iff in Hin. destruct Hin as (request & <- & _).
  apply unlimited_not_429.
Qed.

End LimiterProperties.

(** ** Rotation of the TLS profiles *)

Section ProfileRotation.

Import TLSClient.

(** [n] sequential selections in a row, from the list [profiles]. *)
Fixpoint rotate (n : nat) (profiles : list ClientProfile) (currentProfileIndex : Z)
    : list (option ClientProfile) :=
  match n with
  | O => []
  | S n' =>
      let '(profile, next) :=
        selectProfile ProfileRotationSequential profiles (fun _ => 0) currentProfileIndex in
      profile :: rotate n' profiles next
  end.

Lemma index_in_range (l : list ClientProfile) (i : Z) :
  0 <= i < Z.of_nat (List.length l) -> index l i = nth_error l (Z.to_nat i) /\
  index l i <> None.
Proof.
  intros Hi. unfold index. destruct (Z.ltb_spec i 0); [lia|].
  split; [reflexivity|]. apply nth_error_Some. lia.
Qed.

(** X18. Sequential rotation goes through the profiles in order and
    starts over after the last; an empty list of custom profiles
    stands for the default profiles. With a counter [c] that is not
    negative and far from the end of the integers, the selection
    number [i] of a run returns the profile at position
    [(c + i) mod len] of the list. *)
Theorem sequential_rotation_cycles (CustomProfiles : list ClientProfile) (c : Z) (n i : nat) :
  let profileList :=
    match CustomProfiles with [] => DefaultProfiles | _ => CustomProfiles end in
  0 <= c -> c + Z.of_nat n < 2 ^ 63 ->
  (i < n)%nat ->
  nth_error (rotate n CustomProfiles c) i
  = Some (nth_error profileList
            (Z.to_nat ((c + Z.of_nat i) mod Z.of_nat (List.length profileList)))).
Proof.
  intros profileList. revert c i.
  assert (Hlist : (if (List.length CustomProfiles =? 0)%nat
                   then DefaultProfiles else CustomProfiles) = profileList).
  { subst profileList. destruct CustomProfiles; reflexivity. }
  assert (Hlen : 0 < Z.of_nat (List.length profileList)).
  { subst profileList. destruct CustomProfiles; simpl; lia. }
  clearbody profileList.
  induction n as [|n IH]; intros c i Hc Hmax Hi; [lia|].
  cbn [rotate]. unfold selectProfile.
  change (ProfileRotationSequential =? ProfileRotationOff) with false.
  change (ProfileRotationSequential =? ProfileRotationRandom) with false.
  change (ProfileRotationSequential =? ProfileRotationSequential) with true.
  cbv iota. rewrite Hlist.
  rewrite Z.rem_mod_nonneg by lia.
  destruct (index_in_range profileList (c mod Z.of_nat (List.length profileList)))
    as [Hidx Hsome]; [apply Z.mod_pos_bound; lia|].
  destruct (index profileList (c mod Z.of_nat (List.length profileList))) as [p|] eqn:Hp;
    [|congruence].
  assert (Hinc : increment c = c + 1).
  { unfold increment.
    change (2 ^ 64) with 18446744073709551616.
    change (2 ^ 63) with 9223372036854775808 in *.
    rewrite Z.mod_small; lia. }
  rewrite Hinc. destruct i as [|i].
  - cbn [nth_error]. rewrite Z.add_0_r. congruence.
  - cbn [nth_error]. rewrite IH by lia.
    replace (c + 1 + Z.of_nat i) with (c + Z.of_nat (S i)) by lia. reflexivity.
Qed.

Lemma sequential_rotation_cycles_witness :
  nth_error (rotate 9 [] 5) 8 = Some (Some Firefox_133).
Proof.
  apply (sequential_rotation_cycles [] 5 9 8); [lia | reflexivity | lia].
Defined.

End ProfileRotation.

(** ** The login form and the cells of the courses page *)

Section FormProperties.

Import Parse.

Lemma length_append (a b : string) :
  String.length (a ++ b) = (String.length a + String.length b)%nat.
Proof. induction a as [|c a IH]; simpl; [reflexivity | rewrite IH; reflexivity]. Qed.

Lemma append_cons (c : ascii) (a b : string) :
  (String c a ++ b)%string = String c (a ++ b)%string.
Proof. reflexivity. Qed.

Lemma append_assoc (a b c : string) : ((a ++ b) ++ c)%string = (a ++ (b ++ c))%string.
Proof.
  induction a as [|x a IH]; [reflexivity|]. rewrite !append_cons. f_equal. exact IH.
Qed.

Lemma HasPrefix_spec (s p : string) :
  Strings.HasPrefix s p = true <-> exists post, s = (p ++ post)%string.
Proof.
  revert s. induction p as [|a p IH]; intros s.
  - split; [intros _; exists s; reflexivity | intros _; destruct s; reflexivity].
  - destruct s as [|b s]; simpl.
    + split; [discriminate | intros (post & H); discriminate H].
    + rewrite ?append_cons. destruct (Ascii.eqb_spec a b) as [<- | Hab].
      * rewrite IH. split; intros (post & H); exists post.
        -- rewrite H. reflexivity.
        -- rewrite append_cons in H. congruence.
      * split; [discriminate | intros (post & H); rewrite append_cons in H; congruence].
Qed.

(** [sub] occurs in [s] after [pre]. *)
Definition occurs (s pre sub : string) : Prop :=
  exists post, s = (pre ++ sub ++ post)%string.

Lemma occurs_length (s pre sub : string) :
  occurs s pre sub -> (String.length pre + String.length sub <= String.length s)%nat.
Proof. intros (post & ->). rewrite !length_append. lia. Qed.

Lemma findSubstring_at_spec (s sub : string) : forall i : Z,
  (findSubstring_at i s sub = -1 /\ forall pre, ~ occurs s pre sub) \/
  (exists pre,
     occurs s pre sub /\
     findSubstring_at i s sub = i + Z.of_nat (String.length pre) /\
     forall pre', occurs s pre' sub -> (String.length pre <= String.length pre')%nat).
Proof.
  induction s as [|c r IH]; intros i.
  - simpl. destruct sub as [|a sub]; simpl.
    + right. exists "". split; [exists ""; reflexivity|].
      split; [simpl; lia | intros; simpl; lia].
    + left. split; [reflexivity|]. intros pre H. apply occurs_length in H.
      simpl in H. lia.
  - cbn [findSubstring_at].
    destruct (Nat.leb_spec (String.length sub) (String.length (String c r))) as [Hlen|Hlen].
    + destruct (Strings.HasPrefix (String c r) sub) eqn:Hpre.
      * right. exists "". split; [apply HasPrefix_spec in Hpre; exact Hpre|].
        split; [simpl; lia | intros; simpl; lia].
      * assert (Hnot : forall pre', occurs (String c r) pre' sub ->
                         exists p, pre' = String c p /\ occurs r p sub).
        { intros [|c' p] (post & H).
          - exfalso. assert (Strings.HasPrefix (String c r) sub = true)
              by (apply HasPrefix_spec; exists post; exact H). congruence.
          - rewrite append_cons in H. injection H as <- H. exists p.
            split; [reflexivity|].
            exists post. exact H. }
        destruct (IH (i + 1)) as [[Hr Hno] | (pre & Hocc & Hr & Hmin)].
        -- left. split; [exact Hr|]. intros pre' H.
           destruct (Hnot pre' H) as (p & _ & Hp). apply (Hno p Hp).
        -- right. exists (String c pre). split.
           { destruct Hocc as (post & ->). exists post. reflexivity. }
           split; [rewrite Hr; simpl String.length; lia|].
           intros pre' H. destruct (Hnot pre' H) as (p & -> & Hp).
           simpl. apply le_n_S, Hmin, Hp.
    + left. split; [reflexivity|]. intros pre H. apply occurs_length in H. lia.
Qed.

(** X19. [findSubstring] returns the index of the first occurrence of
    [substr] in [s], and [-1] exactly when there is none. *)
Theorem findSubstring_first_occurrence (s substr : string) :
  (findSubstring s substr = -1 /\
   forall pre post : string, s <> (pre ++ substr ++ post)%string) \/
  (exists pre post : string,
     s = (pre ++ substr ++ post)%string /\
     findSubstring s substr = Z.of_nat (String.length pre) /\
     forall pre' post' : string,
       s = (pre' ++ substr ++ post')%string ->
       (String.length pre <= String.length pre')%nat).
Proof.
  destruct (findSubstring_at_spec s substr 0) as [[Hr Hno] | (pre & (post & Hocc) & Hr & Hmin)].
  - left. split; [exact Hr|]. intros pre post H. apply (Hno pre). exists post. exact H.
  - right. exists pre, post. split; [exact Hocc|]. split; [exact Hr|].
    intros pre' post' H. apply Hmin. exists post'. exact H.
Qed.

Lemma substring_skip (a b : string) (n : nat) :
  String.substring (String.length a) n (a ++ b) = String.substring 0 n b.
Proof.
  induction a as [|c a IH]; [reflexivity|]. rewrite append_cons. simpl. exact IH.
Qed.

Lemma substring_prefix (a b : string) :
  String.substring 0 (String.length a) (a ++ b) = a.
Proof.
  induction a as [|c a IH]; [destruct b; reflexivity|].
  rewrite append_cons. simpl. rewrite IH. reflexivity.
Qed.

Lemma substring_all (s : string) : String.substring 0 (String.length s) s = s.
Proof. induction s as [|c s IH]; simpl; [reflexivity | rewrite IH; reflexivity]. Qed.

Lemma scan_script_found (key text : string) :
  scan_script "" text = key -> key <> "" ->
  exists pre rest,
    text = (pre ++ sitekey_marker ++ key ++ quote_mark ++ rest)%string /\
    forall a b : string, key <> (a ++ quote_mark ++ b)%string.
Proof.
  unfold scan_script. cbn [nonempty negb andb].
  destruct (0 <? String.length text)%nat; [|congruence].
  unfold findSubstring.
  destruct (findSubstring_at_spec text sitekey_marker 0)
    as [[-> _] | (pre & (post & Htext) & -> & _)]; [simpl; congruence|].
  destruct (Z.leb_spec 0 (0 + Z.of_nat (String.length pre))); [|lia].
  assert (Hstart : Z.to_nat (0 + Z.of_nat (String.length pre)
                             + Z.of_nat (String.length sitekey_marker))
                   = String.length (pre ++ sitekey_marker)).
  { rewrite length_append. lia. }
  unfold string_from. rewrite Hstart.
  assert (Hsplit : text = ((pre ++ sitekey_marker) ++ post)%string).
  { rewrite Htext, append_assoc. reflexivity. }
  assert (Hfrom : String.substring (String.length (pre ++ sitekey_marker))
                    (String.length text - String.length (pre ++ sitekey_marker)) text
                  = post).
  { rewrite Hsplit, substring_skip.
    replace (String.length ((pre ++ sitekey_marker) ++ post)
             - String.length (pre ++ sitekey_marker))%nat
      with (String.length post)
      by (rewrite (length_append (pre ++ sitekey_marker) post); lia).
    apply substring_all. }
  rewrite Hfrom.
  destruct (findSubstring_at_spec post quote_mark 0)
    as [[-> _] | (k & (rest & Hpost) & -> & Hmin)]; [simpl; congruence|].
  destruct (Z.ltb_spec 0 (0 + Z.of_nat (String.length k))); [|congruence].
  replace (Z.to_nat (0 + Z.of_nat (String.length k))) with (String.length k) by lia.
  assert (Hkey : String.substring (String.length (pre ++ sitekey_marker))
                   (String.length k) text = k).
  { rewrite Hsplit, substring_skip, Hpost. apply substring_prefix. }
  rewrite Hkey.
  intros <- Hne. exists pre, rest. split.
  - rewrite Htext, Hpost. reflexivity.
  - intros a b Hk.
    assert (Hocc : occurs post a quote_mark).
    { exists (b ++ quote_mark ++ rest)%string. rewrite Hpost, Hk.
      rewrite !append_assoc. reflexivity. }
    apply Hmin in Hocc. rewrite Hk, !length_append in Hocc. simpl in Hocc. lia.
Qed.

Lemma scan_script_keeps (key text : string) : key <> "" -> scan_script key text = key.
Proof. unfold scan_script. destruct key; [congruence | reflexivity]. Qed.

Lemma fold_scan_keeps (texts : list string) (key : string) :
  key <> "" -> fold_left scan_script texts key = key.
Proof.
  induction texts as [|text texts IH]; intros Hne; simpl; [reflexivity|].
  rewrite scan_script_keeps by assumption. apply IH, Hne.
Qed.

Lemma fold_scan_found (texts : list string) :
  fold_left scan_script texts "" <> "" ->
  exists text, In text texts /\ scan_script "" text = fold_left scan_script texts "".
Proof.
  induction texts as [|text texts IH]; simpl; [congruence|].
  destruct (string_dec (scan_script "" text) "") as [Hnone|Hsome].
  - rewrite Hnone. intros H. destruct (IH H) as (t & Hin & Ht). exists t. auto.
  - intros _. rewrite fold_scan_keeps by assumption. exists text. auto.
Qed.

(** X20. A Turnstile site key that [ParseLoginFormFromDom] reports is
    not invented: some script of the page has the text
    [sitekey: "<key>"] in it, and the key has no quotation mark in
    it. *)
Theorem turnstile_site_key_is_quoted_in_a_script (dom : Document) :
  let key := TurnstileSiteKey (ParseLoginFormFromDom dom) in
  key <> "" ->
  exists text pre rest : string,
    In text (scripts dom) /\
    text = (pre ++ sitekey_marker ++ key ++ quote_mark ++ rest)%string /\
    forall a b : string, key <> (a ++ quote_mark ++ b)%string.
Proof.
  cbv zeta. simpl. intros Hne.
  destruct (fold_scan_found (scripts dom) Hne) as (text & Hin & Hscan).
  destruct (scan_script_found _ text Hscan Hne) as (pre & rest & Htext & Hquote).
  exists text, pre, rest. auto.
Qed.

End FormProperties.

Section CellProperties.

Import Regexp Parse.

(** No byte of the text is a decimal digit. *)
Definition digit_free (l : list ascii) : bool :=
  forallb (fun c => negb (is_digit c)) l.

(** A regular expression that cannot match without reading a digit
    first. *)
Definition starts_with_digit (r : regex) : Prop :=
  forall (s : list ascii) (caps : captures) (k : list ascii -> captures -> answer),
    match s with
    | [] => True
    | c :: _ => is_digit c = false
    end ->
    run r s caps k = None.

Lemma find_digit_free (r : regex) (l : list ascii) :
  starts_with_digit r -> digit_free l = true -> find r l = None.
Proof.
  intros Hr. induction l as [|c l IH]; intros Hl.
  - simpl. rewrite Hr; [reflexivity | exact I].
  - simpl in Hl. apply andb_prop in Hl. destruct Hl as [Hc Hl].
    cbn [find]. rewrite Hr; [apply IH, Hl|].
    destruct (is_digit c); [discriminate | reflexivity].
Qed.

Lemma number_starts_with_digit : starts_with_digit number.
Proof. intros [|c s] caps k Hs; simpl; [reflexivity | rewrite Hs; reflexivity]. Qed.

Lemma reAttendance_starts_with_digit : starts_with_digit reAttendance.
Proof. intros [|c s] caps k Hs; simpl; [reflexivity | rewrite Hs; reflexivity]. Qed.

Lemma reNewFormat_starts_with_digit : starts_with_digit reNewFormat.
Proof. intros [|c s] caps k Hs; simpl; [reflexivity | rewrite Hs; reflexivity]. Qed.

Lemma rePair_starts_with_digit : starts_with_digit rePair.
Proof. intros [|c s] caps k Hs; simpl; [reflexivity | rewrite Hs; reflexivity]. Qed.

(** X21. A cell whose cleaned text has no digit in it gives the zero
    attendance and the zero marks, whatever else it holds: neither
    parser fails, and neither makes up a number. *)
Theorem cell_without_digits_is_zero (CleanString : string -> string) (raw : string) :
  digit_free (list_ascii_of_string (CleanString raw)) = true ->
  parseAttendance CleanString raw = Attendance_zero /\
  parseInternalMarks CleanString raw = Marks_zero.
Proof.
  intros Hfree. split.
  - unfold parseAttendance. destruct (isNAValue (CleanString raw)); [reflexivity|].
    unfold FindStringSubmatch.
    rewrite (find_digit_free _ _ reAttendance_starts_with_digit Hfree). reflexivity.
  - unfold parseInternalMarks.
    destruct (isNAValue (CleanString raw) || isNonNumericValue (CleanString raw));
      [reflexivity|].
    unfold FindStringSubmatch, FindString.
    rewrite (find_digit_free _ _ reNewFormat_starts_with_digit Hfree).
    rewrite (find_digit_free _ _ rePair_starts_with_digit Hfree).
    rewrite (find_digit_free _ _ number_starts_with_digit Hfree). reflexivity.
Qed.

Lemma cell_without_digits_is_zero_witness :
  parseAttendance (fun s => s) "absent / barred" = Attendance_zero /\
  parseInternalMarks (fun s => s) "absent / barred" = Marks_zero.
Proof.
  apply (cell_without_digits_is_zero (fun s => s) "absent / barred"). reflexivity.
Defined.

(** *** A fraction in the attendance cell *)

(** The text goes on with something that [p] rejects, or ends. *)
Definition stops (p : ascii -> bool) (s : list ascii) : Prop :=
  match s with
  | [] => True
  | c :: _ => p c = false
  end.

Lemma star_class_stop (p : ascii -> bool) s caps k :
  stops p s -> run (Star (Class p)) s caps k = k s caps.
Proof.
  destruct s as [|c s]; intros Hs; simpl; [reflexivity|].
  simpl in Hs. rewrite Hs. reflexivity.
Qed.

Lemma star_class_step (p : ascii -> bool) c t caps k :
  p c = true ->
  run (Star (Class p)) (c :: t) caps k
  = match run (Star (Class p)) t caps k with
    | Some a => Some a
    | None => k (c :: t) caps
    end.
Proof.
  intros Hp. simpl. rewrite Hp.
  assert (Hlt : (List.length t <? S (List.length t))%nat = true)
    by (apply Nat.ltb_lt; lia).
  rewrite Hlt. reflexivity.
Qed.

(** A greedy star over a class takes all there is, when what follows
    matches from there. *)
Lemma star_class_all (p : ascii -> bool) xs s caps k a :
  forallb p xs = true -> stops p s -> k s caps = Some a ->
  run (Star (Class p)) (xs ++ s)%list caps k = Some a.
Proof.
  intros Hxs Hs Hk. induction xs as [|x xs IH].
  - simpl app. rewrite star_class_stop by assumption. exact Hk.
  - simpl in Hxs. apply andb_prop in Hxs. destruct Hxs as [Hx Hxs].
    change ((x :: xs) ++ s)%list with (x :: (xs ++ s))%list.
    rewrite star_class_step by assumption. rewrite (IH Hxs). reflexivity.
Qed.

Lemma consumed_app (xs s : list ascii) : consumed (xs ++ s)%list s = xs.
Proof.
  unfold consumed. rewrite length_app.
  replace (List.length xs + List.length s - List.length s)%nat with (List.length xs) by lia.
  rewrite firstn_app, Nat.sub_diag, firstn_all. simpl. apply app_nil_r.
Qed.

Lemma group_plus_class (n : nat) (p : ascii -> bool) x xs s caps k a :
  forallb p (x :: xs) = true -> stops p s ->
  k s ((n, (x :: xs)) :: caps) = Some a ->
  run (Group n (Plus (Class p))) ((x :: xs) ++ s)%list caps k = Some a.
Proof.
  intros Hxs Hs Hk. simpl in Hxs. apply andb_prop in Hxs. destruct Hxs as [Hx Hxs].
  change (run (Group n (Plus (Class p))) ((x :: xs) ++ s)%list caps k)
    with (if p x
          then run (Star (Class p)) (xs ++ s)%list caps
                 (fun s' caps' => k s' ((n, consumed ((x :: xs) ++ s)%list s') :: caps'))
          else None).
  rewrite Hx. apply star_class_all; [assumption | assumption|].
  rewrite consumed_app. exact Hk.
Qed.

Lemma find_skips_digit_free (r : regex) (pre s s' : list ascii) (caps : captures) :
  starts_with_digit r -> digit_free pre = true ->
  run r s [] (fun s' caps => Some (s', caps)) = Some (s', caps) ->
  find r (pre ++ s)%list = Some (consumed s s', caps).
Proof.
  intros Hr Hpre Hrun. induction pre as [|c pre IH].
  - simpl app. destruct s; cbn [find]; rewrite Hrun; reflexivity.
  - simpl in Hpre. apply andb_prop in Hpre. destruct Hpre as [Hc Hpre].
    change ((c :: pre) ++ s)%list with (c :: (pre ++ s))%list.
    cbn [find]. rewrite Hr by (simpl; destruct (is_digit c); [discriminate | reflexivity]).
    apply IH, Hpre.
Qed.

Lemma digits_from_all (s : string) (acc n : Z) :
  Strconv.digits_from acc s = Some n -> forallb is_digit (list_ascii_of_string s) = true.
Proof.
  revert acc. induction s as [|c s IH]; intros acc; simpl; [reflexivity|].
  destruct (is_digit c); [|discriminate]. apply IH.
Qed.

(** A string that [Atoi] accepts is a digit followed by digits. *)
Lemma Atoi_digits (s : string) (n : Z) :
  Strconv.Atoi s = inl n ->
  exists x xs, list_ascii_of_string s = x :: xs /\ forallb is_digit (x :: xs) = true.
Proof.
  unfold Strconv.Atoi, Strconv.digits. destruct s as [|c s]; [discriminate|].
  destruct (Strconv.digits_from 0 (String c s)) as [v|] eqn:Hv; [|discriminate].
  intros _. exists c, (list_ascii_of_string s). split; [reflexivity|].
  apply (digits_from_all (String c s) 0 v Hv).
Qed.

Lemma list_ascii_of_string_app (a b : string) :
  list_ascii_of_string (a ++ b) = (list_ascii_of_string a ++ list_ascii_of_string b)%list.
Proof.
  induction a as [|c a IH]; [reflexivity|]. rewrite append_cons. simpl. rewrite IH.
  reflexivity.
Qed.

Lemma perl_space_not_digit (c : ascii) : is_perl_space c = true -> is_digit c = false.
Proof.
  unfold is_perl_space, is_digit. intros H.
  repeat (apply orb_prop in H; destruct H as [H|H]);
    apply Nat.eqb_eq in H; rewrite H; reflexivity.
Qed.

Lemma stops_app (p q : ascii -> bool) (xs s : list ascii) :
  (forall c, q c = true -> p c = false) ->
  forallb q xs = true -> stops p s -> stops p (xs ++ s)%list.
Proof.
  intros Hpq Hxs Hs. destruct xs as [|x xs]; [exact Hs|].
  simpl in *. apply andb_prop in Hxs. apply Hpq, Hxs.
Qed.

(** The match of [reAttendance] at the start of a fraction. *)
Lemma reAttendance_fraction (a b sp1 sp2 rest : list ascii) x xs y ys :
  a = x :: xs -> forallb is_digit a = true ->
  b = y :: ys -> forallb is_digit b = true ->
  forallb is_perl_space sp1 = true -> forallb is_perl_space sp2 = true ->
  stops is_digit rest ->
  run reAttendance (a ++ sp1 ++ "/"%char :: sp2 ++ b ++ rest)%list []
    (fun s' caps => Some (s', caps))
  = Some (rest, [(2%nat, b); (1%nat, a)]).
Proof.
  intros -> Ha -> Hb Hsp1 Hsp2 Hrest.
  change (run reAttendance ?s [] ?k)
    with (run (Group 1 (Plus (Class is_digit))) s []
            (fun s1 caps1 =>
               run (Star (Class is_perl_space)) s1 caps1
                 (fun s2 caps2 =>
                    run (Lit "/") s2 caps2
                      (fun s3 caps3 =>
                         run (Star (Class is_perl_space)) s3 caps3
                           (fun s4 caps4 =>
                              run (Group 2 (Plus (Class is_digit))) s4 caps4 k))))).
  apply group_plus_class; [exact Ha | |].
  { apply (stops_app is_digit is_perl_space); [apply perl_space_not_digit | exact Hsp1|].
    reflexivity. }
  apply star_class_all; [exact Hsp1 | reflexivity|].
  change (run (Lit "/") ("/"%char :: ?s) ?caps ?k) with (k s caps). cbv beta.
  apply star_class_all; [exact Hsp2 | |].
  { simpl. simpl in Hb. apply andb_prop in Hb. destruct Hb as [Hy _].
    destruct (is_perl_space y) eqn:Hsp; [|reflexivity].
    apply perl_space_not_digit in Hsp. congruence. }
  apply group_plus_class; [exact Hb | exact Hrest | reflexivity].
Qed.

(** X23. An attendance cell whose cleaned text has, after a part
    without digits, a number, a slash and a number (with white space
    around the slash or without), and then no further digit at once,
    gives these two numbers, each reduced to 32 bits: the first is the
    number of classes attended, the second that of classes held. *)
Theorem attendance_is_the_first_fraction
    (CleanString : string -> string) (raw pre a sp1 sp2 b rest : string) (n m : Z) :
  CleanString raw = (pre ++ a ++ sp1 ++ "/" ++ sp2 ++ b ++ rest)%string ->
  isNAValue (CleanString raw) = false ->
  digit_free (list_ascii_of_string pre) = true ->
  Strconv.Atoi a = inl n ->
  Strconv.Atoi b = inl m ->
  forallb is_perl_space (list_ascii_of_string sp1) = true ->
  forallb is_perl_space (list_ascii_of_string sp2) = true ->
  stops is_digit (list_ascii_of_string rest) ->
  parseAttendance CleanString raw
  = {| ClassesAttended := Strconv.int32 n; ClassesHeld := Strconv.int32 m |}.
Proof.
  intros Htext Hna Hpre Ha Hb Hsp1 Hsp2 Hrest.
  unfold parseAttendance. rewrite Hna. unfold FindStringSubmatch.
  destruct (Atoi_digits a n Ha) as (x & xs & Hax & Hda).
  destruct (Atoi_digits b m Hb) as (y & ys & Hby & Hdb).
  rewrite <- Hax in Hda. rewrite <- Hby in Hdb.
  pose proof (reAttendance_fraction _ _ _ _ _ x xs y ys Hax Hda Hby Hdb Hsp1 Hsp2 Hrest)
    as Hrun.
  rewrite Htext, !list_ascii_of_string_app.
  change (list_ascii_of_string "/") with ["/"%char].
  change (["/"%char] ++ ?l)%list with ("/"%char :: l).
  rewrite (find_skips_digit_free reAttendance _ _ _ _ reAttendance_starts_with_digit
             Hpre Hrun).
  cbn [NumSubexp reAttendance Plus digit space Lit Nat.add seq List.map capture Nat.eqb].
  rewrite !string_of_list_ascii_of_string, Ha, Hb. reflexivity.
Qed.

Lemma attendance_is_the_first_fraction_witness :
  parseAttendance (fun s => s) "Att: 33 / 43 (76.74)"
  = {| ClassesAttended := 33; ClassesHeld := 43 |}.
Proof.
  apply (attendance_is_the_first_fraction (fun s => s) "Att: 33 / 43 (76.74)"
           "Att: " "33" " " " " "43" " (76.74)" 33 43); reflexivity.
Defined.

End CellProperties.

(** ** More examples *)

Section MoreExamples.

Import Amizone Server.

Lemma GetOrCreate_caches_success_only_witness :
  let r := GetOrCreate (scripted login_page) domain "alice" "secret"
             (NewSessionCache 0) today in
  exists c, r.1.1.1 = Some c /\ (Get "alice" "secret" r.1.2 r.2).1.1 = Some c.
Proof.
  refine (proj2 (GetOrCreate_caches_success_only (scripted login_page) domain
                   "alice" "secret" (NewSessionCache 0) today _) _).
  - vm_compute. discriminate.
  - vm_compute. reflexivity.
Defined.

Lemma login_success_means_session_witness :
  IsLoggedIn (httpClient (login (scripted login_page) domain true alice today).1.2) = true.
Proof.
  refine (proj1 (login_success_means_session (scripted login_page) domain true alice
                   today _ _)).
  - vm_compute. reflexivity.
  - left. reflexivity.
Defined.

Lemma submitted_form_challenge_fields_witness :
  submitted_form !! "honeypot" = Some "".
Proof.
  refine (proj1 (submitted_form_challenge_fields (scripted login_page) domain false alice
                   today submitted_form _)).
  vm_compute. reflexivity.
Defined.

Lemma login_without_solver_witness :
  forallb (fun ev => negb (solver_event ev))
    (events_since today (login (scripted login_page) domain false alice today).2) = true.
Proof.
  apply (login_without_solver (scripted login_page) domain false alice today).
  reflexivity.
Defined.

(** One minute after [today]. *)
Definition a_minute_later : World := {| now := now today + Minute; trace := [] |}.

Lemma failed_attempt_throttles_next_witness :
  (login (scripted blank_page) domain false
     (login (scripted blank_page) domain false alice today).1.2 a_minute_later).1.1
  = Some ErrLoginThrottled.
Proof.
  rewrite (failed_attempt_throttles_next (scripted blank_page) domain false alice today
             a_minute_later).
  - reflexivity.
  - reflexivity.
  - reflexivity.
  - vm_compute. discriminate.
  - reflexivity.
  - vm_compute. discriminate.
  - vm_compute. reflexivity.
Defined.

Lemma empty_solver_key_is_rejected_witness :
  (NewClientWithOptions (scripted login_page) domain
     {| Username := "alice"; Password := "secret" |}
     [WithTLSClient; WithCapSolver ""] today).1.1 = None.
Proof.
  refine (proj1 (empty_solver_key_is_rejected (scripted login_page) domain
                   {| Username := "alice"; Password := "secret" |}
                   [WithTLSClient; WithCapSolver ""] today _)).
  right. left. reflexivity.
Defined.

(** A login page with a Turnstile widget. *)
Definition challenge_page : Parse.Document :=
  {| Parse.parses := true;
     Parse.loginform_inputs := [("__RequestVerificationToken", Some "tok")];
     Parse.scripts :=
       ["var a = 1;";
        "turnstile.render('#widget', { " ++ Parse.sitekey_marker ++ "0x4AAAAAAA"
          ++ Parse.quote_mark ++ ", theme: 'light' });"];
     Parse.logged_in := false |}.

Lemma turnstile_site_key_is_quoted_in_a_script_witness :
  Parse.TurnstileSiteKey (Parse.ParseLoginFormFromDom challenge_page) = "0x4AAAAAAA" /\
  exists text pre rest : string,
    In text (Parse.scripts challenge_page) /\
    text = (pre ++ Parse.sitekey_marker
              ++ Parse.TurnstileSiteKey (Parse.ParseLoginFormFromDom challenge_page)
              ++ Parse.quote_mark ++ rest)%string /\
    forall a b : string,
      Parse.TurnstileSiteKey (Parse.ParseLoginFormFromDom challenge_page)
      <> (a ++ Parse.quote_mark ++ b)%string.
Proof.
  split; [vm_compute; reflexivity|].
  apply (turnstile_site_key_is_quoted_in_a_script challenge_page).
  vm_compute. discriminate.
Defined.

End MoreExamples.

Section LimiterExamples.

Import Screenshot.

Definition reserved : attendanceScreenshotLimiter :=
  set_lastByUser {[ "alice" := 1000 ]} globalAttendanceScreenshotLimiter.

Definition ticket : Release := {| user := "alice"; alreadyReleased := false |}.

Lemma Reserve_alice :
  Reserve "alice" 1000 globalAttendanceScreenshotLimiter = (inl ticket, reserved).
Proof. unfold Reserve, reserved. simpl. rewrite insert_empty. reflexivity. Qed.

Lemma Reserve_respects_cooldown_witness :
  Reserve "alice" (1000 + Minute) (call ticket true reserved).2
  = (inr (9 * Minute), (call ticket true reserved).2).
Proof.
  refine (proj1 (Reserve_respects_cooldown "alice" 1000 (1000 + Minute)
                   globalAttendanceScreenshotLimiter ticket reserved
                   Reserve_alice _ _) _).
  - vm_compute. discriminate.
  - vm_compute. discriminate.
  - vm_compute. reflexivity.
Defined.

Lemma release_failure_frees_user_witness :
  exists r', (Reserve "alice" 1001 (call ticket false reserved).2).1 = inl r'.
Proof.
  exact (proj1 (release_failure_frees_user "alice" 1000 1001
                  globalAttendanceScreenshotLimiter ticket reserved Reserve_alice)).
Defined.

Lemma late_release_cancels_newer_reservation_witness :
  exists r3,
    (Reserve "alice" (1001 + 10 * Minute)
       (call ticket false
          (Reserve "alice" (1000 + 10 * Minute) reserved).2).2).1 = inl r3.
Proof.
  refine (proj2 (late_release_cancels_newer_reservation "alice" 1000 (1000 + 10 * Minute)
                   (1001 + 10 * Minute) globalAttendanceScreenshotLimiter ticket ticket
                   reserved (Reserve "alice" (1000 + 10 * Minute) reserved).2
                   Reserve_alice _)).
  unfold Reserve, reserved. simpl. rewrite lookup_singleton_eq. reflexivity.
Defined.

End LimiterExamples.
